(** * nexus3-go: the script bridge and the paginated listings

    A shallow embedding of the script registry client (GetScript, CreateScript,
    UpdateScript, DeleteScript, ExecuteScript), of the two procedures built on
    it (Script.ensureAndExecute and EphemeralScript.Execute) and of the
    page-by-page listings (ListAssetsPages, ListComponentsPages), together
    with the transport functions they go through (NewRequest, Do).

    Conventions of the embedding.
    - A Go pointer [*T] is an [option T]; dereferencing [None] is the run-time
      panic "nil pointer dereference", outcome [Panic].
    - A Go function returning [(res, err)] returns a pair of options: both
      components can be non-nil at once, as in Go.
    - Everything that talks to the server runs in the monad [M]: it threads
      the state of the outside world and collects the history of the run. *)

From Stdlib Require Import String Ascii List ZArith Bool Lia.
From Stdlib Require Import DecimalString.
Import ListNotations.
Local Open Scope list_scope.
Local Open Scope string_scope.

Set Implicit Arguments.
Set Warnings "-register-all".

(** [jq t] is the text [t] with every apostrophe read as a double quote:
    JSON texts are written that way below. *)
Fixpoint jq (t : string) : string :=
  match t with
  | EmptyString => EmptyString
  | String c t' => String (if Ascii.eqb c "'" then "034"%char else c) (jq t')
  end.

(** ** Errors and plain data *)

(** Values of Go's interface type [error] that occur in the package. *)
Inductive error : Type :=
| errorString (msg : string)
    (* errors.New(msg), fmt.Errorf(...) *)
| externalError (msg : string)
    (* an error built outside the package: http.Client.Do, url.Parse,
       http.NewRequest, ioutil.ReadAll, json.Marshal *)
| SyntaxError (msg : string)
    (* *json.SyntaxError *)
| UnmarshalTypeError (Value Type_ Struct Field : string).
    (* *json.UnmarshalTypeError{Value, Type, Struct, Field} *)

(** [err.Error()]. *)
Definition Error (e : error) : string :=
  match e with
  | errorString msg => msg
  | externalError msg => msg
  | SyntaxError msg => msg
  | UnmarshalTypeError v t "" "" =>
      "json: cannot unmarshal " ++ v ++ " into Go value of type " ++ t
  | UnmarshalTypeError v t s f =>
      "json: cannot unmarshal " ++ v ++ " into Go struct field "
        ++ s ++ "." ++ f ++ " of type " ++ t
  end.

(** type Nexus struct: host, username, password (the *http.Client it holds is
    the connection to the world, see [client_Do]). *)
Record Nexus : Type := mkNexus {
  host : string;
  username : string;
  password : string
}.

(** type Script struct. *)
Record Script : Type := mkScript {
  Name : option string;
  Content : option string;
  Type_ : option string;
  client : option Nexus
}.

(** type ExecuteScriptResponse struct. *)
Record ExecuteScriptResponse : Type := mkExecuteScriptResponse {
  esrName : option string;
  Result : option string
}.

(** type Asset struct; [Checksum] is a [*map[string]string], kept as an
    association list with distinct keys. *)
Record Asset : Type := mkAsset {
  DownloadURL : option string;
  Path : option string;
  assetID : option string;
  assetRepository : option string;
  assetFormat : option string;
  Checksum : option (list (string * string));
  assetClient : option Nexus
}.

(** type ListAssetsInput struct. *)
Record ListAssetsInput : Type := mkListAssetsInput {
  laiRepository : option string;
  laiContinuationToken : option string
}.

(** type ListAssetsResponse struct; [Items] is a []*Asset. *)
Record ListAssetsResponse : Type := mkListAssetsResponse {
  larItems : list (option Asset);
  larContinuationToken : option string
}.

(** type Component struct. *)
Record Component : Type := mkComponent {
  compID : option string;
  compRepository : option string;
  compFormat : option string;
  compGroup : option string;
  compName : option string;
  compVersion : option string;
  compAssets : list (option Asset);
  compClient : option Nexus
}.

(** type ListComponentsInput struct. *)
Record ListComponentsInput : Type := mkListComponentsInput {
  lciRepository : option string;
  lciContinuationToken : option string
}.

(** type ListComponentsResponse struct. *)
Record ListComponentsResponse : Type := mkListComponentsResponse {
  lcrItems : list (option Component);
  lcrContinuationToken : option string
}.

(** The *http.Request that NewRequest builds, by its parts. *)
Record Request : Type := mkRequest {
  reqMethod : string;
  reqURL : string;                         (* host/endpoint *)
  reqArgs : option (list (string * string)); (* the query map, if any *)
  reqBody : option string;                 (* nil or the payload *)
  reqContentType : string;
  reqAuth : string * string                (* SetBasicAuth(username, password) *)
}.

(** What the client reads from an *http.Response: the status code and the
    outcome of ioutil.ReadAll on its body (content read, read error). *)
Record Response : Type := mkResponse {
  StatusCode : Z;
  respBody : string;
  respReadErr : option error
}.

(** ** The world outside the package

    The server, the network, the random source of uuid.New and the Go
    libraries whose text output is not fixed here. *)
Class Runtime : Type := {
  World : Type;
  (* n.client.Do(req): one HTTP round trip *)
  client_Do : Request -> World -> (Response + error) * World;
  (* uuid.New().String() *)
  uuid_New : World -> string * World;
  (* url.Parse(raw): None when it succeeds *)
  url_Parse : string -> option error;
  (* u.String() for the parsed raw URL with the query map put in *)
  url_String : string -> option (list (string * string)) -> string;
  (* http.NewRequest(method, url, body): None when it succeeds *)
  http_NewRequest : string -> string -> option error;
  (* fmt.Sprintf(format) with no operand: the text of fmt.Errorf(status) *)
  fmt_Sprintf0 : string -> string;
  (* json.Marshal(script): the bytes, or the error *)
  json_Marshal_Script : Script -> string + error;
  (* the values passed as script arguments (a non-nil interface{}) and
     json.Marshal on them *)
  Arg : Type;
  json_Marshal_Arg : Arg -> string + error;
  (* the message of the *json.SyntaxError for an input that is not JSON *)
  json_syntax_msg : string -> string;
  (* json.Unmarshal(body, &res) with res a nil *ListAssetsResponse, and the
     same for *ListComponentsResponse: the new res and the error *)
  json_Unmarshal_ListAssetsResponse :
    string -> option ListAssetsResponse * option error;
  json_Unmarshal_ListComponentsResponse :
    string -> option ListComponentsResponse * option error
}.

(** ** History of a run *)

(** The operations on the server, as called: those of the script registry
    and the two page fetches. *)
Inductive Op {rt : Runtime} : Type :=
| OpGet (name : string)
| OpCreate (script : option Script)
| OpUpdate (script : option Script)
| OpExecute (name : string) (args : option Arg)
| OpDelete (name : string)
| OpListAssets (input : option ListAssetsInput)
| OpListComponents (input : option ListComponentsInput).

(** What a run leaves in its history: the HTTP round trips it made, and as
    ghost entries the registry operations it entered and the pages it handed
    to the caller's callback. *)
Inductive Event {rt : Runtime} : Type :=
| Sent (req : Request)
| Called (op : Op)
| HandledAssets (res : ListAssetsResponse) (last : bool)
| HandledComponents (res : ListComponentsResponse) (last : bool).

(** ** The monad of effects *)

Inductive Outcome (A : Type) : Type :=
| Done (a : A)        (* the call returned a *)
| Panic               (* nil pointer dereference *)
| OutOfFuel.          (* the bound on recursion depth was reached *)
Arguments Done {A} a.
Arguments Panic {A}.
Arguments OutOfFuel {A}.

Definition M {rt : Runtime} (A : Type) : Type :=
  World -> Outcome A * World * list Event.

Section Monad.
Context {rt : Runtime}.

Definition ret {A} (a : A) : M A := fun w => (Done a, w, []).

Definition bind {A B} (m : M A) (f : A -> M B) : M B :=
  fun w =>
    match m w with
    | (Done a, w1, t1) =>
        match f a w1 with
        | (o, w2, t2) => (o, w2, (t1 ++ t2)%list)
        end
    | (Panic, w1, t1) => (Panic, w1, t1)
    | (OutOfFuel, w1, t1) => (OutOfFuel, w1, t1)
    end.

Definition panic {A} : M A := fun w => (Panic, w, []).
Definition out_of_fuel {A} : M A := fun w => (OutOfFuel, w, []).

(** [*p] *)
Definition deref {A} (p : option A) : M A :=
  match p with
  | Some a => ret a
  | None => panic
  end.

Definition emit (e : Event) : M unit := fun w => (Done tt, w, [e]).

(** An action of the world that leaves no entry in the history. *)
Definition lift {A} (f : World -> A * World) : M A :=
  fun w => let (a, w1) := f w in (Done a, w1, []).

(** [defer cleanup; body]: the deferred call runs when the body returns and
    when it panics; what it returns is dropped. If it panics itself, that
    panic is the outcome. *)
Definition defer_ {A B} (cleanup : M B) (body : M A) : M A :=
  fun w =>
    match body w with
    | (o, w1, t1) =>
        match cleanup w1 with
        | (Done _, w2, t2) => (o, w2, (t1 ++ t2)%list)
        | (Panic, w2, t2) => (Panic, w2, (t1 ++ t2)%list)
        | (OutOfFuel, w2, t2) => (OutOfFuel, w2, (t1 ++ t2)%list)
        end
    end.

End Monad.

Declare Scope go_scope.
Delimit Scope go_scope with go.
Notation "x <- m ;; k" := (bind m (fun x => k))
  (at level 100, m at next level, right associativity) : go_scope.
Notation "' pat <- m ;; k" :=
  (bind m (fun x => match x with pat => k end))
  (at level 100, pat pattern, m at next level, right associativity) : go_scope.
Notation "m ;;; k" := (bind m (fun _ => k))
  (at level 100, right associativity) : go_scope.
Local Open Scope go_scope.

(** ** encoding/json, as far as the package uses it on flat structs

    json.Unmarshal(data, &p) for a nil [p] of type *T, where T is a struct
    whose exported fields are all *string (Script, ExecuteScriptResponse):
    the JSON grammar, string unquoting, and the way the decoder fills a
    struct. Strings are byte strings, as Go's are. The reader puts no bound
    on the nesting of arrays and objects. *)
Module JSON.

Inductive json : Type :=
| JNull
| JBool (b : bool)
| JNumber (lexeme : string)
| JString (s : string)
| JArray (elems : list json)
| JObject (members : list (string * json)).

(** *** Scanning *)

Definition byte (c : ascii) : N := N_of_ascii c.
Definition chr (n : N) : ascii := ascii_of_N n.

Definition is_space (c : ascii) : bool :=
  match c with
  | " "%char | "009"%char | "010"%char | "013"%char => true
  | _ => false
  end.

Fixpoint skip_space (s : string) : string :=
  match s with
  | String c s' => if is_space c then skip_space s' else s
  | EmptyString => s
  end.

Definition is_digit (c : ascii) : bool :=
  ((48 <=? byte c) && (byte c <=? 57))%N.

Fixpoint take_digits (s : string) : string * string :=
  match s with
  | String c s' =>
      if is_digit c
      then let (d, r) := take_digits s' in (String c d, r)
      else ("", s)
  | EmptyString => ("", "")
  end.

Definition scan_int (s : string) : option (string * string) :=
  match s with
  | String "0"%char r => Some ("0", r)
  | String c r =>
      if is_digit c
      then let (d, r') := take_digits r in Some (String c d, r')
      else None
  | EmptyString => None
  end.

Definition scan_frac (s : string) : option (string * string) :=
  match s with
  | String "."%char r =>
      match take_digits r with
      | (EmptyString, _) => None
      | (d, r') => Some (String "."%char d, r')
      end
  | _ => Some ("", s)
  end.

Definition scan_sign (s : string) : string * string :=
  match s with
  | String "+"%char r => ("+", r)
  | String "-"%char r => ("-", r)
  | _ => ("", s)
  end.

Definition scan_exp (s : string) : option (string * string) :=
  match s with
  | String c r =>
      if (Ascii.eqb c "e" || Ascii.eqb c "E")%bool
      then let (sg, r1) := scan_sign r in
           match take_digits r1 with
           | (EmptyString, _) => None
           | (d, r2) => Some (String c (sg ++ d), r2)
           end
      else Some ("", s)
  | EmptyString => Some ("", s)
  end.

Definition scan_number (s : string) : option (string * string) :=
  let (sg, r0) := match s with
                  | String "-"%char r => ("-", r)
                  | _ => ("", s)
                  end in
  match scan_int r0 with
  | None => None
  | Some (i, r1) =>
      match scan_frac r1 with
      | None => None
      | Some (f, r2) =>
          match scan_exp r2 with
          | None => None
          | Some (e, r3) => Some (sg ++ i ++ f ++ e, r3)
          end
      end
  end.

(** *** Strings: escapes, \u, UTF-8 *)

Definition hex_digit (c : ascii) : option N :=
  let n := byte c in
  if ((48 <=? n) && (n <=? 57))%N then Some (n - 48)%N
  else if ((97 <=? n) && (n <=? 102))%N then Some (n - 87)%N
  else if ((65 <=? n) && (n <=? 70))%N then Some (n - 55)%N
  else None.

(** getu4 on the four characters after "\u" *)
Definition hex4 (a b c d : ascii) : option N :=
  match hex_digit a, hex_digit b, hex_digit c, hex_digit d with
  | Some x, Some y, Some z, Some t => Some (x * 4096 + y * 256 + z * 16 + t)%N
  | _, _, _, _ => None
  end.

Definition ReplacementChar : N := 65533.

(** utf8.EncodeRune *)
Definition EncodeRune (r : N) : string :=
  if (r <? 128)%N then String (chr r) ""
  else if (r <? 2048)%N then
    String (chr (192 + r / 64)) (String (chr (128 + r mod 64)) "")
  else if (r <? 65536)%N then
    String (chr (224 + r / 4096))
      (String (chr (128 + (r / 64) mod 64)) (String (chr (128 + r mod 64)) ""))
  else
    String (chr (240 + r / 262144))
      (String (chr (128 + (r / 4096) mod 64))
        (String (chr (128 + (r / 64) mod 64)) (String (chr (128 + r mod 64)) ""))).

Definition IsSurrogate (r : N) : bool := ((55296 <=? r) && (r <? 57344))%N.

(** utf16.DecodeRune *)
Definition utf16_DecodeRune (r1 r2 : N) : N :=
  if ((55296 <=? r1) && (r1 <? 56320) && (56320 <=? r2) && (r2 <? 57344))%N
  then ((r1 - 55296) * 1024 + (r2 - 56320) + 65536)%N
  else ReplacementChar.

Definition in_range (lo hi : N) (c : ascii) : bool :=
  ((lo <=? byte c) && (byte c <=? hi))%N.

(** The length in bytes of the well-formed UTF-8 sequence at the head of [s]
    whose first byte is not ASCII; 0 when there is none (utf8.DecodeRune then
    yields RuneError of width 1). *)
Definition utf8_len (s : string) : nat :=
  match s with
  | String c0 r =>
      let n := byte c0 in
      let two lo hi :=
        match r with
        | String c1 _ => if in_range lo hi c1 then 2 else 0
        | _ => 0
        end in
      let three lo hi :=
        match r with
        | String c1 (String c2 _) =>
            if (in_range lo hi c1 && in_range 128 191 c2)%bool then 3 else 0
        | _ => 0
        end in
      let four lo hi :=
        match r with
        | String c1 (String c2 (String c3 _)) =>
            if (in_range lo hi c1 && in_range 128 191 c2
                && in_range 128 191 c3)%bool then 4 else 0
        | _ => 0
        end in
      if ((194 <=? n) && (n <=? 223))%N then two 128%N 191%N
      else if (n =? 224)%N then three 160%N 191%N
      else if (n =? 237)%N then three 128%N 159%N
      else if ((225 <=? n) && (n <=? 239))%N then three 128%N 191%N
      else if (n =? 240)%N then four 144%N 191%N
      else if ((241 <=? n) && (n <=? 243))%N then four 128%N 191%N
      else if (n =? 244)%N then four 128%N 143%N
      else 0
  | EmptyString => 0
  end%nat.

(** The simple escapes: the character after the backslash. *)
Definition unescape (c : ascii) : option ascii :=
  match c with
  | "034"%char => Some "034"%char
  | "\"%char => Some "\"%char
  | "/"%char => Some "/"%char
  | "b"%char => Some "008"%char
  | "f"%char => Some "012"%char
  | "n"%char => Some "010"%char
  | "r"%char => Some "013"%char
  | "t"%char => Some "009"%char
  | _ => None
  end.

(** The rune written by a "\uXXXX" whose value is [rr], given what follows:
    a surrogate followed by a second "\u" that completes the pair consumes
    both, any other surrogate becomes U+FFFD. Returns the rune and whether
    the second escape was consumed. *)
Definition after_u (rr : N) (rest : string) : N * bool :=
  if IsSurrogate rr then
    match rest with
    | String "\"%char (String "u"%char
        (String e (String f (String g (String h _))))) =>
        match hex4 e f g h with
        | Some rr1 =>
            let dec := utf16_DecodeRune rr rr1 in
            if (dec =? ReplacementChar)%N then (ReplacementChar, false)
            else (dec, true)
        | None => (ReplacementChar, false)
        end
    | _ => (ReplacementChar, false)
    end
  else (rr, false).

(** The body of a string literal, after its opening quote: the unquoted text
    and what follows the closing quote. [pending] counts the continuation
    bytes of a well-formed UTF-8 sequence still to be copied. *)
Fixpoint scan_string (pending : nat) (s : string) : option (string * string) :=
  let cons (c : string) (k : option (string * string)) :=
    match k with
    | Some (t, r) => Some (c ++ t, r)
    | None => None
    end in
  match s with
  | EmptyString => None
  | String c r =>
      match pending with
      | S p => cons (String c "") (scan_string p r)
      | O =>
          if Ascii.eqb c "034" then Some ("", r)
          else if (byte c <? 32)%N then None
          else if Ascii.eqb c "\" then
            match r with
            | EmptyString => None
            | String x r0 =>
                if Ascii.eqb x "u" then
                  match r0 with
                  | String a (String b (String d (String e r1))) =>
                      match hex4 a b d e with
                      | None => None
                      | Some rr =>
                          match after_u rr r1 with
                          | (rune, false) =>
                              cons (EncodeRune rune) (scan_string 0 r1)
                          | (rune, true) =>
                              match r1 with
                              | String _ (String _ (String _ (String _
                                  (String _ (String _ r2))))) =>
                                  cons (EncodeRune rune) (scan_string 0 r2)
                              | _ => None
                              end
                          end
                      end
                  | _ => None
                  end
                else
                  match unescape x with
                  | Some y => cons (String y "") (scan_string 0 r0)
                  | None => None
                  end
            end
          else if (byte c <? 128)%N then cons (String c "") (scan_string 0 r)
          else
            match utf8_len s with
            | O => cons (EncodeRune ReplacementChar) (scan_string 0 r)
            | S p => cons (String c "") (scan_string p r)
            end
      end
  end.

(** *** Values *)

(** [strip p s]: what follows the prefix [p] of [s]. *)
Fixpoint strip (p s : string) : option string :=
  match p, s with
  | EmptyString, _ => Some s
  | String a p', String b s' => if Ascii.eqb a b then strip p' s' else None
  | String _ _, EmptyString => None
  end.

Definition starts (c : ascii) (s : string) : option string :=
  match s with
  | String b s' => if Ascii.eqb c b then Some s' else None
  | EmptyString => None
  end.

(** One JSON value at the head of [s], after optional white space, and the
    rest of the input. [fuel] bounds the nesting of the recursion. *)
Fixpoint parse_value (fuel : nat) (s : string) {struct fuel}
  : option (json * string) :=
  match fuel with
  | O => None
  | S fuel' =>
      let s := skip_space s in
      match strip "null" s, strip "true" s, strip "false" s with
      | Some r, _, _ => Some (JNull, r)
      | _, Some r, _ => Some (JBool true, r)
      | _, _, Some r => Some (JBool false, r)
      | None, None, None =>
          match starts "034" s, starts "[" s, starts "{" s with
          | Some r, _, _ =>
              match scan_string 0 r with
              | Some (t, r') => Some (JString t, r')
              | None => None
              end
          | _, Some r, _ =>
              match starts "]" (skip_space r) with
              | Some r' => Some (JArray [], r')
              | None =>
                  match parse_elements fuel' r with
                  | Some (vs, r') => Some (JArray vs, r')
                  | None => None
                  end
              end
          | _, _, Some r =>
              match starts "}" (skip_space r) with
              | Some r' => Some (JObject [], r')
              | None =>
                  match parse_members fuel' r with
                  | Some (ms, r') => Some (JObject ms, r')
                  | None => None
                  end
              end
          | None, None, None =>
              match scan_number s with
              | Some (n, r) => Some (JNumber n, r)
              | None => None
              end
          end
      end
  end

with parse_elements (fuel : nat) (s : string) {struct fuel}
  : option (list json * string) :=
  match fuel with
  | O => None
  | S fuel' =>
      match parse_value fuel' s with
      | None => None
      | Some (v, r) =>
          let r := skip_space r in
          match starts "," r, starts "]" r with
          | Some r', _ =>
              match parse_elements fuel' r' with
              | Some (vs, r'') => Some (v :: vs, r'')
              | None => None
              end
          | _, Some r' => Some ([v], r')
          | None, None => None
          end
      end
  end

with parse_members (fuel : nat) (s : string) {struct fuel}
  : option (list (string * json) * string) :=
  match fuel with
  | O => None
  | S fuel' =>
      match starts "034" (skip_space s) with
      | None => None
      | Some r =>
          match scan_string 0 r with
          | None => None
          | Some (k, r1) =>
              match starts ":" (skip_space r1) with
              | None => None
              | Some r2 =>
                  match parse_value fuel' r2 with
                  | None => None
                  | Some (v, r3) =>
                      let r3 := skip_space r3 in
                      match starts "," r3, starts "}" r3 with
                      | Some r4, _ =>
                          match parse_members fuel' r4 with
                          | Some (ms, r5) => Some ((k, v) :: ms, r5)
                          | None => None
                          end
                      | _, Some r4 => Some ([(k, v)], r4)
                      | None, None => None
                      end
                  end
              end
          end
      end
  end.

(** The whole input is one JSON value, white space around it allowed. Twice
    the length is fuel enough: more fuel reads the same (lemma
    [parse_fuel_enough]). *)
Definition parse (data : string) : option json :=
  match parse_value (2 * String.length data + 2) data with
  | Some (v, r) =>
      match skip_space r with
      | EmptyString => Some v
      | _ => None
      end
  | None => None
  end.

(** *** Decoding into a struct of *string fields *)

(** UnmarshalTypeError.Value for a JSON value that is not null. *)
Definition kind_of (j : json) : string :=
  match j with
  | JNull => "null"
  | JBool _ => "bool"
  | JNumber _ => "number"
  | JString _ => "string"
  | JArray _ => "array"
  | JObject _ => "object"
  end.

Definition upper (c : ascii) : ascii :=
  if in_range 97 122 c then chr (byte c - 32) else c.

(** Whether the object key [key] selects the field of JSON name [name] (an
    ASCII name): equality under Unicode simple case folding, which besides
    the two cases of a letter lets U+017F stand for s and U+212A for k. *)
Fixpoint foldEq (name key : string) : bool :=
  match name, key with
  | EmptyString, EmptyString => true
  | String c name', String k key' =>
      if Ascii.eqb (upper c) (upper k) then foldEq name' key'
      else if Ascii.eqb (upper c) "S" then
        match key with
        | String "197"%char (String "191"%char key'') => foldEq name' key''
        | _ => false
        end
      else if Ascii.eqb (upper c) "K" then
        match key with
        | String "226"%char (String "132"%char (String "170"%char key'')) =>
            foldEq name' key''
        | _ => false
        end
      else false
  | _, _ => false
  end.

Definition first_error (a b : option error) : option error :=
  match a with
  | Some _ => a
  | None => b
  end.

(** A JSON value stored into a field of type *string that holds [old]: null
    makes it nil, a string is stored behind a fresh or the old pointer, any
    other value leaves a pointer to the old text (or to a fresh empty string)
    and is reported. *)
Definition store_string (struct_ field : string) (old : option string)
  (j : json) : option string * option error :=
  match j with
  | JNull => (None, None)
  | JString t => (Some t, None)
  | _ =>
      (Some (match old with Some t => t | None => "" end),
       Some (UnmarshalTypeError (kind_of j) "string" struct_ field))
  end.

(** The members of an object, in order, each stored by [store]; the first
    error is the one kept, decoding goes on after it. *)
Fixpoint decode_members {T : Type}
  (store : T -> string -> json -> T * option error)
  (ms : list (string * json)) (acc : T) : T * option error :=
  match ms with
  | [] => (acc, None)
  | (k, v) :: ms' =>
      let (acc1, e1) := store acc k v in
      let (acc2, e2) := decode_members store ms' acc1 in
      (acc2, first_error e1 e2)
  end.

Section Unmarshal.
Context {rt : Runtime}.

(** json.Unmarshal(data, &p) with p a nil *T, T a struct: the new p and the
    error. Input that is not JSON leaves p nil; null sets it to nil; an
    object allocates the struct and fills it; any other value allocates the
    struct and is reported. *)
Definition Unmarshal_struct {T : Type} (zero : T)
  (store : T -> string -> json -> T * option error) (type_ : string)
  (data : string) : option T * option error :=
  match parse data with
  | None => (None, Some (SyntaxError (json_syntax_msg data)))
  | Some JNull => (None, None)
  | Some (JObject ms) =>
      let (v, e) := decode_members store ms zero in (Some v, e)
  | Some j => (Some zero, Some (UnmarshalTypeError (kind_of j) type_ "" ""))
  end.

(** The fields of Script by their json tags; [client] is not exported. *)
Definition store_Script (s : Script) (key : string) (v : json)
  : Script * option error :=
  if foldEq "name" key then
    let (p, e) := store_string "Script" "name" (Name s) v in
    (mkScript p (Content s) (Type_ s) (client s), e)
  else if foldEq "content" key then
    let (p, e) := store_string "Script" "content" (Content s) v in
    (mkScript (Name s) p (Type_ s) (client s), e)
  else if foldEq "type" key then
    let (p, e) := store_string "Script" "type" (Type_ s) v in
    (mkScript (Name s) (Content s) p (client s), e)
  else (s, None).

Definition Unmarshal_Script : string -> option Script * option error :=
  Unmarshal_struct (mkScript None None None None) store_Script "nexus.Script".

(** The fields of ExecuteScriptResponse by their json tags. *)
Definition store_ExecuteScriptResponse (r : ExecuteScriptResponse)
  (key : string) (v : json) : ExecuteScriptResponse * option error :=
  if foldEq "name" key then
    let (p, e) := store_string "ExecuteScriptResponse" "name" (esrName r) v in
    (mkExecuteScriptResponse p (Result r), e)
  else if foldEq "result" key then
    let (p, e) := store_string "ExecuteScriptResponse" "result" (Result r) v in
    (mkExecuteScriptResponse (esrName r) p, e)
  else (r, None).

Definition Unmarshal_ExecuteScriptResponse
  : string -> option ExecuteScriptResponse * option error :=
  Unmarshal_struct (mkExecuteScriptResponse None None)
    store_ExecuteScriptResponse "nexus.ExecuteScriptResponse".

End Unmarshal.

End JSON.

Arguments JSON.Unmarshal_Script : simpl never.
Arguments JSON.Unmarshal_ExecuteScriptResponse : simpl never.

(** ** Transport (client.go) *)

Section Client.
Context {rt : Runtime}.

(** func String(nonPtr string) *string *)
Definition String_ (nonPtr : string) : option string := Some nonPtr.

(** n.client.Do(req): the round trip, entered in the history. *)
Definition roundTrip (req : Request) : M (Response + error) :=
  fun w => let (r, w1) := client_Do req w in (Done r, w1, [Sent req]).

(** func (n *Nexus) NewRequest(method, endpoint, args, body, contentType) *)
Definition NewRequest (n : option Nexus) (method endpoint : string)
  (args : option (list (string * string))) (body : option string)
  (contentType : string) : M (option Request * option error) :=
  let contentType :=
    if String.eqb contentType "" then "application/json" else contentType in
  n <- deref n ;;
  let raw := host n ++ "/" ++ endpoint in
  match url_Parse raw with
  | Some err => ret (None, Some err)
  | None =>
      match http_NewRequest method (url_String raw args) with
      | Some err => ret (None, Some err)
      | None =>
          ret (Some (mkRequest method raw args body contentType
                       (username n, password n)), None)
      end
  end.

(** statusMap[code] *)
Fixpoint lookup (code : Z) (m : list (Z * string)) : option string :=
  match m with
  | [] => None
  | (k, v) :: m' => if (k =? code)%Z then Some v else lookup code m'
  end.

(** The "%v" of an int. *)
Definition itoa (z : Z) : string := NilZero.string_of_int (Z.to_int z).

(** func (n *Nexus) Do(req, statusMap, resToErr) (body []byte, err error) *)
Definition Do (n : option Nexus) (req : option Request)
  (statusMap : option (list (Z * string))) (resToErr : bool)
  : M (option string * option error) :=
  _ <- deref n ;;
  req <- deref req ;;
  r <- roundTrip req ;;
  match r with
  | inr err => ret (None, Some err)
  | inl resp =>
      if (StatusCode resp >=? 300)%Z then
        if resToErr then ret (None, Some (errorString (respBody resp)))
        else
          let belt :=
            errorString (reqMethod req ++ " "
                         ++ url_String (reqURL req) (reqArgs req)
                         ++ " returned a status code of "
                         ++ itoa (StatusCode resp)) in
          match statusMap with
          | Some m =>
              match lookup (StatusCode resp) m with
              | Some status =>
                  ret (None, Some (errorString (fmt_Sprintf0 status)))
              | None => ret (None, Some belt)
              end
          | None => ret (None, Some belt)
          end
      else ret (Some (respBody resp), respReadErr resp)
  end.

(** The text of a []byte, nil or not. *)
Definition bytes (b : option string) : string :=
  match b with
  | Some t => t
  | None => ""
  end.

End Client.

(** ** The script registry, the bridge and the ephemeral invoker *)

Section Scripts.
Context {rt : Runtime}.

(** var ScriptTypeGroovy = String("groovy") *)
Definition ScriptTypeGroovy : option string := String_ "groovy".

(** type EphemeralScript struct { *Script } *)
Record EphemeralScript : Type := mkEphemeralScript {
  esScript : option Script
}.

Definition with_client (s : Script) (n : option Nexus) : Script :=
  mkScript (Name s) (Content s) (Type_ s) n.

(** func (n *Nexus) GetScript(name string) (script *Script, err error) *)
Definition GetScript (n : option Nexus) (name : string)
  : M (option Script * option error) :=
  emit (Called (OpGet name)) ;;;
  let url := "service/rest/v1/script/" ++ name in
  '(req, err) <- NewRequest n "GET" url None None "" ;;
  match err with
  | Some _ => ret (None, err)
  | None =>
      '(body, err) <- Do n req
          (Some [(404%Z, "Script " ++ name ++ " does not exist")]) false ;;
      match err with
      | Some _ => ret (None, err)
      | None =>
          let (script, err) := JSON.Unmarshal_Script (bytes body) in
          match err with
          | Some _ => ret (script, err)
          | None =>
              s <- deref script ;;
              ret (Some (with_client s n), None)
          end
      end
  end.

(** func marshalScriptArgs(args interface{}) (payload []byte, err error) *)
Definition marshalScriptArgs (args : option Arg)
  : option string * option error :=
  match args with
  | None => (None, None)
  | Some a =>
      match json_Marshal_Arg a with
      | inl payload => (Some payload, None)
      | inr err => (None, Some err)
      end
  end.

(** func (n *Nexus) ExecuteScript(name string, args interface{})
      (res *ExecuteScriptResponse, err error) *)
Definition ExecuteScript (n : option Nexus) (name : string)
  (args : option Arg) : M (option ExecuteScriptResponse * option error) :=
  emit (Called (OpExecute name args)) ;;;
  let (payload, err) := marshalScriptArgs args in
  match err with
  | Some _ => ret (None, err)
  | None =>
      let url := "service/rest/v1/script/" ++ name ++ "/run" in
      '(req, err) <- NewRequest n "POST" url None payload "text/plain" ;;
      match err with
      | Some _ => ret (None, err)
      | None =>
          '(body, err) <- Do n req None true ;;
          match err with
          | Some e =>
              let (res, err) :=
                JSON.Unmarshal_ExecuteScriptResponse (Error e) in
              match err with
              | Some _ => ret (res, err)
              | None =>
                  r <- deref res ;;
                  text <- deref (Result r) ;;
                  ret (res, Some (errorString text))
              end
          | None =>
              let (res, err) :=
                JSON.Unmarshal_ExecuteScriptResponse (bytes body) in
              ret (res, err)
          end
      end
  end.

(** func (n *Nexus) DeleteScript(name string) (err error) *)
Definition DeleteScript (n : option Nexus) (name : string)
  : M (option error) :=
  emit (Called (OpDelete name)) ;;;
  let url := "service/rest/v1/script/" ++ name in
  '(req, err) <- NewRequest n "DELETE" url None None "" ;;
  match err with
  | Some _ => ret err
  | None =>
      '(_, err) <- Do n req
          (Some [(404%Z, "Script " ++ name ++ " does not exist")]) false ;;
      ret err
  end.

(** The error of GetScript on a 404: the script does not exist. *)
Definition scriptNotFound (name : string) : error :=
  errorString (fmt_Sprintf0 ("Script " ++ name ++ " does not exist")).

(** The request that ExecuteScript builds for [name] and [payload]. *)
Definition executeURL (n : Nexus) (name : string) : string :=
  host n ++ "/" ++ "service/rest/v1/script/" ++ name ++ "/run".

Definition executeRequest (n : Nexus) (name : string)
  (payload : option string) : Request :=
  mkRequest "POST" (executeURL n name) None payload "text/plain"
    (username n, password n).

(** The request that CreateScript builds for [payload]. *)
Definition createURL (n : Nexus) : string :=
  host n ++ "/" ++ "service/rest/v1/script".

Definition createRequest (n : Nexus) (payload : string) : Request :=
  mkRequest "POST" (createURL n) None (Some payload) "application/json"
    (username n, password n).

Definition must_contain : error :=
  errorString "Script instance must contain a name and content".

(** func (n *Nexus) CreateScript(script *Script)
      (boundScript *Script, err error) *)
Definition CreateScript (n : option Nexus) (script : option Script)
  : M (option Script * option error) :=
  emit (Called (OpCreate script)) ;;;
  s <- deref script ;;
  match Name s, Content s with
  | Some name, Some _ =>
      match json_Marshal_Script s with
      | inr err => ret (None, Some err)
      | inl payload =>
          '(req, err) <- NewRequest n "POST" "service/rest/v1/script" None
                           (Some payload) "" ;;
          match err with
          | Some _ => ret (None, err)
          | None =>
              '(_, err) <- Do n req
                  (Some [(500%Z, "Script with name " ++ name
                            ++ " already exists, use UpdateScript instead")])
                  false ;;
              match err with
              | Some _ => ret (None, err)
              | None => ret (Some (with_client s n), None)
              end
          end
      end
  | _, _ => ret (None, Some must_contain)
  end.

(** func (n *Nexus) UpdateScript(script *Script)
      (boundScript *Script, err error) *)
Definition UpdateScript (n : option Nexus) (script : option Script)
  : M (option Script * option error) :=
  emit (Called (OpUpdate script)) ;;;
  s <- deref script ;;
  match Name s, Content s with
  | Some name, Some _ =>
      match json_Marshal_Script s with
      | inr err => ret (None, Some err)
      | inl payload =>
          let url := "service/rest/v1/script/" ++ name in
          '(req, err) <- NewRequest n "PUT" url None (Some payload) "" ;;
          match err with
          | Some _ => ret (None, err)
          | None =>
              '(_, err) <- Do n req
                  (Some [(404%Z, "Script with name " ++ name
                            ++ " doesn't exist")])
                  false ;;
              match err with
              | Some _ => ret (None, err)
              | None => ret (Some (with_client s n), None)
              end
          end
      end
  | _, _ => ret (None, Some must_contain)
  end.

(** func (s *Script) Execute(args interface{}) *)
Definition Script_Execute (s : option Script) (args : option Arg)
  : M (option ExecuteScriptResponse * option error) :=
  s <- deref s ;;
  name <- deref (Name s) ;;
  ExecuteScript (client s) name args.

(** func (s *Script) Delete() (err error) *)
Definition Script_Delete (s : option Script) : M (option error) :=
  s <- deref s ;;
  name <- deref (Name s) ;;
  DeleteScript (client s) name.

(** The Script literal that ensureAndExecute passes to CreateScript and to
    UpdateScript: &Script{Name: s.Name, Type: s.Type, Content: s.Content}. *)
Definition desired (s : Script) : option Script :=
  Some (mkScript (Name s) (Content s) (Type_ s) None).

(** Lines 147-158 of ensureAndExecute: compare, update on a difference,
    execute. *)
Definition compareAndExecute (s : Script) (script : option Script)
  (args : option Arg) : M (option ExecuteScriptResponse * option error) :=
  remote <- deref script ;;
  rc <- deref (Content remote) ;;
  dc <- deref (Content s) ;;
  if negb (String.eqb rc dc) then
    '(script, err) <- UpdateScript (client s) (desired s) ;;
    match err with
    | Some _ => ret (None, err)
    | None => Script_Execute script args
    end
  else Script_Execute script args.

(** func (s *Script) ensureAndExecute(args interface{}) *)
Definition ensureAndExecute (s : option Script) (args : option Arg)
  : M (option ExecuteScriptResponse * option error) :=
  s <- deref s ;;
  name <- deref (Name s) ;;
  '(script, err) <- GetScript (client s) name ;;
  match err with
  | Some _ =>
      '(script, err) <- CreateScript (client s) (desired s) ;;
      match err with
      | Some _ => ret (None, err)
      | None => compareAndExecute s script args
      end
  | None => compareAndExecute s script args
  end.

(** func (n *Nexus) NewEphemeralScript(script *Script) *)
Definition NewEphemeralScript (n : option Nexus) (script : option Script)
  : M EphemeralScript :=
  s <- deref script ;;
  ret (mkEphemeralScript (Some (with_client s n))).

(** func (s *EphemeralScript) Execute(args interface{}) *)
Definition EphemeralScript_Execute (s : EphemeralScript) (args : option Arg)
  : M (option ExecuteScriptResponse * option error) :=
  sc <- deref (esScript s) ;;
  name <- lift uuid_New ;;
  '(script, err) <- CreateScript (client sc)
      (Some (mkScript (String_ name) (Content sc) ScriptTypeGroovy None)) ;;
  match err with
  | Some _ => ret (None, err)
  | None => defer_ (Script_Delete script) (Script_Execute script args)
  end.

End Scripts.

(** ** Listings, page by page (assets.go, components.go) *)

Section Listings.
Context {rt : Runtime}.

Definition asset_with_client (a : Asset) (n : option Nexus) : Asset :=
  mkAsset (DownloadURL a) (Path a) (assetID a) (assetRepository a)
    (assetFormat a) (Checksum a) n.

(** for _, x := range items { x.client = n } *)
Fixpoint bindAssets (n : option Nexus) (items : list (option Asset))
  : M (list (option Asset)) :=
  match items with
  | [] => ret []
  | x :: xs =>
      a <- deref x ;;
      rest <- bindAssets n xs ;;
      ret (Some (asset_with_client a n) :: rest)
  end.

(** The query map of a listing request. *)
Definition listArgs (repository : string) (token : option string)
  : list (string * string) :=
  match token with
  | Some t => [("repository", repository); ("continuationToken", t)]
  | None => [("repository", repository)]
  end.

(** func (n *Nexus) newListAssetsReq(input *ListAssetsInput) *)
Definition newListAssetsReq (n : option Nexus) (input : option ListAssetsInput)
  : M (option Request * option error) :=
  i <- deref input ;;
  repository <- deref (laiRepository i) ;;
  NewRequest n "GET" "service/rest/v1/assets"
    (Some (listArgs repository (laiContinuationToken i))) None "".

(** func (n *Nexus) ListAssets(input *ListAssetsInput)
      (res *ListAssetsResponse, err error) *)
Definition ListAssets (n : option Nexus) (input : option ListAssetsInput)
  : M (option ListAssetsResponse * option error) :=
  emit (Called (OpListAssets input)) ;;;
  i <- deref input ;;
  match laiRepository i with
  | None =>
      ret (None, Some (errorString "Repository is required for ListAssets"))
  | Some repository =>
      '(req, err) <- newListAssetsReq n input ;;
      match err with
      | Some _ => ret (None, err)
      | None =>
          '(body, err) <- Do n req
              (Some [(403%Z, "Insufficient permissions to list assets in "
                               ++ repository);
                     (404%Z, "Repository " ++ repository
                               ++ " does not exist")])
              false ;;
          match err with
          | Some _ => ret (None, err)
          | None =>
              let (res, err) :=
                json_Unmarshal_ListAssetsResponse (bytes body) in
              match err with
              | Some _ => ret (res, err)
              | None =>
                  r <- deref res ;;
                  items <- bindAssets n (larItems r) ;;
                  ret (Some (mkListAssetsResponse items
                               (larContinuationToken r)), None)
              end
          end
      end
  end.

(** The callback of ListAssetsPages. It is handed the page by pointer, so
    besides (cont, err) it yields the page as it has left it; it acts on the
    world, and is taken to leave the caller's input record alone. *)
Definition AssetsCallback : Type :=
  ListAssetsResponse -> bool -> World ->
  (ListAssetsResponse * bool * option error) * World.

(** cb(res, last), entered in the history. *)
Definition callAssets (cb : AssetsCallback) (res : ListAssetsResponse)
  (last : bool) : M (ListAssetsResponse * bool * option error) :=
  emit (HandledAssets res last) ;;;
  lift (cb res last).

(** func (n *Nexus) ListAssetsPages(input *ListAssetsInput, cb func(...)) error
    The source recurses without a bound; [fuel] is the number of pages the
    model is willing to fetch. *)
Fixpoint ListAssetsPages (fuel : nat) (n : option Nexus)
  (input : option ListAssetsInput) (cb : AssetsCallback) : M (option error) :=
  match fuel with
  | O => out_of_fuel
  | S fuel' =>
      '(res, err) <- ListAssets n input ;;
      match err with
      | Some _ => ret err
      | None =>
          r <- deref res ;;
          match larContinuationToken r with
          | None =>
              '(_, _, err) <- callAssets cb r true ;;
              ret err
          | Some _ =>
              '(r', cont, err) <- callAssets cb r false ;;
              match err with
              | Some _ => ret err
              | None =>
                  if negb cont then ret None
                  else
                    i <- deref input ;;
                    let newInput :=
                      mkListAssetsInput (laiRepository i)
                        (larContinuationToken r') in
                    ListAssetsPages fuel' n (Some newInput) cb
              end
          end
      end
  end.

Definition component_with_client (c : Component) (assets : list (option Asset))
  (n : option Nexus) : Component :=
  mkComponent (compID c) (compRepository c) (compFormat c) (compGroup c)
    (compName c) (compVersion c) assets n.

(** for _, x := range items { x.client = n; for _, y := range x.Assets {...} } *)
Fixpoint bindComponents (n : option Nexus) (items : list (option Component))
  : M (list (option Component)) :=
  match items with
  | [] => ret []
  | x :: xs =>
      c <- deref x ;;
      assets <- bindAssets n (compAssets c) ;;
      rest <- bindComponents n xs ;;
      ret (Some (component_with_client c assets n) :: rest)
  end.

(** func (n *Nexus) newListComponentsReq(input *ListComponentsInput) *)
Definition newListComponentsReq (n : option Nexus)
  (input : option ListComponentsInput) : M (option Request * option error) :=
  i <- deref input ;;
  repository <- deref (lciRepository i) ;;
  NewRequest n "GET" "service/rest/v1/components"
    (Some (listArgs repository (lciContinuationToken i))) None "".

(** func (n *Nexus) ListComponents(input *ListComponentsInput)
      (res *ListComponentsResponse, err error) *)
Definition ListComponents (n : option Nexus)
  (input : option ListComponentsInput)
  : M (option ListComponentsResponse * option error) :=
  emit (Called (OpListComponents input)) ;;;
  i <- deref input ;;
  match lciRepository i with
  | None =>
      ret (None,
           Some (errorString "Repository is required for ListComponents"))
  | Some repository =>
      '(req, err) <- newListComponentsReq n input ;;
      match err with
      | Some _ => ret (None, err)
      | None =>
          '(body, err) <- Do n req
              (Some [(403%Z, "Insufficient permissions to list components in "
                               ++ repository);
                     (404%Z, "Repository " ++ repository
                               ++ " does not exist")])
              false ;;
          match err with
          | Some _ => ret (None, err)
          | None =>
              let (res, err) :=
                json_Unmarshal_ListComponentsResponse (bytes body) in
              match err with
              | Some _ => ret (res, err)
              | None =>
                  r <- deref res ;;
                  items <- bindComponents n (lcrItems r) ;;
                  ret (Some (mkListComponentsResponse items
                               (lcrContinuationToken r)), None)
              end
          end
      end
  end.

(** The callback of ListComponentsPages, as [AssetsCallback]. *)
Definition ComponentsCallback : Type :=
  ListComponentsResponse -> bool -> World ->
  (ListComponentsResponse * bool * option error) * World.

Definition callComponents (cb : ComponentsCallback)
  (res : ListComponentsResponse) (last : bool)
  : M (ListComponentsResponse * bool * option error) :=
  emit (HandledComponents res last) ;;;
  lift (cb res last).

(** func (n *Nexus) ListComponentsPages(input, cb) error *)
Fixpoint ListComponentsPages (fuel : nat) (n : option Nexus)
  (input : option ListComponentsInput) (cb : ComponentsCallback)
  : M (option error) :=
  match fuel with
  | O => out_of_fuel
  | S fuel' =>
      '(res, err) <- ListComponents n input ;;
      match err with
      | Some _ => ret err
      | None =>
          r <- deref res ;;
          match lcrContinuationToken r with
          | None =>
              '(_, _, err) <- callComponents cb r true ;;
              ret err
          | Some _ =>
              '(r', cont, err) <- callComponents cb r false ;;
              match err with
              | Some _ => ret err
              | None =>
                  if negb cont then ret None
                  else
                    i <- deref input ;;
                    let newInput :=
                      mkListComponentsInput (lciRepository i)
                        (lcrContinuationToken r') in
                    ListComponentsPages fuel' n (Some newInput) cb
              end
          end
      end
  end.

(** A page sequence with the flag each page is handed over with: true on
    the final one only. *)
Fixpoint flagged {A : Type} (pages : list A) : list (A * bool) :=
  match pages with
  | [] => []
  | [p] => [(p, true)]
  | p :: rest => (p, false) :: flagged rest
  end.

(** The server answers the walk that starts with [input] in world [w] by
    the pages [pages], of which exactly the last has no continuation token,
    and the callback answers every page with cont = true and no error; [w']
    is the world after the last callback. Each request after the first is
    the one with the token of the page before, as the callback left it. *)
Fixpoint AssetsWalk (n : option Nexus) (cb : AssetsCallback)
  (input : ListAssetsInput) (w : World) (pages : list ListAssetsResponse)
  (w' : World) : Prop :=
  match pages with
  | [] => False
  | p :: rest =>
      exists w1 h1 p' w2,
        ListAssets n (Some input) w = (Done (Some p, None), w1, h1)
        /\ match rest with
           | [] =>
               larContinuationToken p = None
               /\ cb p true w1 = ((p', true, None), w2) /\ w2 = w'
           | _ :: _ =>
               larContinuationToken p <> None
               /\ cb p false w1 = ((p', true, None), w2)
               /\ AssetsWalk n cb
                    (mkListAssetsInput (laiRepository input)
                       (larContinuationToken p')) w2 rest w'
           end
  end.

Fixpoint ComponentsWalk (n : option Nexus) (cb : ComponentsCallback)
  (input : ListComponentsInput) (w : World)
  (pages : list ListComponentsResponse) (w' : World) : Prop :=
  match pages with
  | [] => False
  | p :: rest =>
      exists w1 h1 p' w2,
        ListComponents n (Some input) w = (Done (Some p, None), w1, h1)
        /\ match rest with
           | [] =>
               lcrContinuationToken p = None
               /\ cb p true w1 = ((p', true, None), w2) /\ w2 = w'
           | _ :: _ =>
               lcrContinuationToken p <> None
               /\ cb p false w1 = ((p', true, None), w2)
               /\ ComponentsWalk n cb
                    (mkListComponentsInput (lciRepository input)
                       (lcrContinuationToken p')) w2 rest w'
           end
  end.

End Listings.

(** ** Reading a history *)

Section History.
Context {rt : Runtime}.

(** The operations entered, in order. *)
Fixpoint calls (h : list Event) : list Op :=
  match h with
  | [] => []
  | Called op :: h' => op :: calls h'
  | _ :: h' => calls h'
  end.

(** The HTTP requests sent, in order. *)
Fixpoint sent (h : list Event) : list Request :=
  match h with
  | [] => []
  | Sent req :: h' => req :: sent h'
  | _ :: h' => sent h'
  end.

(** The pages handed to the callback with the flag they came with. *)
Fixpoint handledAssets (h : list Event) : list (ListAssetsResponse * bool) :=
  match h with
  | [] => []
  | HandledAssets res last :: h' => (res, last) :: handledAssets h'
  | _ :: h' => handledAssets h'
  end.

Fixpoint handledComponents (h : list Event)
  : list (ListComponentsResponse * bool) :=
  match h with
  | [] => []
  | HandledComponents res last :: h' => (res, last) :: handledComponents h'
  | _ :: h' => handledComponents h'
  end.

Definition is_create (op : Op) : bool :=
  match op with OpCreate _ => true | _ => false end.
Definition is_update (op : Op) : bool :=
  match op with OpUpdate _ => true | _ => false end.
Definition is_execute (op : Op) : bool :=
  match op with OpExecute _ _ => true | _ => false end.
Definition is_delete (op : Op) : bool :=
  match op with OpDelete _ => true | _ => false end.
Definition is_fetch (op : Op) : bool :=
  match op with
  | OpListAssets _ | OpListComponents _ => true
  | _ => false
  end.

(** How many of the operations called satisfy [p]. *)
Definition count (p : Op -> bool) (h : list Event) : nat :=
  List.length (List.filter p (calls h)).

(** The orders of calls the bridge can make: get; then create or update, or
    neither; then execute; a run may end after any of them. *)
Definition bridge_order (cs : list Op) : bool :=
  match cs with
  | [] => true
  | OpGet _ :: rest =>
      match rest with
      | [] => true
      | [OpCreate _] | [OpUpdate _] | [OpExecute _ _] => true
      | [OpCreate _; OpExecute _ _] | [OpUpdate _; OpExecute _ _] => true
      | _ => false
      end
  | _ => false
  end.

(** What can follow the get or the create: an update or none, then execute. *)
Definition reconcile_order (cs : list Op) : bool :=
  match cs with
  | [] | [OpExecute _ _] | [OpUpdate _] | [OpUpdate _; OpExecute _ _] => true
  | _ => false
  end.

Definition execute_order (cs : list Op) : bool :=
  match cs with
  | [] | [OpExecute _ _] => true
  | _ => false
  end.

(** The orders of calls the ephemeral invoker can make: create alone, or
    create, execute, delete. *)
Definition ephemeral_order (cs : list Op) : bool :=
  match cs with
  | [] => true
  | [OpCreate _] => true
  | [OpCreate _; OpExecute _ _; OpDelete _] => true
  | _ => false
  end.

(** The three components of a run. *)
Definition outcome {A} (r : Outcome A * World * list Event) : Outcome A :=
  fst (fst r).
Definition world {A} (r : Outcome A * World * list Event) : World :=
  snd (fst r).
Definition history {A} (r : Outcome A * World * list Event) : list Event :=
  snd r.




End History.

(** ** A scripted server, for concrete runs

    The world is the list of replies the server will give, in order, and the
    items the caller's callback has gathered so far. The library functions
    are stand-ins: every URL parses, a format without operands prints as it
    is, a Script marshals to an object of its three fields without escapes,
    and a listing page is read for the id of its items and its token. *)
Module Demo.

Record DemoWorld : Type := mkWorld {
  replies : list (Response + error);
  gathered : list string
}.

Definition demo_Do (req : Request) (w : DemoWorld)
  : (Response + error) * DemoWorld :=
  match replies w with
  | r :: rest => (r, mkWorld rest (gathered w))
  | [] => (inr (externalError "connection refused"), w)
  end.

Definition quote (p : option string) : string :=
  match p with
  | Some t => String "034" (t ++ String "034" EmptyString)
  | None => "null"
  end.

Definition demo_Marshal_Script (s : Script) : string + error :=
  inl (jq "{'name':" ++ quote (Name s) ++ jq ",'content':"
       ++ quote (Content s) ++ jq ",'type':" ++ quote (Type_ s) ++ "}").

Fixpoint member (key : string) (ms : list (string * JSON.json))
  : option JSON.json :=
  match ms with
  | [] => None
  | (k, v) :: ms' => if String.eqb k key then Some v else member key ms'
  end.

Definition text_of (j : option JSON.json) : option string :=
  match j with
  | Some (JSON.JString t) => Some t
  | _ => None
  end.

Definition demo_asset (j : JSON.json) : option Asset :=
  match j with
  | JSON.JObject ms =>
      Some (mkAsset None None (text_of (member "id" ms)) None None None None)
  | _ => None
  end.

Definition demo_component (j : JSON.json) : option Component :=
  match j with
  | JSON.JObject ms =>
      Some (mkComponent (text_of (member "id" ms)) None None None None None
              [] None)
  | _ => None
  end.

Definition demo_items {A} (f : JSON.json -> option A)
  (j : option JSON.json) : list (option A) :=
  match j with
  | Some (JSON.JArray vs) => List.map f vs
  | _ => []
  end.

Definition demo_Unmarshal_ListAssetsResponse (data : string)
  : option ListAssetsResponse * option error :=
  match JSON.parse data with
  | Some (JSON.JObject ms) =>
      (Some (mkListAssetsResponse (demo_items demo_asset (member "items" ms))
               (text_of (member "continuationToken" ms))), None)
  | Some JSON.JNull => (None, None)
  | _ => (None, Some (SyntaxError "not a page"))
  end.

Definition demo_Unmarshal_ListComponentsResponse (data : string)
  : option ListComponentsResponse * option error :=
  match JSON.parse data with
  | Some (JSON.JObject ms) =>
      (Some (mkListComponentsResponse
               (demo_items demo_component (member "items" ms))
               (text_of (member "continuationToken" ms))), None)
  | Some JSON.JNull => (None, None)
  | _ => (None, Some (SyntaxError "not a page"))
  end.

#[export] Instance demo : Runtime := {|
  World := DemoWorld;
  client_Do := demo_Do;
  uuid_New := fun w => ("6ba7b810-9dad-11d1-80b4-00c04fd430c8", w);
  url_Parse := fun _ => None;
  url_String := fun raw _ => raw;
  http_NewRequest := fun _ _ => None;
  fmt_Sprintf0 := fun format => format;
  json_Marshal_Script := demo_Marshal_Script;
  Arg := string;
  json_Marshal_Arg := fun a => inl a;
  json_syntax_msg := fun _ => "invalid character looking for beginning of value";
  json_Unmarshal_ListAssetsResponse := demo_Unmarshal_ListAssetsResponse;
  json_Unmarshal_ListComponentsResponse :=
    demo_Unmarshal_ListComponentsResponse
|}.

Definition nexus : option Nexus :=
  Some (mkNexus "http://localhost:8081" "admin" "admin123").

(** A reply with the given status and body, read without error. *)
Definition reply (status : Z) (body : string) : Response + error :=
  inl (mkResponse status body None).

Definition server (rs : list (Response + error)) : DemoWorld := mkWorld rs [].

(** The desired procedure of the scenario: p1 with body "return 1". *)
Definition p1 : Script :=
  mkScript (Some "p1") (Some "return 1") ScriptTypeGroovy nexus.

(** The callback of cmd/list_assets.go: gather the items, go on. *)
Definition gatherAssets : AssetsCallback :=
  fun res last w =>
    let ids := List.map (fun x => match x with
                                  | Some a => bytes (assetID a)
                                  | None => ""
                                  end) (larItems res) in
    ((res, true, None), mkWorld (replies w) (gathered w ++ ids)%list).

(** The callback of the components listing command, likewise. *)
Definition gatherComponents : ComponentsCallback :=
  fun res last w =>
    let ids := List.map (fun x => match x with
                                  | Some c => bytes (compID c)
                                  | None => ""
                                  end) (lcrItems res) in
    ((res, true, None), mkWorld (replies w) (gathered w ++ ids)%list).

(** A callback that stops at once. *)
Definition stopAssets : AssetsCallback :=
  fun res last w => ((res, false, None), w).

(** The error body of the scenario, and a script as the server stores it. *)
Definition boom : string := jq "{'name':'x','result':'boom'}".
Definition stored (content : string) : string :=
  jq "{'name':'p1','content':'" ++ content ++ jq "','type':'groovy'}".
Definition one : string := jq "{'name':'p1','result':'1'}".

Definition demoAsset (id : string) : option Asset :=
  Some (mkAsset None None (Some id) None None None nexus).
Definition demoComponent (id : string) : option Component :=
  Some (mkComponent (Some id) None None None None None [] nexus).

(** The two pages of the scenario, as decoded and bound to the client. *)
Definition assetsPages : list ListAssetsResponse :=
  [mkListAssetsResponse [demoAsset "a"; demoAsset "b"] (Some "tok1");
   mkListAssetsResponse [demoAsset "c"] None].
Definition componentsPages : list ListComponentsResponse :=
  [mkListComponentsResponse [demoComponent "a"; demoComponent "b"]
     (Some "tok1");
   mkListComponentsResponse [demoComponent "c"] None].

Definition page1 : string :=
  jq "{'items':[{'id':'a'},{'id':'b'}],'continuationToken':'tok1'}".
Definition page2 : string :=
  jq "{'items':[{'id':'c'}]}".

End Demo.

(** * More of the package

    The rest of the script registry (ListScripts), the status check and the
    constructor of the client, the single-item operations on assets and
    components, the validation of an upload against the format of its
    repository, and the blob store operations that go through the bridge.
    These operations enter nothing but their round trips in the history. *)

(** ** Slices of flat structs (encoding/json)

    json.Unmarshal(data, &xs) for an empty or nil [xs] of type []*T, T a
    struct of *string fields: input that is not JSON and a value that is not
    an array leave the slice as it is, null empties it, an array gives one
    element per value, nil for null, a filled struct for an object, an empty
    struct and a report for any other value. *)
Module JSONSlice.
Import JSON.

Section Slices.
Context {rt : Runtime}.

Definition decode_elem {T : Type} (zero : T)
  (store : T -> string -> json -> T * option error) (type_ : string)
  (j : json) : option T * option error :=
  match j with
  | JNull => (None, None)
  | JObject ms => let (v, e) := decode_members store ms zero in (Some v, e)
  | _ => (Some zero, Some (UnmarshalTypeError (kind_of j) type_ "" ""))
  end.

Fixpoint decode_elems {T : Type} (zero : T)
  (store : T -> string -> json -> T * option error) (type_ : string)
  (js : list json) : list (option T) * option error :=
  match js with
  | [] => ([], None)
  | j :: js' =>
      let (x, e1) := decode_elem zero store type_ j in
      let (xs, e2) := decode_elems zero store type_ js' in
      (x :: xs, first_error e1 e2)
  end.

Definition Unmarshal_slice {T : Type} (zero : T)
  (store : T -> string -> json -> T * option error) (type_ : string)
  (data : string) : list (option T) * option error :=
  match parse data with
  | None => ([], Some (SyntaxError (json_syntax_msg data)))
  | Some JNull => ([], None)
  | Some (JArray js) => decode_elems zero store type_ js
  | Some j =>
      ([], Some (UnmarshalTypeError (kind_of j) ("[]*" ++ type_) "" ""))
  end.

Definition Unmarshal_Scripts : string -> list (option Script) * option error :=
  Unmarshal_slice (mkScript None None None None) store_Script "nexus.Script".

End Slices.

End JSONSlice.

Arguments JSONSlice.Unmarshal_Scripts : simpl never.

(** type Repository struct (repositories.go). *)
Record Repository : Type := mkRepository {
  repoName : option string;
  repoFormat : option string;
  repoType : option string;
  repoURL : option string
}.

(** type ListScriptsResponse struct. *)
Record ListScriptsResponse : Type := mkListScriptsResponse {
  Scripts : list (option Script)
}.

Section Registry.
Context {rt : Runtime}.

(** The fields of Repository by their json tags. *)
Definition store_Repository (r : Repository) (key : string) (v : JSON.json)
  : Repository * option error :=
  if JSON.foldEq "name" key then
    let (p, e) := JSON.store_string "Repository" "name" (repoName r) v in
    (mkRepository p (repoFormat r) (repoType r) (repoURL r), e)
  else if JSON.foldEq "format" key then
    let (p, e) := JSON.store_string "Repository" "format" (repoFormat r) v in
    (mkRepository (repoName r) p (repoType r) (repoURL r), e)
  else if JSON.foldEq "type" key then
    let (p, e) := JSON.store_string "Repository" "type" (repoType r) v in
    (mkRepository (repoName r) (repoFormat r) p (repoURL r), e)
  else if JSON.foldEq "url" key then
    let (p, e) := JSON.store_string "Repository" "url" (repoURL r) v in
    (mkRepository (repoName r) (repoFormat r) (repoType r) p, e)
  else (r, None).

Definition Unmarshal_Repositories
  : string -> list (option Repository) * option error :=
  JSONSlice.Unmarshal_slice (mkRepository None None None None)
    store_Repository "nexus.Repository".

(** func (n *Nexus) ListRepositories() (res []*Repository, err error) *)
Definition ListRepositories (n : option Nexus)
  : M (list (option Repository) * option error) :=
  '(req, err) <- NewRequest n "GET" "service/rest/v1/repositories" None None
                   "" ;;
  match err with
  | Some _ => ret ([], err)
  | None =>
      '(body, err) <- Do n req None false ;;
      match err with
      | Some _ => ret ([], err)
      | None => ret (Unmarshal_Repositories (bytes body))
      end
  end.

(** for _, x := range res.Scripts { x.client = n } *)
Fixpoint bindScripts (n : option Nexus) (xs : list (option Script))
  : M (list (option Script)) :=
  match xs with
  | [] => ret []
  | x :: xs' =>
      s <- deref x ;;
      rest <- bindScripts n xs' ;;
      ret (Some (with_client s n) :: rest)
  end.

(** func (n *Nexus) ListScripts() (res *ListScriptsResponse, err error) *)
Definition ListScripts (n : option Nexus)
  : M (option ListScriptsResponse * option error) :=
  let res := mkListScriptsResponse [] in
  '(req, err) <- NewRequest n "GET" "service/rest/v1/script" None None "" ;;
  match err with
  | Some _ => ret (Some res, err)
  | None =>
      '(body, err) <- Do n req None false ;;
      match err with
      | Some _ => ret (Some res, err)
      | None =>
          let (scripts, err) := JSONSlice.Unmarshal_Scripts (bytes body) in
          match err with
          | Some _ => ret (Some (mkListScriptsResponse scripts), err)
          | None =>
              bound <- bindScripts n scripts ;;
              ret (Some (mkListScriptsResponse bound), None)
          end
      end
  end.

Definition invalid_credentials : error :=
  errorString "Credentials are invalid or Nexus is unable to serve requests".

(** func (n *Nexus) Status() (err error) *)
Definition Status (n : option Nexus) : M (option error) :=
  '(req, err) <- NewRequest n "GET" "service/rest/v1/status" None None "" ;;
  match err with
  | Some _ => ret err
  | None =>
      _ <- deref n ;;
      req <- deref req ;;
      r <- roundTrip req ;;
      match r with
      | inr e => ret (Some e)
      | inl resp =>
          if (StatusCode resp =? 200)%Z then ret None
          else ret (Some invalid_credentials)
      end
  end.

(** func New(host string, username string, password string)
      (n *Nexus, err error) *)
Definition New (host username password : string)
  : M (option Nexus * option error) :=
  let n := Some (mkNexus host username password) in
  err <- Status n ;;
  ret (n, err).

End Registry.


(** ** Formats, uploads and blob stores: data *)

(** type ComponentField struct, type AssetField struct (formats.go): the
    same five fields. *)
Record FormatField : Type := mkFormatField {
  fieldName : option string;
  fieldType : option string;
  fieldDescription : option string;
  fieldOptional : option bool;
  fieldGroup : option string
}.

(** type Format struct. *)
Record Format : Type := mkFormat {
  formatName : option string;
  MultipleUpload : option bool;
  ComponentFields : list (option FormatField);
  AssetFields : list (option FormatField)
}.

(** The operating system's side of an upload: open files. *)
Class OS : Type := {
  File : Type  (* os.File *)
}.

(** type UploadComponentAsset struct; a map[string]string is an association
    list. *)
Record UploadComponentAsset {os : OS} : Type := mkUploadComponentAsset {
  uaFile : option File;
  AssetConfig : option (list (string * string))
}.

(** type UploadComponentInput struct. *)
Record UploadComponentInput {os : OS} : Type := mkUploadComponentInput {
  uciRepository : option string;
  ComponentType : option string;
  ComponentConfig : option (list (string * string));
  uciAssets : list (option UploadComponentAsset)
}.

(** type GetAssetInput, DeleteAssetInput, GetComponentInput,
    DeleteComponentInput struct: an ID. *)
Record IDInput : Type := mkIDInput {
  inputID : option string
}.

(** type BlobDir struct (blobstores.go). *)
Record BlobDir : Type := mkBlobDir {
  Absolute : option bool;
  PathForPermissionCheck : option string;
  NameCount : option Z;
  PathForExceptionMessage : option string;
  Empty : option bool
}.

(** type Metrics struct. *)
Record Metrics : Type := mkMetrics {
  Unlimited : option bool
}.

(** type BlobIDStream struct. *)
Record BlobIDStream : Type := mkBlobIDStream {
  Parallel : option bool;
  StreamFlags : option Z;
  Ordered : option bool;
  StreamAndOpFlags : option Z
}.

(** type BlobStoreConfig struct. *)
Record BlobStoreConfig : Type := mkBlobStoreConfig {
  cfgWritable : option bool;
  cfgType : option string;
  cfgName : option string
}.

(** type StateGuard struct. *)
Record StateGuard : Type := mkStateGuard {
  Current : option string
}.

(** type BlobStore struct. *)
Record BlobStore : Type := mkBlobStore {
  Groupable : option bool;
  ContentDir : option BlobDir;
  bsMetrics : option Metrics;
  bsBlobIDStream : option BlobIDStream;
  RelativeBlobDir : option BlobDir;
  AbsoluteBlobDir : option BlobDir;
  Writable : option bool;
  StorageAvailable : option bool;
  Config : option BlobStoreConfig;
  Started : option bool;
  bsStateGuard : option StateGuard
}.

(** type S3BlobStoreConfig struct. *)
Record S3BlobStoreConfig : Type := mkS3BlobStoreConfig {
  Bucket : option string;
  Prefix : option string;
  AccessKeyID : option string;
  SecretAccessKey : option string;
  SessionToken : option string;
  AssumeRole : option string;
  Region : option string;
  Endpoint : option string;
  Expiration : option Z;
  SignerType : option string
}.

(** type CreateBlobStoreInput struct. *)
Record CreateBlobStoreInput : Type := mkCreateBlobStoreInput {
  cbsName : option string;
  cbsType : option string;
  cbsPath : option string;
  S3Config : option S3BlobStoreConfig
}.

(** type DeleteBlobStoreInput struct. *)
Record DeleteBlobStoreInput : Type := mkDeleteBlobStoreInput {
  dbsName : option string;
  Force : option bool
}.

(** type BlobStoreQuotaStatus struct. *)
Record BlobStoreQuotaStatus : Type := mkBlobStoreQuotaStatus {
  IsViolation : option bool;
  qsMessage : option string;
  BlobStoreName : option string
}.

(** What the package leaves to encoding/json on nested types, to the
    multipart writer and to the files: the decoders of a single asset, a
    single component, a format and the list of blob stores (each from a nil
    or empty target), the script arguments made of an input record (the
    interface value that holds the pointer, nil or not), and the body and
    content type of an upload. *)
Class Codecs {rt : Runtime} {os : OS} : Type := {
  json_Unmarshal_Asset : string -> option Asset * option error;
  json_Unmarshal_Component : string -> option Component * option error;
  json_Unmarshal_Format : string -> option Format * option error;
  json_Unmarshal_BlobStores :
    string -> list (option BlobStore) * option error;
  (* into the empty list ListFormats allocated *)
  json_Unmarshal_Formats : string -> list (option Format) * option error;
  (* into the pointer to the empty structure GetBlobStoreQuotaStatus
     allocated *)
  json_Unmarshal_QuotaStatus :
    string -> option BlobStoreQuotaStatus * option error;
  arg_CreateBlobStoreInput : option CreateBlobStoreInput -> Arg;
  arg_DeleteBlobStoreInput : option DeleteBlobStoreInput -> Arg;
  (* func (n *Nexus) newUploadBody(input) (bodyBytes, contentType, err) *)
  newUploadBody :
    UploadComponentInput -> World ->
    (option string * string * option error) * World
}.

(** ** Single assets and components (assets.go, components.go) *)

Section Items.
Context {rt : Runtime} {os : OS} {codecs : Codecs}.

(** strings.Replace(s, old, "", 1): the text without the leftmost
    occurrence of [old]; an empty [old] changes nothing. *)
Fixpoint cut_first (old s : string) : string :=
  match JSON.strip old s with
  | Some rest => rest
  | None =>
      match s with
      | EmptyString => EmptyString
      | String c s' => String c (cut_first old s')
      end
  end.

(** The status map of the single-item operations. *)
Definition itemStatus (forbidden missing malformed : string)
  : option (list (Z * string)) :=
  Some [(403%Z, forbidden); (404%Z, missing); (422%Z, malformed)].

(** func (n *Nexus) newGetAssetReq(input *GetAssetInput) *)
Definition newGetAssetReq (n : option Nexus) (input : option IDInput)
  : M (option Request * option error) :=
  i <- deref input ;;
  id <- deref (inputID i) ;;
  NewRequest n "GET" ("service/rest/v1/assets/" ++ id) None None "".

(** func (n *Nexus) newDeleteAssetReq(input *DeleteAssetInput) *)
Definition newDeleteAssetReq (n : option Nexus) (input : option IDInput)
  : M (option Request * option error) :=
  i <- deref input ;;
  id <- deref (inputID i) ;;
  NewRequest n "DELETE" ("service/rest/v1/assets/" ++ id) None None "".

(** func (n *Nexus) GetAsset(input *GetAssetInput) (res *Asset, err error) *)
Definition GetAsset (n : option Nexus) (input : option IDInput)
  : M (option Asset * option error) :=
  i <- deref input ;;
  match inputID i with
  | None => ret (None, Some (errorString "Asset ID is required for GetAsset"))
  | Some id =>
      '(req, err) <- newGetAssetReq n input ;;
      match err with
      | Some _ => ret (None, err)
      | None =>
          '(body, err) <- Do n req
              (itemStatus ("Insufficient permissions to get asset " ++ id)
                 ("Asset " ++ id ++ " does not exist")
                 ("Malformed asset ID: " ++ id)) false ;;
          match err with
          | Some _ => ret (None, err)
          | None =>
              let (res, err) := json_Unmarshal_Asset (bytes body) in
              match err with
              | Some _ => ret (res, err)
              | None =>
                  a <- deref res ;;
                  ret (Some (asset_with_client a n), None)
              end
          end
      end
  end.

(** func (n *Nexus) DeleteAsset(input *DeleteAssetInput) (err error) *)
Definition DeleteAsset (n : option Nexus) (input : option IDInput)
  : M (option error) :=
  i <- deref input ;;
  match inputID i with
  | None => ret (Some (errorString "Asset ID is required for DeleteAsset"))
  | Some id =>
      '(req, err) <- newDeleteAssetReq n input ;;
      match err with
      | Some _ => ret err
      | None =>
          '(_, err) <- Do n req
              (itemStatus ("Insufficient permissions to delete " ++ id)
                 ("Asset " ++ id ++ " does not exist")
                 ("Malformed asset ID: " ++ id)) false ;;
          ret err
      end
  end.

(** func (a *Asset) Delete() (err error) *)
Definition Asset_Delete (a : option Asset) : M (option error) :=
  a <- deref a ;;
  DeleteAsset (assetClient a) (Some (mkIDInput (assetID a))).

(** func (a *Asset) Download() (data []byte, err error) *)
Definition Asset_Download (a : option Asset)
  : M (option string * option error) :=
  a <- deref a ;;
  url <- deref (DownloadURL a) ;;
  n <- deref (assetClient a) ;;
  let endpoint := cut_first (host n) url in
  '(req, err) <- NewRequest (assetClient a) "GET" endpoint None None "" ;;
  match err with
  | Some _ => ret (None, err)
  | None => Do (assetClient a) req None false
  end.

(** func (n *Nexus) newGetComponentReq(input *GetComponentInput) *)
Definition newGetComponentReq (n : option Nexus) (input : option IDInput)
  : M (option Request * option error) :=
  i <- deref input ;;
  id <- deref (inputID i) ;;
  NewRequest n "GET" ("service/rest/v1/components/" ++ id) None None "".

(** func (n *Nexus) newDeleteComponentReq(input *DeleteComponentInput) *)
Definition newDeleteComponentReq (n : option Nexus) (input : option IDInput)
  : M (option Request * option error) :=
  i <- deref input ;;
  id <- deref (inputID i) ;;
  NewRequest n "DELETE" ("service/rest/v1/components/" ++ id) None None "".

(** func (n *Nexus) GetComponent(input *GetComponentInput)
      (res *Component, err error) *)
Definition GetComponent (n : option Nexus) (input : option IDInput)
  : M (option Component * option error) :=
  i <- deref input ;;
  match inputID i with
  | None =>
      ret (None, Some (errorString "Component ID is required for GetAsset"))
  | Some id =>
      '(req, err) <- newGetComponentReq n input ;;
      match err with
      | Some _ => ret (None, err)
      | None =>
          '(body, err) <- Do n req
              (itemStatus ("Insufficient permissions to get component " ++ id)
                 ("Component " ++ id ++ " does not exist")
                 ("Malformed component ID: " ++ id)) false ;;
          match err with
          | Some _ => ret (None, err)
          | None =>
              let (res, err) := json_Unmarshal_Component (bytes body) in
              match err with
              | Some _ => ret (res, err)
              | None =>
                  c <- deref res ;;
                  ret (Some (component_with_client c (compAssets c) n), None)
              end
          end
      end
  end.

(** func (n *Nexus) DeleteComponent(input *DeleteComponentInput) (err error) *)
Definition DeleteComponent (n : option Nexus) (input : option IDInput)
  : M (option error) :=
  i <- deref input ;;
  match inputID i with
  | None =>
      ret (Some (errorString "Component ID is required for DeleteComponent"))
  | Some id =>
      '(req, err) <- newDeleteComponentReq n input ;;
      match err with
      | Some _ => ret err
      | None =>
          '(_, err) <- Do n req
              (itemStatus ("Insufficient permissions to delete " ++ id)
                 ("Component " ++ id ++ " does not exist")
                 ("Malformed component ID: " ++ id)) false ;;
          ret err
      end
  end.

End Items.

(** ** Validation of an upload (formats.go, components.go) *)

Section Uploads.
Context {rt : Runtime} {os : OS} {codecs : Codecs}.

(** func (n *Nexus) GetFormat(format string) (res *Format, err error) *)
Definition GetFormat (n : option Nexus) (format : string)
  : M (option Format * option error) :=
  let endpoint := "service/rest/v1/formats/" ++ format ++ "/upload-specs" in
  '(req, err) <- NewRequest n "GET" endpoint None None "" ;;
  match err with
  | Some _ => ret (None, err)
  | None =>
      '(body, err) <- Do n req
          (Some [(404%Z, "The format " ++ format ++ " does not exist")])
          false ;;
      match err with
      | Some _ => ret (None, err)
      | None => ret (json_Unmarshal_Format (bytes body))
      end
  end.


(** func containsKey(dict map[string]string, str string) bool *)
Fixpoint containsKey (dict : list (string * string)) (str : string) : bool :=
  match dict with
  | [] => false
  | (k, _) :: dict' => if String.eqb str k then true else containsKey dict' str
  end.

(** func hasAllRequiredFields(present map[string]string, required []string)
      bool *)
Fixpoint hasAllRequiredFields (present : list (string * string))
  (required : list string) : bool :=
  match required with
  | [] => true
  | x :: required' =>
      if containsKey present x then hasAllRequiredFields present required'
      else false
  end.

(** The "%v" of a []string. *)
Definition show_strings (xs : list string) : string :=
  "[" ++ String.concat " " xs ++ "]".

(** The loop over format.ComponentFields: the names of the fields that are
    not optional. *)
Fixpoint requiredComponentFields (fields : list (option FormatField))
  : M (list string) :=
  match fields with
  | [] => ret []
  | field :: fields' =>
      f <- deref field ;;
      optional <- deref (fieldOptional f) ;;
      if negb optional then
        name <- deref (fieldName f) ;;
        rest <- requiredComponentFields fields' ;;
        ret (name :: rest)
      else requiredComponentFields fields'
  end.

(** The loop over format.AssetFields: the names of the fields that are not
    optional and are not called asset. *)
Fixpoint requiredAssetFields (fields : list (option FormatField))
  : M (list string) :=
  match fields with
  | [] => ret []
  | field :: fields' =>
      f <- deref field ;;
      optional <- deref (fieldOptional f) ;;
      if negb optional then
        name <- deref (fieldName f) ;;
        if negb (String.eqb name "asset") then
          rest <- requiredAssetFields fields' ;;
          ret (name :: rest)
        else requiredAssetFields fields'
      else requiredAssetFields fields'
  end.

Definition requires_component (type_ : string) (required : list string)
  : error :=
  errorString (type_ ++ " requires the following component fields: "
               ++ show_strings required).

Definition requires_asset (type_ : string) (required : list string)
  : error :=
  errorString (type_ ++ " requires the following asset fields: "
               ++ show_strings required).

(** The loop over input.Assets of validateComponentFormat: the first asset
    that lacks a required field ends it. *)
Fixpoint checkAssets (type_ : string) (required : list string)
  (assets : list (option UploadComponentAsset)) : M (option error) :=
  match assets with
  | [] => ret None
  | asset :: assets' =>
      match required with
      | [] => checkAssets type_ required assets'
      | _ :: _ =>
          a <- deref asset ;;
          match AssetConfig a with
          | None => ret (Some (requires_asset type_ required))
          | Some config =>
              if negb (hasAllRequiredFields config required)
              then ret (Some (requires_asset type_ required))
              else checkAssets type_ required assets'
          end
      end
  end.

Definition no_assets : error :=
  errorString "At least one asset must be provided to upload a component".
Definition no_type : error :=
  errorString "ComponentType is required for UploadComponent".

(** func (n *Nexus) validateComponentFormat(input *UploadComponentInput)
      (err error) *)
Definition validateComponentFormat (n : option Nexus)
  (input : option UploadComponentInput) : M (option error) :=
  i <- deref input ;;
  match uciAssets i with
  | [] => ret (Some no_assets)
  | _ :: _ =>
      match ComponentType i with
      | None => ret (Some no_type)
      | Some type_ =>
          '(format, err) <- GetFormat n type_ ;;
          match err with
          | Some _ => ret err
          | None =>
              f <- deref format ;;
              err <- match ComponentFields f with
                     | [] => ret None
                     | _ :: _ =>
                         required <- requiredComponentFields
                                       (ComponentFields f) ;;
                         match ComponentConfig i with
                         | None =>
                             ret (Some (requires_component type_ required))
                         | Some config =>
                             if negb (hasAllRequiredFields config required)
                             then ret (Some (requires_component type_
                                               required))
                             else ret None
                         end
                     end ;;
              match err with
              | Some _ => ret err
              | None =>
                  match AssetFields f with
                  | [] => ret None
                  | _ :: _ =>
                      required <- requiredAssetFields (AssetFields f) ;;
                      checkAssets type_ required (uciAssets i)
                  end
              end
          end
      end
  end.

(** func (n *Nexus) newUploadComponentReq(input *UploadComponentInput) *)
Definition newUploadComponentReq (n : option Nexus)
  (input : option UploadComponentInput) : M (option Request * option error) :=
  i <- deref input ;;
  repository <- deref (uciRepository i) ;;
  '(body, ctype, err) <- lift (newUploadBody i) ;;
  match err with
  | Some _ => ret (None, err)
  | None =>
      NewRequest n "POST" "service/rest/v1/components"
        (Some [("repository", repository)]) body ctype
  end.

(** func (n *Nexus) UploadComponent(input *UploadComponentInput) (err error) *)
Definition UploadComponent (n : option Nexus)
  (input : option UploadComponentInput) : M (option error) :=
  err <- validateComponentFormat n input ;;
  match err with
  | Some _ => ret err
  | None =>
      '(req, err) <- newUploadComponentReq n input ;;
      match err with
      | Some _ => ret err
      | None =>
          i <- deref input ;;
          repository <- deref (uciRepository i) ;;
          '(_, err) <- Do n req
              (Some [(403%Z, "Insufficient permissions to upload component");
                     (404%Z, "Repository " ++ repository
                               ++ " does not exist")])
              false ;;
          ret err
      end
  end.

End Uploads.

(** ** Blob stores through the bridge (blobstores.go) *)

Section BlobStores.
Context {rt : Runtime} {os : OS} {codecs : Codecs}.

(** var BlobStoreTypeFile, BlobStoreTypeS3 *)
Definition BlobStoreTypeFile : option string := String_ "File".
Definition BlobStoreTypeS3 : option string := String_ "S3".

Definition createBlobStoreScriptName : option string :=
  String_ "nexus3-go-create-blobstore".
Definition createBlobStoreScript : option string :=
  String_ (jq "
import groovy.json.JsonSlurper

parsed_args = new JsonSlurper().parseText(args)
existingBlobStore = blobStore.getBlobStoreManager().get(parsed_args.name)
if (existingBlobStore == null) {
  if (parsed_args.type == 'S3') {
      blobStore.createS3BlobStore(parsed_args.name, parsed_args.config)
      msg = 'created'
  } else {
      blobStore.createFileBlobStore(parsed_args.name, parsed_args.path)
      msg = 'created'
  }
} else {
    msg = 'exists'
}
return msg
").

Definition deleteBlobStoreScriptName : option string :=
  String_ "nexus3-go-delete-blobstore".
Definition deleteBlobStoreScript : option string :=
  String_ (jq "
import groovy.json.JsonSlurper

parsed_args = new JsonSlurper().parseText(args)
existingBlobStore = blobStore.getBlobStoreManager().get(parsed_args.name)
if (existingBlobStore != null) {
	if (parsed_args.force) {
		blobStore.getBlobStoreManager().forceDelete(parsed_args.name)
		msg = 'deleted'
	} else {
		blobStore.getBlobStoreManager().delete(parsed_args.name)
		msg = 'deleted'
	}
} else {
	msg = 'not exists'
}
return msg
").

Definition listBlobStoreScriptName : option string :=
  String_ "nexus3-go-list-blobstores".
Definition listBlobStoreScript : option string :=
  String_ (jq "
import groovy.json.JsonOutput

def res = []

blobStore.blobStoreManager.browse()*.each { store ->
	 def storeMap = [:]
   props = store.getProperties()
	 props.each { k, v ->
		 if (v instanceof String || v instanceof Boolean || v instanceof Integer) {
			 storeMap[k] = v
		 } else {
			 storeMap[k] = [:]
			 v.getProperties().each { x, y ->
				 if (y instanceof String || y instanceof Boolean || y instanceof Integer) {
					 storeMap[k][x] = y
				 }
			 }
		 }
	 }
	 res << storeMap
}
def json = JsonOutput.toJson(res)
return json
").

(** func (n *Nexus) ListBlobStores() (blobstores []*BlobStore, err error) *)
Definition ListBlobStores (n : option Nexus)
  : M (list (option BlobStore) * option error) :=
  let script := mkScript listBlobStoreScriptName listBlobStoreScript
                  ScriptTypeGroovy n in
  '(res, err) <- ensureAndExecute (Some script) None ;;
  match err with
  | Some _ => ret ([], err)
  | None =>
      r <- deref res ;;
      text <- deref (Result r) ;;
      ret (json_Unmarshal_BlobStores text)
  end.


(** The loop of GetBlobStore: the first store of the given name. *)
Fixpoint findBlobStore (name : string) (blobstores : list (option BlobStore))
  : M (option BlobStore * option error) :=
  match blobstores with
  | [] =>
      ret (None,
           Some (errorString ("Blobstore " ++ name ++ " does not exist")))
  | x :: rest =>
      store <- deref x ;;
      config <- deref (Config store) ;;
      cname <- deref (cfgName config) ;;
      if String.eqb cname name then ret (x, None)
      else findBlobStore name rest
  end.

(** func (n *Nexus) GetBlobStore(name string) (store *BlobStore, err error) *)
Definition GetBlobStore (n : option Nexus) (name : string)
  : M (option BlobStore * option error) :=
  '(blobstores, err) <- ListBlobStores n ;;
  match err with
  | Some _ => ret (None, err)
  | None => findBlobStore name blobstores
  end.

(** func (n *Nexus) CreateBlobStore(input *CreateBlobStoreInput)
      (blobstore *BlobStore, err error) *)
Definition CreateBlobStore (n : option Nexus)
  (input : option CreateBlobStoreInput)
  : M (option BlobStore * option error) :=
  let script := mkScript createBlobStoreScriptName createBlobStoreScript
                  ScriptTypeGroovy n in
  '(res, err) <- ensureAndExecute (Some script)
                   (Some (arg_CreateBlobStoreInput input)) ;;
  match err with
  | Some _ => ret (None, err)
  | None =>
      r <- deref res ;;
      text <- deref (Result r) ;;
      if String.eqb text "exists" then
        i <- deref input ;;
        name <- deref (cbsName i) ;;
        ret (None,
             Some (errorString ("Blobstore " ++ name ++ " already exists")))
      else
        i <- deref input ;;
        name <- deref (cbsName i) ;;
        GetBlobStore n name
  end.

(** func (n *Nexus) DeleteBlobStore(input *DeleteBlobStoreInput) (err error) *)
Definition DeleteBlobStore (n : option Nexus)
  (input : option DeleteBlobStoreInput) : M (option error) :=
  let script := mkScript deleteBlobStoreScriptName deleteBlobStoreScript
                  ScriptTypeGroovy n in
  '(res, err) <- ensureAndExecute (Some script)
                   (Some (arg_DeleteBlobStoreInput input)) ;;
  match err with
  | Some _ => ret err
  | None =>
      r <- deref res ;;
      text <- deref (Result r) ;;
      if String.eqb text "not exists" then
        i <- deref input ;;
        name <- deref (dbsName i) ;;
        ret (Some (errorString ("Blobstore " ++ name ++ " does not exist")))
      else ret None
  end.

End BlobStores.


(** ** The scripted server, continued

    Stand-ins for the decoders of the nested types: an asset and a component
    are read for their id, a format for the name and the optional flag of
    its fields, a blob store for the name in its configuration, a quota
    status for its three fields; the script arguments of an input record
    are its name, quoted. *)
Module Demo2.
Import Demo.

#[export] Instance demo_os : OS := {| File := string |}.

Definition flag_of (j : option JSON.json) : option bool :=
  match j with
  | Some (JSON.JBool b) => Some b
  | _ => None
  end.

Definition demo_field (j : JSON.json) : option FormatField :=
  match j with
  | JSON.JObject ms =>
      Some (mkFormatField (text_of (member "name" ms)) None None
              (flag_of (member "optional" ms)) None)
  | _ => None
  end.

Definition demo_Unmarshal_Format (data : string)
  : option Format * option error :=
  match JSON.parse data with
  | Some (JSON.JObject ms) =>
      (Some (mkFormat (text_of (member "format" ms)) None
               (demo_items demo_field (member "componentFields" ms))
               (demo_items demo_field (member "assetFields" ms))), None)
  | Some JSON.JNull => (None, None)
  | _ => (None, Some (SyntaxError "not a format"))
  end.

Definition demo_store (j : JSON.json) : option BlobStore :=
  match j with
  | JSON.JObject ms =>
      let config :=
        match member "blobStoreConfiguration" ms with
        | Some (JSON.JObject cs) =>
            Some (mkBlobStoreConfig None (text_of (member "type" cs))
                    (text_of (member "name" cs)))
        | _ => None
        end in
      Some (mkBlobStore None None None None None None None None config None
              None)
  | _ => None
  end.

Definition demo_Unmarshal_BlobStores (data : string)
  : list (option BlobStore) * option error :=
  match JSON.parse data with
  | Some (JSON.JArray vs) => (List.map demo_store vs, None)
  | Some JSON.JNull => ([], None)
  | _ => ([], Some (SyntaxError "not a list of blob stores"))
  end.

Definition demo_format (j : JSON.json) : option Format :=
  match j with
  | JSON.JObject ms =>
      Some (mkFormat (text_of (member "format" ms)) None
              (demo_items demo_field (member "componentFields" ms))
              (demo_items demo_field (member "assetFields" ms)))
  | _ => None
  end.

Definition demo_Unmarshal_Formats (data : string)
  : list (option Format) * option error :=
  match JSON.parse data with
  | Some (JSON.JArray vs) => (List.map demo_format vs, None)
  | Some JSON.JNull => ([], None)
  | _ => ([], Some (SyntaxError "not a list of formats"))
  end.

Definition demo_Unmarshal_QuotaStatus (data : string)
  : option BlobStoreQuotaStatus * option error :=
  match JSON.parse data with
  | Some (JSON.JObject ms) =>
      (Some (mkBlobStoreQuotaStatus (flag_of (member "isViolation" ms))
               (text_of (member "message" ms))
               (text_of (member "blobStoreName" ms))), None)
  | Some JSON.JNull => (None, None)
  | _ => (Some (mkBlobStoreQuotaStatus None None None),
          Some (SyntaxError "not a quota status"))
  end.

Definition demo_Unmarshal_Asset (data : string)
  : option Asset * option error :=
  match JSON.parse data with
  | Some j => (demo_asset j, None)
  | None => (None, Some (SyntaxError "not an asset"))
  end.

Definition demo_Unmarshal_Component (data : string)
  : option Component * option error :=
  match JSON.parse data with
  | Some j => (demo_component j, None)
  | None => (None, Some (SyntaxError "not a component"))
  end.

#[export] Instance demo_codecs : Codecs := {|
  json_Unmarshal_Asset := demo_Unmarshal_Asset;
  json_Unmarshal_Component := demo_Unmarshal_Component;
  json_Unmarshal_Format := demo_Unmarshal_Format;
  json_Unmarshal_BlobStores := demo_Unmarshal_BlobStores;
  json_Unmarshal_Formats := demo_Unmarshal_Formats;
  json_Unmarshal_QuotaStatus := demo_Unmarshal_QuotaStatus;
  arg_CreateBlobStoreInput :=
    fun i => match i with
             | Some i => quote (cbsName i)
             | None => "null"
             end;
  arg_DeleteBlobStoreInput :=
    fun i => match i with
             | Some i => quote (dbsName i)
             | None => "null"
             end;
  newUploadBody := fun _ w => ((Some "body", "multipart/form-data", None), w)
|}.

(** The answer of the run endpoint with the given result text. *)
Definition ran (name text : string) : string :=
  jq "{'name':'" ++ name ++ jq "','result':'" ++ text ++ jq "'}".

(** A script of the given name and body, as the server stores it. *)
Definition held (name : option string) (content : option string) : string :=
  jq "{'name':" ++ quote name ++ jq ",'content':" ++ quote content
    ++ jq ",'type':'groovy'}".

(** The raw format: its only component field is optional, its asset fields
    are the file itself and a required filename. *)
Definition rawFormat : string :=
  jq "{'format':'raw','componentFields':[{'name':'directory','optional':true}],'assetFields':[{'name':'asset','optional':false},{'name':'filename','optional':false}]}".

(** An upload of one file to a raw repository, with and without the
    directory of the component. *)
Definition rawAsset : UploadComponentAsset :=
  {| uaFile := Some "a.txt"; AssetConfig := Some [("filename", "a.txt")] |}.
Definition rawUpload (config : option (list (string * string)))
  : UploadComponentInput :=
  {| uciRepository := Some "files"; ComponentType := Some "raw";
     ComponentConfig := config; uciAssets := [Some rawAsset] |}.

(** The result of the listing script: two stores, by their configuration. *)
Definition twoStores : string :=
  jq "[{\'blobStoreConfiguration\':{\'name\':\'default\',\'type\':\'File\'}},{\'blobStoreConfiguration\':{\'name\':\'backup\',\'type\':\'S3\'}}]".

Definition demoStore (name type_ : string) : option BlobStore :=
  Some (mkBlobStore None None None None None None None None
          (Some (mkBlobStoreConfig None (Some type_) (Some name))) None None).

(** The scripted server again, with script arguments that encoding/json
    turns down: true stands for a value it cannot marshal, a channel. *)
Definition picky : Runtime := {|
  World := DemoWorld;
  client_Do := demo_Do;
  uuid_New := fun w => ("6ba7b810-9dad-11d1-80b4-00c04fd430c8", w);
  url_Parse := fun _ => None;
  url_String := fun raw _ => raw;
  http_NewRequest := fun _ _ => None;
  fmt_Sprintf0 := fun format => format;
  json_Marshal_Script := demo_Marshal_Script;
  Arg := bool;
  json_Marshal_Arg :=
    fun a : bool =>
      if a then inr (externalError "json: unsupported type: chan int")
      else inl "false";
  json_syntax_msg := fun _ => "invalid character looking for beginning of value";
  json_Unmarshal_ListAssetsResponse := demo_Unmarshal_ListAssetsResponse;
  json_Unmarshal_ListComponentsResponse :=
    demo_Unmarshal_ListComponentsResponse
|}.

End Demo2.

(** A server that never runs out of pages: every answer is the first page
    of the scenario, with its token. The world counts the round trips. *)
Module Loop.

#[export] Instance looping : Runtime := {|
  World := nat;
  client_Do := fun _ w => (Demo.reply 200 Demo.page1, S w);
  uuid_New := fun w => ("6ba7b810-9dad-11d1-80b4-00c04fd430c8", w);
  url_Parse := fun _ => None;
  url_String := fun raw _ => raw;
  http_NewRequest := fun _ _ => None;
  fmt_Sprintf0 := fun format => format;
  json_Marshal_Script := Demo.demo_Marshal_Script;
  Arg := string;
  json_Marshal_Arg := fun a => inl a;
  json_syntax_msg := fun _ => "invalid character looking for beginning of value";
  json_Unmarshal_ListAssetsResponse := Demo.demo_Unmarshal_ListAssetsResponse;
  json_Unmarshal_ListComponentsResponse :=
    Demo.demo_Unmarshal_ListComponentsResponse
|}.

(** A callback that goes on and touches nothing. *)
Definition goOn : AssetsCallback := fun res last w => ((res, true, None), w).

End Loop.


(** * Properties *)

(** ** The JSON reader *)

Section JSONFacts.
Import JSON.

Lemma skip_space_length s : String.length (skip_space s) <= String.length s.
Proof.
  induction s as [|c s IH]; simpl; [lia|].
  destruct (is_space c); simpl; lia.
Qed.

Lemma strip_length p : forall s r,
  strip p s = Some r -> String.length s = String.length p + String.length r.
Proof.
  induction p as [|a p IH]; intros s r H; simpl in *.
  - inversion H; reflexivity.
  - destruct s as [|b s]; [discriminate|].
    destruct (Ascii.eqb a b); [|discriminate].
    simpl. rewrite (IH _ _ H). reflexivity.
Qed.

Lemma starts_length c s r :
  starts c s = Some r -> String.length s = S (String.length r).
Proof.
  destruct s as [|b s]; simpl; [discriminate|].
  destruct (Ascii.eqb c b); intros H; inversion H; reflexivity.
Qed.

Lemma take_digits_length s : forall d r,
  take_digits s = (d, r) -> String.length r <= String.length s.
Proof.
  induction s as [|c s IH]; simpl; intros d r H.
  - inversion H; simpl; lia.
  - destruct (is_digit c).
    + destruct (take_digits s) as [d' r'] eqn:E. inversion H; subst.
      specialize (IH _ _ eq_refl). lia.
    + inversion H; subst. simpl. lia.
Qed.

Lemma scan_number_length s n r :
  scan_number s = Some (n, r) -> String.length r < String.length s.
Proof.
  unfold scan_number.
  assert (Hint : forall s i r1, scan_int s = Some (i, r1) ->
                   String.length r1 < String.length s).
  { intros s0 i r1. unfold scan_int. destruct s0 as [|c s0]; [discriminate|].
    destruct (Ascii.eqb c "0") eqn:E0.
    - apply Ascii.eqb_eq in E0. subst c. intros H; inversion H; simpl; lia.
    - assert (Hc : forall X : option (string * string),
                 match c with
                 | "0"%char => Some ("0", s0)
                 | _ => X end = X).
      { intros X. destruct c as [[] [] [] [] [] [] [] []]; try reflexivity.
        discriminate. }
      rewrite Hc. destruct (is_digit c); [|discriminate].
      destruct (take_digits s0) as [d r'] eqn:ET. intros H; inversion H; subst.
      apply take_digits_length in ET. simpl. lia. }
  assert (Hfrac : forall s f r2, scan_frac s = Some (f, r2) ->
                   String.length r2 <= String.length s).
  { intros s0 f r2. unfold scan_frac. destruct s0 as [|c s0].
    - intros H; inversion H; simpl; lia.
    - destruct (Ascii.eqb c ".") eqn:E0.
      + apply Ascii.eqb_eq in E0. subst c.
        destruct (take_digits s0) as [d r'] eqn:ET.
        apply take_digits_length in ET.
        destruct d; [discriminate|]. intros H; inversion H; subst. simpl; lia.
      + assert (Hc : forall X Y : option (string * string),
                 match c with
                 | "."%char => X
                 | _ => Y end = Y).
        { intros X Y. destruct c as [[] [] [] [] [] [] [] []]; try reflexivity.
          discriminate. }
        rewrite Hc. intros H; inversion H; simpl; lia. }
  assert (Hexp : forall s e r3, scan_exp s = Some (e, r3) ->
                   String.length r3 <= String.length s).
  { intros s0 e r3. unfold scan_exp. destruct s0 as [|c s0].
    - intros H; inversion H; simpl; lia.
    - destruct (Ascii.eqb c "e" || Ascii.eqb c "E")%bool.
      + destruct (scan_sign s0) as [sg r1] eqn:ES.
        assert (String.length r1 <= String.length s0).
        { unfold scan_sign in ES.
          destruct s0 as [|[[] [] [] [] [] [] [] []] s0]; inversion ES; subst;
            simpl; lia. }
        destruct (take_digits r1) as [d r'] eqn:ET.
        apply take_digits_length in ET.
        destruct d; [discriminate|]. intros H'; inversion H'; subst.
        simpl; lia.
      + intros H; inversion H; simpl; lia. }
  destruct (match s with String "-"%char r => ("-", r) | _ => ("", s) end)
    as [sg r0] eqn:ES.
  assert (String.length r0 <= String.length s).
  { destruct s as [|[[] [] [] [] [] [] [] []] s]; inversion ES; subst;
      simpl; lia. }
  destruct (scan_int r0) as [[i r1]|] eqn:EI; [|discriminate].
  destruct (scan_frac r1) as [[f r2]|] eqn:EF; [|discriminate].
  destruct (scan_exp r2) as [[e r3]|] eqn:EE; [|discriminate].
  intros H'; inversion H'; subst.
  apply Hint in EI. apply Hfrac in EF. apply Hexp in EE. lia.
Qed.

Lemma scan_string_length n : forall p s t r,
  String.length s <= n ->
  scan_string p s = Some (t, r) -> String.length r < String.length s.
Proof.
  induction n as [|n IH]; intros p s t r Hn H.
  - destruct s; [discriminate|simpl in Hn; lia].
  - destruct s as [|c s]; [discriminate|]. simpl in Hn.
    assert (Hk : forall (f : string -> string) q s',
               match scan_string q s' with
               | Some (t0, r0) => Some (f t0, r0)
               | None => None
               end = Some (t, r) ->
               String.length s' <= n ->
               String.length r < String.length s').
    { intros f q s' Hc Hs'.
      destruct (scan_string q s') as [[t0 r0]|] eqn:E; [|discriminate].
      inversion Hc; subst. eapply IH; eassumption. }
    cbn [scan_string] in H. destruct p as [|p].
    + destruct (Ascii.eqb c "034"); [inversion H; subst; simpl; lia|].
      destruct (byte c <? 32)%N; [discriminate|].
      destruct (Ascii.eqb c "\").
      * destruct s as [|x r0]; [discriminate|].
        destruct (Ascii.eqb x "u").
        -- destruct r0 as [|a [|b [|d [|e r1]]]]; try discriminate.
           destruct (hex4 a b d e) as [rr|]; [|discriminate].
           destruct (after_u rr r1) as [rune [|]].
           ++ destruct r1 as [|? [|? [|? [|? [|? [|? r2]]]]]];
                try discriminate.
              apply Hk in H; [|simpl in *; lia].
              simpl in *. lia.
           ++ apply Hk in H; [|simpl in *; lia].
              simpl in *. lia.
        -- destruct (unescape x); [|discriminate].
           apply Hk in H; [|simpl in *; lia]. simpl in *. lia.
      * destruct (byte c <? 128)%N.
        -- apply Hk in H; [|lia]. simpl. lia.
        -- destruct (utf8_len (String c s));
             (apply Hk in H; [|lia]); simpl; lia.
    + apply Hk in H; [|lia]. simpl. lia.
Qed.

Lemma parse_lengths fuel :
  (forall s v r, parse_value fuel s = Some (v, r) ->
                 String.length r < String.length s)
  /\ (forall s v r, parse_elements fuel s = Some (v, r) ->
                    String.length r < String.length s)
  /\ (forall s v r, parse_members fuel s = Some (v, r) ->
                    String.length r < String.length s).
Proof.
  induction fuel as [|fuel (IHv & IHe & IHm)];
    [repeat split; intros; discriminate|].
  repeat split; intros s v r H;
    cbn [parse_value parse_elements parse_members] in H.
  - pose proof (skip_space_length s) as Hsk.
    destruct (strip "null" (skip_space s)) as [r0|] eqn:E1.
    { inversion H; subst. apply strip_length in E1. simpl in E1. lia. }
    destruct (strip "true" (skip_space s)) as [r0|] eqn:E2.
    { inversion H; subst. apply strip_length in E2. simpl in E2. lia. }
    destruct (strip "false" (skip_space s)) as [r0|] eqn:E3.
    { inversion H; subst. apply strip_length in E3. simpl in E3. lia. }
    destruct (starts "034" (skip_space s)) as [r0|] eqn:E4.
    { apply starts_length in E4.
      destruct (scan_string 0 r0) as [[t r']|] eqn:ES; [|discriminate].
      inversion H; subst. eapply scan_string_length in ES; [|reflexivity].
      lia. }
    destruct (starts "[" (skip_space s)) as [r0|] eqn:E5.
    { apply starts_length in E5. pose proof (skip_space_length r0).
      destruct (starts "]" (skip_space r0)) as [r'|] eqn:E6.
      - inversion H; subst. apply starts_length in E6. lia.
      - destruct (parse_elements fuel r0) as [[vs r']|] eqn:EE;
          [|discriminate].
        inversion H; subst. apply IHe in EE. lia. }
    destruct (starts "{" (skip_space s)) as [r0|] eqn:E7.
    { apply starts_length in E7. pose proof (skip_space_length r0).
      destruct (starts "}" (skip_space r0)) as [r'|] eqn:E6.
      - inversion H; subst. apply starts_length in E6. lia.
      - destruct (parse_members fuel r0) as [[vs r']|] eqn:EE;
          [|discriminate].
        inversion H; subst. apply IHm in EE. lia. }
    destruct (scan_number (skip_space s)) as [[n r']|] eqn:EN;
      [|discriminate].
    inversion H; subst. apply scan_number_length in EN. lia.
  - destruct (parse_value fuel s) as [[v0 r0]|] eqn:EV; [|discriminate].
    apply IHv in EV. pose proof (skip_space_length r0).
    destruct (starts "," (skip_space r0)) as [r1|] eqn:E1.
    { apply starts_length in E1.
      destruct (parse_elements fuel r1) as [[vs r2]|] eqn:EE;
        [|discriminate].
      inversion H; subst. apply IHe in EE. lia. }
    destruct (starts "]" (skip_space r0)) as [r1|] eqn:E2; [|discriminate].
    inversion H; subst. apply starts_length in E2. lia.
  - pose proof (skip_space_length s).
    destruct (starts "034" (skip_space s)) as [r0|] eqn:E1; [|discriminate].
    apply starts_length in E1.
    destruct (scan_string 0 r0) as [[k r1]|] eqn:ES; [|discriminate].
    eapply scan_string_length in ES; [|reflexivity].
    pose proof (skip_space_length r1).
    destruct (starts ":" (skip_space r1)) as [r2|] eqn:E2; [|discriminate].
    apply starts_length in E2.
    destruct (parse_value fuel r2) as [[v0 r3]|] eqn:EV; [|discriminate].
    apply IHv in EV. pose proof (skip_space_length r3).
    destruct (starts "," (skip_space r3)) as [r4|] eqn:E3.
    { apply starts_length in E3.
      destruct (parse_members fuel r4) as [[ms r5]|] eqn:EM;
        [|discriminate].
      inversion H; subst. apply IHm in EM. lia. }
    destruct (starts "}" (skip_space r3)) as [r4|] eqn:E4; [|discriminate].
    inversion H; subst. apply starts_length in E4. lia.
Qed.

Lemma parse_fuel fuel :
  (forall s fuel', 2 * String.length s + 2 <= fuel -> fuel <= fuel' ->
                   parse_value fuel' s = parse_value fuel s)
  /\ (forall s fuel', 2 * String.length s + 3 <= fuel -> fuel <= fuel' ->
                      parse_elements fuel' s = parse_elements fuel s)
  /\ (forall s fuel', 2 * String.length s + 1 <= fuel -> fuel <= fuel' ->
                      parse_members fuel' s = parse_members fuel s).
Proof.
  induction fuel as [|fuel (IHv & IHe & IHm)];
    [repeat split; intros; lia|].
  repeat split; intros s [|fuel'] Hb Hle; try lia;
    cbn [parse_value parse_elements parse_members].
  - pose proof (skip_space_length s) as Hsk.
    destruct (strip "null" (skip_space s)); [reflexivity|].
    destruct (strip "true" (skip_space s)); [reflexivity|].
    destruct (strip "false" (skip_space s)); [reflexivity|].
    destruct (starts "034" (skip_space s)); [reflexivity|].
    destruct (starts "[" (skip_space s)) as [r0|] eqn:E5.
    { apply starts_length in E5.
      destruct (starts "]" (skip_space r0)); [reflexivity|].
      rewrite (IHe r0 fuel'); [reflexivity|lia|lia]. }
    destruct (starts "{" (skip_space s)) as [r0|] eqn:E7; [|reflexivity].
    apply starts_length in E7.
    destruct (starts "}" (skip_space r0)); [reflexivity|].
    rewrite (IHm r0 fuel'); [reflexivity|lia|lia].
  - rewrite (IHv s fuel'); [|lia|lia].
    destruct (parse_value fuel s) as [[v0 r0]|] eqn:EV; [|reflexivity].
    apply (proj1 (parse_lengths fuel)) in EV.
    pose proof (skip_space_length r0).
    destruct (starts "," (skip_space r0)) as [r1|] eqn:E1; [|reflexivity].
    apply starts_length in E1.
    rewrite (IHe r1 fuel'); [reflexivity|lia|lia].
  - pose proof (skip_space_length s).
    destruct (starts "034" (skip_space s)) as [r0|] eqn:E1; [|reflexivity].
    apply starts_length in E1.
    destruct (scan_string 0 r0) as [[k r1]|] eqn:ES; [|reflexivity].
    eapply scan_string_length in ES; [|reflexivity].
    pose proof (skip_space_length r1).
    destruct (starts ":" (skip_space r1)) as [r2|] eqn:E2; [|reflexivity].
    apply starts_length in E2.
    rewrite (IHv r2 fuel'); [|lia|lia].
    destruct (parse_value fuel r2) as [[v0 r3]|] eqn:EV; [|reflexivity].
    apply (proj1 (parse_lengths fuel)) in EV.
    pose proof (skip_space_length r3).
    destruct (starts "," (skip_space r3)) as [r4|] eqn:E3; [|reflexivity].
    apply starts_length in E3.
    rewrite (IHm r4 fuel'); [reflexivity|lia|lia].
Qed.

(** More fuel than [parse] gives never changes what is read. *)
Lemma parse_fuel_enough data fuel :
  2 * String.length data + 2 <= fuel ->
  parse_value fuel data = parse_value (2 * String.length data + 2) data.
Proof.
  intros H. apply (proj1 (parse_fuel (2 * String.length data + 2))); lia.
Qed.

End JSONFacts.

Section JSONExamples.
Context {rt : Runtime}.
Import JSON.

Example parse_object :
  parse (jq "{'name':'x','result':'boom'}")
  = Some (JObject [("name", JString "x"); ("result", JString "boom")]).
Proof. reflexivity. Qed.

Example parse_nested :
  parse (jq " { 'a' : [1, -2.5e3, true, null, 'b\n'] , 'c':{} } ")
  = Some (JObject [("a", JArray [JNumber "1"; JNumber "-2.5e3"; JBool true;
                                 JNull; JString (String "b" (String "010" ""))]);
                   ("c", JObject [])]).
Proof. reflexivity. Qed.

Example parse_rejects :
  parse "<html>" = None /\ parse "" = None /\ parse (jq "{'a':1,}") = None
  /\ parse "01" = None /\ parse "1 2" = None /\ parse "nul" = None.
Proof. repeat split. Qed.

Example unquote_surrogate_pair :
  parse (jq "'\ud83d\ude00'")
  = Some (JString (String "240" (String "159" (String "152"
                     (String "128" "")))))
  /\ parse (jq "'\ud83d'")
     = Some (JString (String "239" (String "191" (String "189" ""))))
  /\ parse (jq "'\u00e9'") = Some (JString (String "195" (String "169" ""))).
Proof. repeat split. Qed.

Example unmarshal_folds_keys :
  Unmarshal_ExecuteScriptResponse (jq "{'NAME':'x','Result':'r','more':[1]}")
  = (Some (mkExecuteScriptResponse (Some "x") (Some "r")), None).
Proof. reflexivity. Qed.

Example unmarshal_type_mismatch :
  Unmarshal_ExecuteScriptResponse (jq "{'name':'x','result':5}")
  = (Some (mkExecuteScriptResponse (Some "x") (Some "")),
     Some (UnmarshalTypeError "number" "string" "ExecuteScriptResponse"
             "result"))
  /\ Unmarshal_ExecuteScriptResponse "[]"
     = (Some (mkExecuteScriptResponse None None),
        Some (UnmarshalTypeError "array" "nexus.ExecuteScriptResponse" "" "")).
Proof. split; reflexivity. Qed.

Example unmarshal_not_json :
  Unmarshal_ExecuteScriptResponse "<html>"
  = (None, Some (SyntaxError (json_syntax_msg "<html>")))
  /\ Unmarshal_ExecuteScriptResponse "null" = (None, None)
  /\ Unmarshal_ExecuteScriptResponse "{}"
     = (Some (mkExecuteScriptResponse None None), None).
Proof. repeat split. Qed.

End JSONExamples.

(** ** Histories of the single operations *)

(** Case analysis on whatever the goal still matches on. *)
Ltac break_match :=
  match goal with
  | |- context [match ?x with _ => _ end] =>
      lazymatch x with
      | context [match _ with _ => _ end] => fail
      | _ => destruct x eqn:?
      end
  end.

Ltac run_op :=
  cbv [bind ret emit deref panic lift roundTrip history outcome world];
  repeat (break_match; simpl);
  cbv [bind ret emit deref panic lift roundTrip history outcome world];
  simpl; auto with arith.

Section OperationFacts.
Context {rt : Runtime}.

Lemma calls_app (h1 h2 : list Event) :
  calls (h1 ++ h2) = (calls h1 ++ calls h2)%list.
Proof.
  induction h1 as [|e h1 IH]; simpl; [reflexivity|].
  destruct e; simpl; rewrite IH; reflexivity.
Qed.

Lemma sent_app (h1 h2 : list Event) :
  sent (h1 ++ h2) = (sent h1 ++ sent h2)%list.
Proof.
  induction h1 as [|e h1 IH]; simpl; [reflexivity|].
  destruct e; simpl; rewrite IH; reflexivity.
Qed.

Lemma handledAssets_app (h1 h2 : list Event) :
  handledAssets (h1 ++ h2) = (handledAssets h1 ++ handledAssets h2)%list.
Proof.
  induction h1 as [|e h1 IH]; simpl; [reflexivity|].
  destruct e; simpl; rewrite IH; reflexivity.
Qed.

Lemma handledComponents_app (h1 h2 : list Event) :
  handledComponents (h1 ++ h2)
  = (handledComponents h1 ++ handledComponents h2)%list.
Proof.
  induction h1 as [|e h1 IH]; simpl; [reflexivity|].
  destruct e; simpl; rewrite IH; reflexivity.
Qed.

(** NewRequest neither calls an operation nor sends anything, and leaves the
    world as it is. *)
Lemma NewRequest_pure n method endpoint args body ct w :
  exists o, NewRequest n method endpoint args body ct w = (o, w, []).
Proof.
  unfold NewRequest. destruct n as [n|]; cbv [bind ret deref panic].
  - destruct (url_Parse _); [eexists; reflexivity|].
    destruct (http_NewRequest _ _); eexists; reflexivity.
  - eexists; reflexivity.
Qed.

(** Do calls no operation and sends at most one request. *)
Lemma Do_history n req statusMap resToErr w :
  calls (history (Do n req statusMap resToErr w)) = []
  /\ List.length (sent (history (Do n req statusMap resToErr w))) <= 1.
Proof.
  unfold Do. run_op.
Qed.

(** Each operation enters the history once, under its own name, and makes
    at most one round trip. *)
Lemma GetScript_history n name w :
  calls (history (GetScript n name w)) = [OpGet name]
  /\ List.length (sent (history (GetScript n name w))) <= 1.
Proof.
  unfold GetScript, NewRequest, Do. run_op.
Qed.

Lemma CreateScript_history n script w :
  calls (history (CreateScript n script w)) = [OpCreate script]
  /\ List.length (sent (history (CreateScript n script w))) <= 1.
Proof.
  unfold CreateScript, NewRequest, Do. run_op.
Qed.

Lemma UpdateScript_history n script w :
  calls (history (UpdateScript n script w)) = [OpUpdate script]
  /\ List.length (sent (history (UpdateScript n script w))) <= 1.
Proof.
  unfold UpdateScript, NewRequest, Do. run_op.
Qed.

Lemma ExecuteScript_history n name args w :
  calls (history (ExecuteScript n name args w)) = [OpExecute name args]
  /\ List.length (sent (history (ExecuteScript n name args w))) <= 1.
Proof.
  unfold ExecuteScript, NewRequest, Do. run_op.
Qed.

Lemma DeleteScript_history n name w :
  calls (history (DeleteScript n name w)) = [OpDelete name]
  /\ List.length (sent (history (DeleteScript n name w))) <= 1.
Proof.
  unfold DeleteScript, NewRequest, Do. run_op.
Qed.

Lemma Script_Execute_history s args w :
  (calls (history (Script_Execute s args w)) = []
   \/ exists name, calls (history (Script_Execute s args w))
                   = [OpExecute name args])
  /\ List.length (sent (history (Script_Execute s args w))) <= 1.
Proof.
  unfold Script_Execute. destruct s as [s|]; [|run_op].
  destruct (Name s) as [name|] eqn:EN; [|cbv [bind deref ret panic]; rewrite EN; run_op].
  destruct (ExecuteScript_history (client s) name args w) as [Hc Hs].
  cbv [bind deref ret]. rewrite EN.
  destruct (ExecuteScript (client s) name args w) as [[o w1] h1].
  unfold history in *; simpl in *. split; [right; exists name; exact Hc|exact Hs].
Qed.

Lemma bind_Done {A B} (m : M A) (f : A -> M B) w a w1 h1 :
  m w = (Done a, w1, h1) ->
  bind m f w = (outcome (f a w1), world (f a w1),
                (h1 ++ history (f a w1))%list).
Proof.
  intros H. unfold bind. rewrite H.
  destruct (f a w1) as [[o w2] h2]. reflexivity.
Qed.

Lemma bind_Panic {A B} (m : M A) (f : A -> M B) w w1 h1 :
  m w = (Panic, w1, h1) -> bind m f w = (Panic, w1, h1).
Proof. intros H. unfold bind. rewrite H. reflexivity. Qed.

(** A create or an update that returns without error returns the script it
    was given, bound to the client; with an error it returns no script. *)
Lemma CreateScript_ok n script w b w1 h1 :
  CreateScript n script w = (Done (b, None), w1, h1) ->
  exists s name content nx,
    script = Some s /\ Name s = Some name /\ Content s = Some content
    /\ b = Some (with_client s n) /\ n = Some nx.
Proof.
  unfold CreateScript, NewRequest, Do.
  cbv [bind ret emit deref panic lift roundTrip].
  repeat (break_match; simpl); intros H; inversion H; subst;
    try discriminate.
  all: do 4 eexists; repeat split; eauto.
Qed.


Lemma UpdateScript_ok n script w b w1 h1 :
  UpdateScript n script w = (Done (b, None), w1, h1) ->
  exists s name content,
    script = Some s /\ Name s = Some name /\ Content s = Some content
    /\ b = Some (with_client s n).
Proof.
  unfold UpdateScript, NewRequest, Do.
  cbv [bind ret emit deref panic lift roundTrip].
  repeat (break_match; simpl); intros H; inversion H; subst;
    try discriminate; eauto 8.
Qed.


(** The continuation of the update inside compareAndExecute. *)
Lemma compareAndExecute_same s remote args w c :
  Content remote = Some c -> Content s = Some c ->
  compareAndExecute s (Some remote) args w
  = Script_Execute (Some remote) args w.
Proof.
  intros Hr Hs. unfold compareAndExecute. cbv [bind deref ret].
  rewrite Hr, Hs. rewrite String.eqb_refl. simpl.
  destruct (Script_Execute (Some remote) args w) as [[o w1] h1]. reflexivity.
Qed.

Lemma compareAndExecute_differ s remote args w rc dc :
  Content remote = Some rc -> Content s = Some dc -> rc <> dc ->
  compareAndExecute s (Some remote) args w
  = bind (UpdateScript (client s) (desired s))
      (fun r => match r with
                | (script, Some e) => ret (None, Some e)
                | (script, None) => Script_Execute script args
                end) w.
Proof.
  intros Hr Hs Hne. unfold compareAndExecute. cbv [bind deref ret].
  rewrite Hr, Hs. apply String.eqb_neq in Hne. rewrite Hne. simpl.
  destruct (UpdateScript (client s) (desired s) w) as [[[[b [e|]]| |] w1] h1];
    try reflexivity.
  destruct (Script_Execute b args w1) as [[o w2] h2]. reflexivity.
Qed.

Lemma compareAndExecute_history s script args w :
  let h := history (compareAndExecute s script args w) in
  reconcile_order (calls h) = true /\ List.length (sent h) <= 2
  /\ (forall remote, script = Some remote -> Content remote = Content s ->
       execute_order (calls h) = true /\ List.length (sent h) <= 1).
Proof.
  destruct script as [remote|];
    [|cbv; repeat split; auto; intros; discriminate].
  destruct (Content remote) as [rc|] eqn:Hr;
    [|unfold compareAndExecute; cbv [bind deref ret panic]; rewrite Hr;
      cbv; repeat split; auto].
  destruct (Content s) as [dc|] eqn:Hs;
    [|unfold compareAndExecute; cbv [bind deref ret panic]; rewrite Hr, Hs;
      cbv; repeat split; auto; intros; discriminate].
  destruct (String.eqb_spec rc dc) as [->|Hne].
  - rewrite (compareAndExecute_same s remote args w Hr Hs).
    destruct (Script_Execute_history (Some remote) args w) as [Hc Hn].
    assert (He : execute_order
                   (calls (history (Script_Execute (Some remote) args w)))
                 = true)
      by (destruct Hc as [->|[name ->]]; reflexivity).
    cbv zeta. repeat split; auto with arith.
    destruct Hc as [->|[name ->]]; reflexivity.
  - rewrite (compareAndExecute_differ s remote args w Hr Hs Hne).
    assert (Hno : forall r, Some remote = Some r -> Content r <> Content s)
      by (intros r Hr'; inversion Hr'; subst; congruence).
    destruct (UpdateScript_history (client s) (desired s) w) as [Hc Hn].
    destruct (UpdateScript (client s) (desired s) w)
      as [[[[b [e|]]| |] w1] h1] eqn:EU; unfold history in Hc, Hn;
      simpl in Hc, Hn.
    + erewrite bind_Done by exact EU. cbv [ret history outcome world]. simpl.
      rewrite app_nil_r, Hc.
      repeat split; auto with arith;
        exfalso; eapply Hno; [eassumption|congruence].
    + erewrite bind_Done by exact EU. cbv [history]. simpl.
      rewrite calls_app, sent_app, length_app, Hc.
      destruct (Script_Execute_history b args w1) as [Hc2 Hn2].
      unfold history in Hc2, Hn2.
      repeat split; try lia;
        try (exfalso; eapply Hno; [eassumption|congruence]).
      destruct Hc2 as [->|[name ->]]; reflexivity.
    + erewrite bind_Panic by exact EU. cbv [history]. simpl. rewrite Hc.
      repeat split; auto with arith;
        exfalso; eapply Hno; [eassumption|congruence].
    + unfold bind. rewrite EU. cbv [history]. simpl. rewrite Hc.
      repeat split; auto with arith;
        exfalso; eapply Hno; [eassumption|congruence].
Qed.

(** With a client at hand DeleteScript returns: it has nothing to
    dereference. *)
Lemma DeleteScript_returns nx name w :
  exists d, outcome (DeleteScript (Some nx) name w) = Done d.
Proof.
  unfold DeleteScript, NewRequest, Do.
  cbv [bind ret emit deref panic lift roundTrip outcome].
  repeat (break_match; simpl); eauto.
Qed.

(** Binding the items of a page to the client touches neither the world
    nor the history. *)
Lemma bindAssets_pure n items w :
  exists o, bindAssets n items w = (o, w, []).
Proof.
  induction items as [|[a|] xs [o IH]]; simpl; cbv [bind ret deref panic];
    try (eexists; reflexivity).
  rewrite IH. destruct o; eexists; reflexivity.
Qed.

Lemma bindComponents_pure n items w :
  exists o, bindComponents n items w = (o, w, []).
Proof.
  induction items as [|[c|] xs [o IH]]; simpl; cbv [bind ret deref panic];
    try (eexists; reflexivity).
  destruct (bindAssets_pure n (compAssets c) w) as [oa ->].
  destruct oa; try (eexists; reflexivity).
  rewrite IH. destruct o; eexists; reflexivity.
Qed.

(** A page fetch enters the history once, makes at most one round trip and
    hands nothing to the callback. *)
Lemma ListAssets_history n input w :
  let h := history (ListAssets n input w) in
  calls h = [OpListAssets input] /\ List.length (sent h) <= 1
  /\ handledAssets h = [].
Proof.
  unfold ListAssets, newListAssetsReq, NewRequest, Do.
  cbv [bind ret emit deref panic lift roundTrip history outcome world].
  repeat (match goal with
          | |- context [bindAssets ?n ?i ?w] =>
              destruct (bindAssets_pure n i w) as [? ->]
          | _ => break_match
          end; simpl); auto with arith.
Qed.

Lemma ListComponents_history n input w :
  let h := history (ListComponents n input w) in
  calls h = [OpListComponents input] /\ List.length (sent h) <= 1
  /\ handledComponents h = [].
Proof.
  unfold ListComponents, newListComponentsReq, NewRequest, Do.
  cbv [bind ret emit deref panic lift roundTrip history outcome world].
  repeat (match goal with
          | |- context [bindComponents ?n ?i ?w] =>
              destruct (bindComponents_pure n i w) as [? ->]
          | _ => break_match
          end; simpl); auto with arith.
Qed.

(** One turn of the traversal, given the page its fetch returned. *)
Lemma ListAssetsPages_step fuel n input cb w p w1 h1 :
  ListAssets n input w = (Done (Some p, None), w1, h1) ->
  ListAssetsPages (S fuel) n input cb w
  = match larContinuationToken p with
    | None =>
        match cb p true w1 with
        | ((_, _, err), w2) =>
            (Done err, w2, (h1 ++ [HandledAssets p true])%list)
        end
    | Some _ =>
        match cb p false w1 with
        | ((_, _, Some e), w2) =>
            (Done (Some e), w2, (h1 ++ [HandledAssets p false])%list)
        | ((_, false, None), w2) =>
            (Done None, w2, (h1 ++ [HandledAssets p false])%list)
        | ((p', true, None), w2) =>
            match input with
            | None => (Panic, w2, (h1 ++ [HandledAssets p false])%list)
            | Some i =>
                let r := ListAssetsPages fuel n
                           (Some (mkListAssetsInput (laiRepository i)
                                    (larContinuationToken p'))) cb w2 in
                (outcome r, world r,
                 (h1 ++ HandledAssets p false :: history r)%list)
            end
        end
    end.
Proof.
  intros HL. simpl. unfold callAssets.
  cbv [bind ret emit deref panic lift]. rewrite HL. simpl.
  destruct (larContinuationToken p) as [tok|].
  - destruct (cb p false w1) as [[[p' [|]] [e|]] w2]; simpl;
      try reflexivity.
    destruct input as [i|]; simpl; [|reflexivity].
    destruct (ListAssetsPages fuel n _ cb w2) as [[o3 w3] h3]. reflexivity.
  - destruct (cb p true w1) as [[[p' cont] err] w2]. reflexivity.
Qed.

Lemma ListComponentsPages_step fuel n input cb w p w1 h1 :
  ListComponents n input w = (Done (Some p, None), w1, h1) ->
  ListComponentsPages (S fuel) n input cb w
  = match lcrContinuationToken p with
    | None =>
        match cb p true w1 with
        | ((_, _, err), w2) =>
            (Done err, w2, (h1 ++ [HandledComponents p true])%list)
        end
    | Some _ =>
        match cb p false w1 with
        | ((_, _, Some e), w2) =>
            (Done (Some e), w2, (h1 ++ [HandledComponents p false])%list)
        | ((_, false, None), w2) =>
            (Done None, w2, (h1 ++ [HandledComponents p false])%list)
        | ((p', true, None), w2) =>
            match input with
            | None => (Panic, w2, (h1 ++ [HandledComponents p false])%list)
            | Some i =>
                let r := ListComponentsPages fuel n
                           (Some (mkListComponentsInput (lciRepository i)
                                    (lcrContinuationToken p'))) cb w2 in
                (outcome r, world r,
                 (h1 ++ HandledComponents p false :: history r)%list)
            end
        end
    end.
Proof.
  intros HL. simpl. unfold callComponents.
  cbv [bind ret emit deref panic lift]. rewrite HL. simpl.
  destruct (lcrContinuationToken p) as [tok|].
  - destruct (cb p false w1) as [[[p' [|]] [e|]] w2]; simpl;
      try reflexivity.
    destruct input as [i|]; simpl; [|reflexivity].
    destruct (ListComponentsPages fuel n _ cb w2) as [[o3 w3] h3].
    reflexivity.
  - destruct (cb p true w1) as [[[p' cont] err] w2]. reflexivity.
Qed.

Lemma flagged_fst {A} (pages : list A) :
  List.map fst (flagged pages) = pages.
Proof.
  induction pages as [|p [|q rest] IH]; simpl in *; try reflexivity.
  f_equal. exact IH.
Qed.

(** The traversal over a served walk, by induction on the pages. *)
Lemma AssetsWalk_run pages : forall n cb input w w' fuel,
  AssetsWalk n cb input w pages w' ->
  List.length pages <= fuel ->
  exists h,
    ListAssetsPages fuel n (Some input) cb w = (Done None, w', h)
    /\ handledAssets h = flagged pages
    /\ count is_fetch h = List.length pages.
Proof.
  induction pages as [|p rest IH]; intros n cb input w w' fuel HW Hf;
    [destruct HW|].
  destruct fuel as [|fuel]; [simpl in Hf; lia|].
  destruct HW as (w1 & h1 & p' & w2 & HL & HW).
  erewrite ListAssetsPages_step by exact HL.
  destruct (ListAssets_history n (Some input) w) as (Hc & _ & Hh).
  rewrite HL in Hc, Hh. unfold history in Hc, Hh. simpl in Hc, Hh.
  destruct rest as [|q rest].
  - destruct HW as (Ht & Hcb & ->). rewrite Ht, Hcb.
    eexists. split; [reflexivity|]. unfold count.
    rewrite handledAssets_app, calls_app, Hh, Hc. split; reflexivity.
  - destruct HW as (Ht & Hcb & HW).
    destruct (larContinuationToken p) as [tok|]; [|congruence].
    rewrite Hcb.
    destruct (IH n cb _ w2 w' fuel HW) as (h & Hrun & Hhand & Hcount);
      [simpl in Hf |- *; lia|].
    rewrite Hrun. unfold outcome, world, history. simpl.
    eexists. split; [reflexivity|]. unfold count in *.
    rewrite handledAssets_app, calls_app, Hh, Hc. simpl.
    rewrite Hhand. split; [reflexivity|].
    simpl in Hcount. rewrite Hcount. reflexivity.
Qed.

Lemma ComponentsWalk_run pages : forall n cb input w w' fuel,
  ComponentsWalk n cb input w pages w' ->
  List.length pages <= fuel ->
  exists h,
    ListComponentsPages fuel n (Some input) cb w = (Done None, w', h)
    /\ handledComponents h = flagged pages
    /\ count is_fetch h = List.length pages.
Proof.
  induction pages as [|p rest IH]; intros n cb input w w' fuel HW Hf;
    [destruct HW|].
  destruct fuel as [|fuel]; [simpl in Hf; lia|].
  destruct HW as (w1 & h1 & p' & w2 & HL & HW).
  erewrite ListComponentsPages_step by exact HL.
  destruct (ListComponents_history n (Some input) w) as (Hc & _ & Hh).
  rewrite HL in Hc, Hh. unfold history in Hc, Hh. simpl in Hc, Hh.
  destruct rest as [|q rest].
  - destruct HW as (Ht & Hcb & ->). rewrite Ht, Hcb.
    eexists. split; [reflexivity|]. unfold count.
    rewrite handledComponents_app, calls_app, Hh, Hc. split; reflexivity.
  - destruct HW as (Ht & Hcb & HW).
    destruct (lcrContinuationToken p) as [tok|]; [|congruence].
    rewrite Hcb.
    destruct (IH n cb _ w2 w' fuel HW) as (h & Hrun & Hhand & Hcount);
      [simpl in Hf |- *; lia|].
    rewrite Hrun. unfold outcome, world, history. simpl.
    eexists. split; [reflexivity|]. unfold count in *.
    rewrite handledComponents_app, calls_app, Hh, Hc. simpl.
    rewrite Hhand. split; [reflexivity|].
    simpl in Hcount. rewrite Hcount. reflexivity.
Qed.

End OperationFacts.

(** ** The claims *)

Section Claims.
Context {rt : Runtime}.

(** The bounds on the calls of the bridge and of the ephemeral invoker: the
    orders they can take, and at most three round trips each. *)
Lemma call_bounds (s : option Script) (e : EphemeralScript)
  (args : option Arg) (w : World) :
  let hb := history (ensureAndExecute s args w) in
  let he := history (EphemeralScript_Execute e args w) in
  bridge_order (calls hb) = true
  /\ List.length (calls hb) <= 3 /\ List.length (sent hb) <= 3
  /\ ephemeral_order (calls he) = true
  /\ List.length (sent he) <= 3.
Proof.
  cbv zeta.
  assert (Hb : bridge_order (calls (history (ensureAndExecute s args w)))
               = true
               /\ List.length (sent (history (ensureAndExecute s args w)))
                  <= 3).
  { destruct s as [s|]; [|cbv; auto].
    unfold ensureAndExecute. cbv [bind deref ret panic]. simpl.
    destruct (Name s) as [name|] eqn:EN; [|cbv; auto]. simpl.
    destruct (GetScript_history (client s) name w) as [Hc Hn].
    destruct (GetScript (client s) name w) as [[[[script [ge|]]| |] w1] h1];
      unfold history in Hc, Hn; simpl in Hc, Hn.
    - (* get failed: create *)
      destruct (CreateScript_history (client s) (desired s) w1) as [Hc2 Hn2].
      destruct (CreateScript (client s) (desired s) w1)
        as [[[[b [ce|]]| |] w2] h2] eqn:EC;
        unfold history in Hc2, Hn2; simpl in Hc2, Hn2.
      + cbv [history]. simpl.
        rewrite !calls_app, !sent_app, !length_app, Hc, Hc2. simpl.
        split; [reflexivity|lia].
      + destruct (CreateScript_ok _ _ _ EC)
          as (s' & nm & ct & nx & Hs' & _ & Hct & -> & _).
        unfold desired in Hs'. inversion Hs'; subst s'. simpl in Hct.
        destruct (compareAndExecute_history s
                    (Some (with_client
                             (mkScript (Name s) (Content s) (Type_ s) None)
                             (client s))) args w2) as (_ & _ & Hsame).
        destruct (Hsame _ eq_refl eq_refl) as [Ho Hl].
        destruct (compareAndExecute s _ args w2) as [[o3 w3] h3].
        cbv [history] in *. simpl in *.
        rewrite !calls_app, !sent_app, !length_app, Hc, Hc2. simpl.
        split; [|lia].
        destruct (calls h3) as [|[] [|]]; simpl in *; congruence.
      + cbv [history]. simpl.
        rewrite !calls_app, !sent_app, !length_app, Hc, Hc2. simpl.
        split; [reflexivity|lia].
      + cbv [history]. simpl.
        rewrite !calls_app, !sent_app, !length_app, Hc, Hc2. simpl.
        split; [reflexivity|lia].
    - (* get succeeded *)
      destruct (compareAndExecute_history s script args w1) as (Ho & Hl & _).
      destruct (compareAndExecute s script args w1) as [[o3 w3] h3].
      cbv [history] in *. simpl in *.
      rewrite !calls_app, !sent_app, !length_app, Hc. simpl.
      split; [|lia].
      destruct (calls h3) as [|[] [|[] [|]]]; simpl in *; congruence.
    - cbv [history]. simpl. rewrite Hc. split; [reflexivity|lia].
    - cbv [history]. simpl. rewrite Hc. split; [reflexivity|lia]. }
  destruct Hb as [Hb1 Hb2]. split; [exact Hb1|]. split.
  { destruct (calls (history (ensureAndExecute s args w)))
      as [|[] [|[] [|[] [|]]]]; simpl in *; try discriminate; auto with arith. }
  split; [exact Hb2|].
  unfold EphemeralScript_Execute.
  destruct (esScript e) as [sc|]; [|cbv; auto].
  cbv [bind deref ret lift]. simpl.
  destruct (uuid_New w) as [name w0]. simpl.
  set (d := Some (mkScript (String_ name) (Content sc) ScriptTypeGroovy None)).
  destruct (CreateScript_history (client sc) d w0) as [Hc Hn].
  destruct (CreateScript (client sc) d w0)
    as [[[[b [ce|]]| |] w1] h1] eqn:EC;
    unfold history in Hc, Hn; simpl in Hc, Hn;
    try (cbv [history]; simpl; rewrite ?app_nil_r, Hc; split;
         [reflexivity|lia]).
  destruct (CreateScript_ok _ _ _ EC)
    as (s' & nm & ct & nx & Hs' & _ & _ & -> & Hnx).
  subst d. inversion Hs'; subst s'. clear Hs'.
  unfold defer_, Script_Execute, Script_Delete. cbv [bind deref ret]. simpl.
  destruct (ExecuteScript_history (client sc) name args w1) as [Hc2 Hn2].
  destruct (ExecuteScript (client sc) name args w1) as [[o2 w2] h2].
  destruct (DeleteScript_history (client sc) name w2) as [Hc3 Hn3].
  destruct (DeleteScript (client sc) name w2) as [[o3 w3] h3].
  unfold history in *. simpl in *.
  destruct o2, o3; simpl; rewrite ?app_nil_r, ?app_nil_l;
    rewrite ?calls_app, ?sent_app, ?length_app, ?Hc, ?Hc2, ?Hc3; simpl;
    (split; [try reflexivity|try lia]).
Qed.

(** C4. In a run of EphemeralScript.Execute whose create step succeeds,
    delete is called exactly once, on the generated name, after the execute
    step and whatever its outcome (result, error or panic); what delete
    returns is dropped, the run yields the outcome of the execute step. When
    the create step fails no delete is called and its error is returned. *)
Theorem ephemeral_cleanup (e : EphemeralScript) (sc : Script)
  (args : option Arg) (name : string) (w w0 w1 : World)
  (script : option Script) (err : option error) (h1 : list Event) :
  esScript e = Some sc ->
  uuid_New w = (name, w0) ->
  CreateScript (client sc)
    (Some (mkScript (String_ name) (Content sc) ScriptTypeGroovy None)) w0
  = (Done (script, err), w1, h1) ->
  let run := EphemeralScript_Execute e args w in
  match err with
  | Some _ =>
      run = (Done (None, err), w1, h1) /\ count is_delete (history run) = 0
  | None =>
      let ex := ExecuteScript (client sc) name args w1 in
      let del := DeleteScript (client sc) name (world ex) in
      (exists d, outcome del = Done d)
      /\ run = (outcome ex, world del, (h1 ++ history ex ++ history del)%list)
      /\ calls (history run)
         = [OpCreate (Some (mkScript (String_ name) (Content sc)
                              ScriptTypeGroovy None));
            OpExecute name args; OpDelete name]
      /\ count is_delete (history run) = 1
  end.
Proof.
  intros He Hu HC.
  set (d := Some (mkScript (String_ name) (Content sc) ScriptTypeGroovy None))
    in *.
  assert (Hrun : EphemeralScript_Execute e args w
                 = match err with
                   | Some _ => (Done (None, err), w1, h1)
                   | None =>
                       let r := defer_ (Script_Delete script)
                                  (Script_Execute script args) w1 in
                       (outcome r, world r, (h1 ++ history r)%list)
                   end).
  { unfold EphemeralScript_Execute. rewrite He.
    cbv [bind deref lift ret]. rewrite Hu. simpl. fold d. rewrite HC.
    destruct err as [ce|]; simpl; [rewrite app_nil_r; reflexivity|].
    destruct (defer_ _ _ w1) as [[o2 w2] h2]. reflexivity. }
  destruct (CreateScript_history (client sc) d w0) as [Hc _].
  rewrite HC in Hc. unfold history in Hc. simpl in Hc.
  cbv zeta. rewrite Hrun. destruct err as [ce|].
  - split; [reflexivity|]. unfold count, history. simpl. rewrite Hc.
    reflexivity.
  - destruct (CreateScript_ok _ _ _ HC)
      as (s' & nm & ct & nx & Hs' & _ & _ & -> & Hnx).
    subst d. inversion Hs'; subst s'. clear Hs'.
    unfold defer_, Script_Execute, Script_Delete. cbv [bind deref ret]. simpl.
    destruct (ExecuteScript_history (client sc) name args w1) as [Hc2 _].
    destruct (ExecuteScript (client sc) name args w1) as [[o2 w2] h2].
    unfold outcome, world, history, count in *. simpl in *.
    destruct (DeleteScript_history (client sc) name w2) as [Hc3 _].
    rewrite Hnx in *.
    destruct (DeleteScript_returns nx name w2) as [dv Hd].
    destruct (DeleteScript (Some nx) name w2) as [[o3 w3] h3].
    unfold outcome, world, history, count in *. simpl in *. subst o3.
    split; [exists dv; reflexivity|].
    assert (Hcalls : calls (h1 ++ h2 ++ h3)
                     = [OpCreate
                          (Some (mkScript (String_ name) (Content sc)
                                   ScriptTypeGroovy None));
                        OpExecute name args; OpDelete name])
      by (rewrite !calls_app, Hc, Hc2, Hc3; reflexivity).
    destruct o2; simpl; rewrite ?app_nil_r;
      (split; [reflexivity|]); rewrite Hcalls; split; reflexivity.
Qed.

(** The run of the bridge, given what its get returned. *)
Lemma ensureAndExecute_after_get (s : Script) name args w script gerr w1 h1 :
  Name s = Some name ->
  GetScript (client s) name w = (Done (script, gerr), w1, h1) ->
  let rest :=
    match gerr with
    | Some _ =>
        bind (CreateScript (client s) (desired s))
          (fun r => match r with
                    | (b, Some e) => ret (None, Some e)
                    | (b, None) => compareAndExecute s b args
                    end) w1
    | None => compareAndExecute s script args w1
    end in
  ensureAndExecute (Some s) args w
  = (outcome rest, world rest, (h1 ++ history rest)%list).
Proof.
  intros HN HG. unfold ensureAndExecute. cbv [bind deref ret]. rewrite HN.
  simpl. rewrite HG. destruct gerr as [ge|]; simpl.
  - destruct (CreateScript (client s) (desired s) w1)
      as [[[[b [ce|]]| |] w2] h2]; try reflexivity.
    destruct (compareAndExecute s b args w2) as [[o3 w3] h3]. reflexivity.
  - destruct (compareAndExecute s script args w1) as [[o3 w3] h3].
    reflexivity.
Qed.

(** Script.Execute that returns has called ExecuteScript. *)
Lemma Script_Execute_done sc args w x :
  outcome (Script_Execute sc args w) = Done x ->
  exists name, calls (history (Script_Execute sc args w))
               = [OpExecute name args].
Proof.
  unfold Script_Execute. cbv [bind deref ret panic].
  destruct sc as [sc|]; [|discriminate]. simpl.
  destruct (Name sc) as [name|]; [|discriminate]. simpl. intros _.
  exists name.
  destruct (ExecuteScript_history (client sc) name args w) as [Hc _].
  destruct (ExecuteScript (client sc) name args w) as [[o1 w1] h1].
  exact Hc.
Qed.

(** The second half of the bridge, when it does not end on a failure: an
    update or none, then the execute. *)
Lemma compareAndExecute_done s script args w res err :
  outcome (compareAndExecute s script args w) = Done (res, err) ->
  err = None \/ res <> None ->
  exists name,
    calls (history (compareAndExecute s script args w))
    = [OpExecute name args]
    \/ calls (history (compareAndExecute s script args w))
       = [OpUpdate (desired s); OpExecute name args].
Proof.
  unfold compareAndExecute. cbv [bind deref ret panic].
  destruct script as [remote|]; [|discriminate]. simpl.
  destruct (Content remote) as [rc|]; [|discriminate]. simpl.
  destruct (Content s) as [dc|]; [|discriminate]. simpl.
  destruct (negb (rc =? dc)%string).
  - destruct (UpdateScript_history (client s) (desired s) w) as [Hc _].
    destruct (UpdateScript (client s) (desired s) w)
      as [[[[b [ue|]]| |] w1] h1]; unfold history in Hc; simpl in Hc;
      simpl; try discriminate.
    + intros H [He|Hr]; inversion H; subst; congruence.
    + intros H _.
      destruct (Script_Execute b args w1) as [[o2 w2] h2] eqn:ES.
      unfold outcome in H. simpl in H. subst o2.
      destruct (@Script_Execute_done b args w1 (res, err)) as [name Hn];
        [rewrite ES; reflexivity|].
      rewrite ES in Hn. unfold history in Hn. simpl in Hn.
      exists name. right. unfold history. simpl.
      rewrite calls_app, Hc, Hn. reflexivity.
  - intros H _.
    destruct (Script_Execute (Some remote) args w) as [[o2 w2] h2] eqn:ES.
    unfold outcome in H. simpl in H. subst o2.
    destruct (@Script_Execute_done (Some remote) args w (res, err))
      as [name Hn]; [rewrite ES; reflexivity|].
    rewrite ES in Hn. unfold history in Hn. simpl in Hn.
    exists name. left. unfold history. simpl.
    exact Hn.
Qed.

(** The bridge calls get first. *)
Lemma bridge_get_first (s0 : Script) name args w :
  Name s0 = Some name ->
  exists rest,
    calls (history (ensureAndExecute (Some s0) args w)) = OpGet name :: rest.
Proof.
  intros HN.
  destruct (GetScript_history (client s0) name w) as [Hc _].
  destruct (GetScript (client s0) name w) as [[[[script gerr]| |] w1] h1]
    eqn:HG; unfold history in Hc; simpl in Hc.
  - rewrite (@ensureAndExecute_after_get s0 name args w script gerr w1 h1
               HN HG).
    unfold history at 1. simpl. eexists.
    rewrite calls_app, Hc. reflexivity.
  - unfold ensureAndExecute. cbv [bind deref ret]. rewrite HN. simpl.
    rewrite HG. exists []. exact Hc.
  - unfold ensureAndExecute. cbv [bind deref ret]. rewrite HN. simpl.
    rewrite HG. exists []. exact Hc.
Qed.

(** A run of the bridge that returns a result, or no error, ends with the
    execute. *)
Lemma bridge_done (s0 : Script) name args w res err :
  Name s0 = Some name ->
  outcome (ensureAndExecute (Some s0) args w) = Done (res, err) ->
  err = None \/ res <> None ->
  exists name',
    calls (history (ensureAndExecute (Some s0) args w))
    = [OpGet name; OpExecute name' args]
    \/ calls (history (ensureAndExecute (Some s0) args w))
       = [OpGet name; OpCreate (desired s0); OpExecute name' args]
    \/ calls (history (ensureAndExecute (Some s0) args w))
       = [OpGet name; OpUpdate (desired s0); OpExecute name' args].
Proof.
  intros HN.
  destruct (GetScript_history (client s0) name w) as [Hc _].
  destruct (GetScript (client s0) name w) as [[[[script gerr]| |] w1] h1]
    eqn:HG; unfold history in Hc; simpl in Hc.
  - rewrite (@ensureAndExecute_after_get s0 name args w script gerr w1 h1
               HN HG).
    unfold outcome at 1, history at 1 4 7. simpl.
    destruct gerr as [ge|].
    + destruct (CreateScript_history (client s0) (desired s0) w1)
        as [Hc2 _].
      unfold bind.
      destruct (CreateScript (client s0) (desired s0) w1)
        as [[[[b [ce|]]| |] w2] h2] eqn:EC;
        unfold history in Hc2; simpl in Hc2; simpl; try discriminate.
      * intros H [He|Hr]; inversion H; subst; congruence.
      * destruct (CreateScript_ok _ _ _ EC)
          as (s' & nm & ct & nx & Hs' & _ & Hct & -> & _).
        unfold desired in Hs'. inversion Hs'; subst s'. simpl in Hct.
        match goal with
        | |- context [compareAndExecute s0 ?b args w2] => set (b0 := b) in *
        end.
        intros H Hok.
        destruct (compareAndExecute_history s0 b0 args w2)
          as (_ & _ & Hsame).
        destruct (Hsame _ eq_refl eq_refl) as [Ho _].
        destruct (@compareAndExecute_done s0 b0 args w2 res err)
          as [nm' Hn].
        { destruct (compareAndExecute s0 b0 args w2) as [[o3 w3] h3].
          exact H. }
        { exact Hok. }
        destruct (compareAndExecute s0 b0 args w2) as [[o3 w3] h3].
        unfold history in Hn, Ho. simpl in Hn, Ho.
        exists nm'. right. left. simpl.
        rewrite !calls_app, Hc, Hc2. simpl.
        destruct Hn as [Hn|Hn]; rewrite Hn in *; [reflexivity|discriminate].
    + intros H Hok.
      destruct (@compareAndExecute_done s0 script args w1 res err)
        as [nm' Hn].
      { destruct (compareAndExecute s0 script args w1) as [[o3 w3] h3].
        exact H. }
      { exact Hok. }
      destruct (compareAndExecute s0 script args w1) as [[o3 w3] h3].
      unfold history in Hn. simpl in Hn.
      exists nm'. simpl. rewrite !calls_app, Hc. simpl.
      destruct Hn as [Hn|Hn]; rewrite Hn; auto.
  - unfold ensureAndExecute. cbv [bind deref ret]. rewrite HN. simpl.
    rewrite HG. discriminate.
  - unfold ensureAndExecute. cbv [bind deref ret]. rewrite HN. simpl.
    rewrite HG. discriminate.
Qed.

(** The calls of the ephemeral invoker, by what its create returned. *)
Lemma ephemeral_calls (e : EphemeralScript) (sc : Script) args w :
  esScript e = Some sc ->
  let name := fst (uuid_New w) in
  let d := Some (mkScript (String_ name) (Content sc) ScriptTypeGroovy None) in
  let c := CreateScript (client sc) d (snd (uuid_New w)) in
  let he := history (EphemeralScript_Execute e args w) in
  (forall b, outcome c = Done (b, None) ->
     calls he = [OpCreate d; OpExecute name args; OpDelete name])
  /\ ((forall b, outcome c <> Done (b, None)) -> calls he = [OpCreate d]).
Proof.
  intros He. cbv zeta.
  unfold EphemeralScript_Execute. rewrite He.
  cbv [bind deref ret lift]. simpl.
  destruct (uuid_New w) as [name w0]. simpl.
  set (d := Some (mkScript (String_ name) (Content sc) ScriptTypeGroovy None)).
  destruct (CreateScript_history (client sc) d w0) as [Hc _].
  destruct (CreateScript (client sc) d w0)
    as [[[[b [ce|]]| |] w1] h1] eqn:EC;
    unfold history in Hc; simpl in Hc; unfold outcome; simpl.
  - split; [intros b' H; discriminate|]. intros _.
    unfold history. simpl. rewrite app_nil_r. exact Hc.
  - split; [|intros H; exfalso; apply (H b); reflexivity]. intros _ _.
    destruct (CreateScript_ok _ _ _ EC)
      as (s' & nm & ct & nx & Hs' & _ & _ & -> & Hnx).
    subst d. inversion Hs'; subst s'. clear Hs'.
    unfold defer_, Script_Execute, Script_Delete. cbv [bind deref ret].
    simpl.
    destruct (ExecuteScript_history (client sc) name args w1) as [Hc2 _].
    destruct (ExecuteScript (client sc) name args w1) as [[o2 w2] h2].
    destruct (DeleteScript_history (client sc) name w2) as [Hc3 _].
    destruct (DeleteScript (client sc) name w2) as [[o3 w3] h3].
    unfold history in *. simpl in *.
    destruct o2, o3; simpl; rewrite ?app_nil_r, ?app_nil_l;
      rewrite ?calls_app, ?Hc, ?Hc2, ?Hc3; reflexivity.
  - split; [intros b' H; discriminate|]. intros _.
    unfold history. simpl. exact Hc.
  - split; [intros b' H; discriminate|]. intros _.
    unfold history. simpl. exact Hc.
Qed.

(** C9, as the code has it. A run of the bridge makes at most three calls
    and three round trips, in the order get, then at most one of create and
    update (never both), then execute. With a script that has a name the get
    is always the first call; a run that returns a result, or no error, is
    get, execute or get, create, execute or get, update, execute, and ends
    with the execute; a run is shorter only when it is cut short by a step
    that fails. A run of the ephemeral invoker on a script that is not nil
    calls create first; when create returns no error its calls are exactly
    create, execute, delete, in that order and on the generated name, delete
    last, whatever execute does; when create returns an error or panics,
    create is its only call: neither execute nor delete is attempted. *)
Theorem call_order (s : option Script) (e : EphemeralScript)
  (args : option Arg) (w : World) :
  let rb := ensureAndExecute s args w in
  let re := EphemeralScript_Execute e args w in
  let hb := history rb in
  let he := history re in
  bridge_order (calls hb) = true
  /\ List.length (calls hb) <= 3 /\ List.length (sent hb) <= 3
  /\ ephemeral_order (calls he) = true
  /\ List.length (sent he) <= 3
  /\ (forall s0 name,
        s = Some s0 -> Name s0 = Some name ->
        (exists rest, calls hb = OpGet name :: rest)
        /\ (forall res err,
              outcome rb = Done (res, err) -> err = None \/ res <> None ->
              exists name',
                calls hb = [OpGet name; OpExecute name' args]
                \/ calls hb
                   = [OpGet name; OpCreate (desired s0);
                      OpExecute name' args]
                \/ calls hb
                   = [OpGet name; OpUpdate (desired s0);
                      OpExecute name' args]))
  /\ (forall sc,
        esScript e = Some sc ->
        let name := fst (uuid_New w) in
        let d := Some (mkScript (String_ name) (Content sc) ScriptTypeGroovy
                         None) in
        let c := CreateScript (client sc) d (snd (uuid_New w)) in
        (forall b, outcome c = Done (b, None) ->
           calls he = [OpCreate d; OpExecute name args; OpDelete name])
        /\ ((forall b, outcome c <> Done (b, None)) ->
            calls he = [OpCreate d])).
Proof.
  cbv zeta.
  destruct (call_bounds s e args w) as (H1 & H2 & H3 & H4 & H5).
  repeat (split; [assumption|]). split.
  - intros s0 name -> HN. split.
    + apply bridge_get_first. exact HN.
    + intros res err. apply bridge_done. exact HN.
  - intros sc He. exact (ephemeral_calls e args w He).
Qed.

(** C1, as the code has it. The bridge calls create exactly when its get
    returned an error, whatever the error (a missing script, a transport or
    a permission failure alike): create is then the call right after the
    get; when the get succeeded no create is called. When create itself
    fails, its error is returned and nothing is called after it, no execute
    in particular. *)
Theorem create_iff_get_fails (s : Script) (name : string) (args : option Arg)
  (w w1 : World) (script : option Script) (gerr : option error)
  (h1 : list Event) :
  Name s = Some name ->
  GetScript (client s) name w = (Done (script, gerr), w1, h1) ->
  let run := ensureAndExecute (Some s) args w in
  match gerr with
  | Some _ =>
      count is_create (history run) = 1
      /\ (exists rest,
            calls (history run) = OpGet name :: OpCreate (desired s) :: rest)
      /\ (forall b cerr w2 h2,
            CreateScript (client s) (desired s) w1
            = (Done (b, Some cerr), w2, h2) ->
            run = (Done (None, Some cerr), w2, (h1 ++ h2)%list)
            /\ calls (history run) = [OpGet name; OpCreate (desired s)])
  | None => count is_create (history run) = 0
  end.
Proof.
  intros HN HG. cbv zeta.
  rewrite (@ensureAndExecute_after_get s name args w script gerr w1 h1 HN HG).
  destruct (GetScript_history (client s) name w) as [Hc _].
  rewrite HG in Hc. unfold history in Hc. simpl in Hc.
  destruct gerr as [ge|].
  - destruct (CreateScript_history (client s) (desired s) w1) as [Hc2 _].
    destruct (CreateScript (client s) (desired s) w1)
      as [[o2 w2] h2] eqn:EC. unfold history in Hc2. simpl in Hc2.
    assert (Hcalls : exists rest,
               calls (history (bind (fun _ => (o2, w2, h2))
                  (fun r => match r with
                            | (b, Some e) => ret (None, Some e)
                            | (b, None) => compareAndExecute s b args
                            end) w1))
               = OpCreate (desired s) :: rest
               /\ List.filter is_create rest = []).
    { unfold bind. destruct o2 as [[b [ce|]]| |]; simpl.
      - exists []. unfold history; simpl. rewrite app_nil_r. auto.
      - destruct (CreateScript_ok _ _ _ EC)
          as (s' & nm & ct & nx & Hs' & _ & Hct & -> & _).
        unfold desired in Hs'. inversion Hs'; subst s'. simpl in Hct.
        destruct (compareAndExecute_history s
                    (Some (with_client
                             (mkScript (Name s) (Content s) (Type_ s) None)
                             (client s))) args w2) as (_ & _ & Hsame).
        destruct (Hsame _ eq_refl eq_refl) as [Ho _].
        destruct (compareAndExecute s _ args w2) as [[o3 w3] h3].
        unfold history in *. simpl in *. rewrite calls_app, Hc2. simpl.
        exists (calls h3). split; [reflexivity|].
        destruct (calls h3) as [|[] [|]]; simpl in *; congruence.
      - exists []. unfold history; simpl. auto.
      - exists []. unfold history; simpl. auto. }
    destruct Hcalls as (rest & Hrest & Hfil).
    unfold bind in Hrest |- *. rewrite EC in *.
    unfold count, history in *. simpl. rewrite calls_app, Hc. simpl.
    simpl in Hrest. rewrite Hrest. simpl. rewrite Hfil.
    split; [reflexivity|]. split; [exists rest; reflexivity|].
    intros b cerr w2' h2' Heq. inversion Heq; subst. simpl.
    cbv [ret] in Hrest. simpl in Hrest. rewrite app_nil_r, Hc2 in Hrest.
    inversion Hrest; subst rest.
    rewrite ?app_nil_r. split; reflexivity.
  - destruct (compareAndExecute_history s script args w1) as (Ho & _ & _).
    destruct (compareAndExecute s script args w1) as [[o3 w3] h3].
    unfold count, history in *. simpl in *. rewrite calls_app, Hc. simpl.
    destruct (calls h3) as [|[] [|[] [|]]]; simpl in *; congruence.
Qed.

(** C2. When the get succeeds, the bridge compares the remote body with the
    desired one as texts. Equal: no update is called, the remote script is
    executed at once. Different: exactly one update is called, right after
    the get and with the desired name, body and type; if it fails its error
    is returned and no execute is called, otherwise the updated script is
    executed. *)
Theorem drift_triggers_update (s remote : Script) (name rc dc : string)
  (args : option Arg) (w w1 : World) (h1 : list Event) :
  Name s = Some name -> Content s = Some dc ->
  GetScript (client s) name w = (Done (Some remote, None), w1, h1) ->
  Content remote = Some rc ->
  let run := ensureAndExecute (Some s) args w in
  (rc = dc ->
     let ex := Script_Execute (Some remote) args w1 in
     run = (outcome ex, world ex, (h1 ++ history ex)%list)
     /\ count is_update (history run) = 0)
  /\ (rc <> dc ->
      let up := UpdateScript (client s) (desired s) w1 in
      count is_update (history run) = 1
      /\ (exists rest,
            calls (history run) = OpGet name :: OpUpdate (desired s) :: rest
            /\ execute_order rest = true)
      /\ (forall b e, outcome up = Done (b, Some e) ->
            run = (Done (None, Some e), world up, (h1 ++ history up)%list)
            /\ count is_execute (history run) = 0)
      /\ (forall b, outcome up = Done (b, None) ->
            let ex := Script_Execute b args (world up) in
            run = (outcome ex, world ex,
                   (h1 ++ history up ++ history ex)%list))).
Proof.
  intros HN HD HG HR. cbv zeta.
  rewrite (@ensureAndExecute_after_get s name args w (Some remote) None w1 h1
             HN HG).
  destruct (GetScript_history (client s) name w) as [Hc _].
  rewrite HG in Hc. unfold history in Hc. simpl in Hc.
  split.
  - intros ->. rewrite (compareAndExecute_same s remote args w1 HR HD).
    split; [reflexivity|].
    destruct (Script_Execute_history (Some remote) args w1) as [Hc2 _].
    unfold count, history in *. simpl. rewrite calls_app, Hc. simpl.
    destruct Hc2 as [->|[nm ->]]; reflexivity.
  - intros Hne. rewrite (compareAndExecute_differ s remote args w1 HR HD Hne).
    destruct (UpdateScript_history (client s) (desired s) w1) as [Hc2 _].
    destruct (UpdateScript (client s) (desired s) w1)
      as [[o2 w2] h2] eqn:EU. unfold history in Hc2. simpl in Hc2.
    unfold bind. rewrite EU.
    destruct o2 as [[b [ue|]]| |]; unfold count, history, outcome, world;
      simpl.
    + rewrite app_nil_r, calls_app, Hc, Hc2. simpl.
      split; [reflexivity|]. split; [exists []; split; reflexivity|].
      split; [|intros b0 Hb; inversion Hb].
      intros b0 e0 Hb. inversion Hb; subst. split; reflexivity.
    + destruct (Script_Execute_history b args w2) as [Hc3 _].
      destruct (Script_Execute b args w2) as [[o3 w3] h3] eqn:ES.
      unfold history in Hc3. simpl in *.
      rewrite !calls_app, Hc, Hc2. simpl.
      split; [destruct Hc3 as [->|[nm ->]]; reflexivity|].
      split; [exists (calls h3); split;
              [reflexivity|destruct Hc3 as [->|[nm ->]]; reflexivity]|].
      split; [intros b0 e0 Hb; inversion Hb|].
      intros b0 Hb. inversion Hb; subst. rewrite ES. reflexivity.
    + rewrite calls_app, Hc, Hc2. simpl.
      split; [reflexivity|]. split; [exists []; split; reflexivity|].
      split; intros; discriminate.
    + rewrite calls_app, Hc, Hc2. simpl.
      split; [reflexivity|]. split; [exists []; split; reflexivity|].
      split; intros; discriminate.
Qed.

(** ExecuteScript when the server answers the run request with an error
    status: the body of the answer is decoded as an execution result. *)
Lemma ExecuteScript_error_status (n : Nexus) name args payload w resp w1 :
  marshalScriptArgs args = (payload, None) ->
  url_Parse (executeURL n name) = None ->
  http_NewRequest "POST" (url_String (executeURL n name) None) = None ->
  client_Do (executeRequest n name payload) w = (inl resp, w1) ->
  (300 <= StatusCode resp)%Z ->
  ExecuteScript (Some n) name args w
  = (match JSON.Unmarshal_ExecuteScriptResponse (respBody resp) with
     | (res, Some e) => Done (res, Some e)
     | (Some r, None) =>
         match Result r with
         | Some text => Done (Some r, Some (errorString text))
         | None => Panic
         end
     | (None, None) => Panic
     end, w1,
     [Called (OpExecute name args); Sent (executeRequest n name payload)]).
Proof.
  intros HM HU HR HD HS.
  unfold ExecuteScript, NewRequest, Do. rewrite HM.
  cbv [bind ret emit deref panic roundTrip]. simpl.
  unfold executeRequest, executeURL in HU, HR, HD. simpl in HU, HR, HD.
  rewrite HU, HR. simpl. rewrite HD. simpl.
  apply Z.geb_le in HS. rewrite HS. simpl.
  destruct (JSON.Unmarshal_ExecuteScriptResponse (respBody resp))
    as [[r|] [e|]]; simpl; try reflexivity.
  destruct (Result r); reflexivity.
Qed.

(** C3. When the server answers the run request with an error status and
    the body {"name":"x","result":"boom"}, ExecuteScript returns an error
    whose message is exactly boom; when the body of such an answer does not
    decode as an execution result, ExecuteScript returns the decoder's
    error as it is. *)
Theorem execute_error_body (n : Nexus) (name : string) (args : option Arg)
  (payload : option string) (w w1 : World) (resp : Response) :
  marshalScriptArgs args = (payload, None) ->
  url_Parse (executeURL n name) = None ->
  http_NewRequest "POST" (url_String (executeURL n name) None) = None ->
  client_Do (executeRequest n name payload) w = (inl resp, w1) ->
  (300 <= StatusCode resp)%Z ->
  let run := ExecuteScript (Some n) name args w in
  (respBody resp = jq "{'name':'x','result':'boom'}" ->
     exists res e,
       outcome run = Done (res, Some e) /\ e = errorString "boom"
       /\ Error e = "boom")
  /\ (forall r perr,
        JSON.Unmarshal_ExecuteScriptResponse (respBody resp)
        = (r, Some perr) ->
        outcome run = Done (r, Some perr)).
Proof.
  intros HM HU HR HD HS. cbv zeta.
  rewrite (ExecuteScript_error_status n name args w HM HU HR HD HS).
  unfold outcome. simpl. split.
  - intros ->.
    exists (Some (mkExecuteScriptResponse (Some "x") (Some "boom"))),
           (errorString "boom").
    repeat split.
  - intros r perr ->. destruct r; reflexivity.
Qed.

(** C10. When the server answers the run request with an error status and
    a body that is JSON but gives no result field, the body {} or null for
    instance, ExecuteScript does not return: it panics on the nil pointer
    it dereferences to build the error message. *)
Theorem execute_error_body_without_result (n : Nexus) (name : string)
  (args : option Arg) (payload : option string) (w w1 : World)
  (resp : Response) :
  marshalScriptArgs args = (payload, None) ->
  url_Parse (executeURL n name) = None ->
  http_NewRequest "POST" (url_String (executeURL n name) None) = None ->
  client_Do (executeRequest n name payload) w = (inl resp, w1) ->
  (300 <= StatusCode resp)%Z ->
  let run := ExecuteScript (Some n) name args w in
  (respBody resp = "{}" \/ respBody resp = "null" -> outcome run = Panic)
  /\ (forall res,
        JSON.Unmarshal_ExecuteScriptResponse (respBody resp) = (res, None) ->
        match res with
        | Some r => Result r = None
        | None => True
        end ->
        outcome run = Panic).
Proof.
  intros HM HU HR HD HS. cbv zeta.
  rewrite (ExecuteScript_error_status n name args w HM HU HR HD HS).
  unfold outcome. simpl. split.
  - intros [-> | ->]; reflexivity.
  - intros res -> Hres. destruct res as [r|]; [rewrite Hres|]; reflexivity.
Qed.

(** C7, as the code has it. CreateScript rejects a script whose name or
    body is absent (a nil pointer) with the error "Script instance must
    contain a name and content", before any request: nothing is sent and the
    world is as before. A name and a body that are present, the empty string
    included, pass the check, and the request is sent to the server. *)
Theorem create_rejects_absent_fields (n : option Nexus) (s : Script)
  (w : World) :
  (Name s = None \/ Content s = None ->
     CreateScript n (Some s) w
     = (Done (None, Some must_contain), w, [Called (OpCreate (Some s))]))
  /\ (forall nx name content payload,
        n = Some nx -> Name s = Some name -> Content s = Some content ->
        json_Marshal_Script s = inl payload ->
        url_Parse (createURL nx) = None ->
        http_NewRequest "POST" (url_String (createURL nx) None) = None ->
        sent (history (CreateScript n (Some s) w))
        = [createRequest nx payload]).
Proof.
  split.
  - intros H. unfold CreateScript. cbv [bind ret emit deref]. simpl.
    destruct H as [H|H]; rewrite H; [|destruct (Name s)]; reflexivity.
  - intros nx name content payload -> HN HC HM HU HR.
    unfold CreateScript, NewRequest, Do.
    cbv [bind ret emit deref panic roundTrip history]. simpl.
    rewrite HN, HC, HM. simpl.
    unfold createRequest, createURL in *. simpl in HU, HR.
    rewrite HU, HR. simpl.
    repeat (break_match; simpl); reflexivity.
Qed.

Context {os : OS} {codecs : Codecs}.













(** C5. When the server answers a walk by N pages (N >= 1) of which exactly
    the last has no continuation token, and the callback answers every page
    with cont = true and no error, ListAssetsPages and ListComponentsPages
    return no error after calling the callback exactly N times, once per
    page and in page order, with last = true on the final call and false on
    all others; the items handed over are those of the pages, in order; N
    pages are fetched. Fuel N is enough. *)
Theorem pages_traversed :
  (forall n cb input w w' pages fuel,
      AssetsWalk n cb input w pages w' ->
      List.length pages <= fuel ->
      exists h,
        ListAssetsPages fuel n (Some input) cb w = (Done None, w', h)
        /\ handledAssets h = flagged pages
        /\ List.length (handledAssets h) = List.length pages
        /\ List.concat (List.map (fun x => larItems (fst x))
                          (handledAssets h))
           = List.concat (List.map larItems pages)
        /\ count is_fetch h = List.length pages)
  /\ (forall n cb input w w' pages fuel,
        ComponentsWalk n cb input w pages w' ->
        List.length pages <= fuel ->
        exists h,
          ListComponentsPages fuel n (Some input) cb w = (Done None, w', h)
          /\ handledComponents h = flagged pages
          /\ List.length (handledComponents h) = List.length pages
          /\ List.concat (List.map (fun x => lcrItems (fst x))
                            (handledComponents h))
             = List.concat (List.map lcrItems pages)
          /\ count is_fetch h = List.length pages).
Proof.
  split; intros n cb input w w' pages fuel HW Hf.
  - eapply AssetsWalk_run in HW; [|exact Hf].
    destruct HW as (h & Hrun & Hh & Hc).
    exists h. rewrite Hh. repeat split; auto.
    + rewrite <- (flagged_fst pages) at 2. symmetry. apply length_map.
    + rewrite <- (flagged_fst pages) at 2. rewrite map_map. reflexivity.
  - eapply ComponentsWalk_run in HW; [|exact Hf].
    destruct HW as (h & Hrun & Hh & Hc).
    exists h. rewrite Hh. repeat split; auto.
    + rewrite <- (flagged_fst pages) at 2. symmetry. apply length_map.
    + rewrite <- (flagged_fst pages) at 2. rewrite map_map. reflexivity.
Qed.

(** C6. In a turn of ListAssetsPages whose page has a continuation token,
    a callback that answers cont = false without error ends the traversal
    at once: no error is returned and no further page is fetched. In a turn
    whose page has no token, the traversal ends whatever cont the callback
    answers, and returns the callback's error, if any. *)
Theorem early_stop (n : option Nexus) (input : option ListAssetsInput)
  (cb : AssetsCallback) (w w1 : World) (p : ListAssetsResponse)
  (h1 : list Event) (fuel : nat) :
  ListAssets n input w = (Done (Some p, None), w1, h1) ->
  let run := ListAssetsPages (S fuel) n input cb w in
  (forall p' w2,
      larContinuationToken p <> None ->
      cb p false w1 = ((p', false, None), w2) ->
      run = (Done None, w2, (h1 ++ [HandledAssets p false])%list)
      /\ count is_fetch (history run) = 1)
  /\ (forall p' cont err w2,
        larContinuationToken p = None ->
        cb p true w1 = ((p', cont, err), w2) ->
        run = (Done err, w2, (h1 ++ [HandledAssets p true])%list)
        /\ count is_fetch (history run) = 1).
Proof.
  intros HL. cbv zeta. erewrite ListAssetsPages_step by exact HL.
  destruct (ListAssets_history n input w) as (Hc & _ & _).
  rewrite HL in Hc. unfold history in Hc. simpl in Hc.
  split.
  - intros p' w2 Ht Hcb.
    destruct (larContinuationToken p) as [tok|]; [|congruence].
    rewrite Hcb. split; [reflexivity|].
    unfold count, history. simpl. rewrite calls_app, Hc. reflexivity.
  - intros p' cont err w2 Ht Hcb. rewrite Ht, Hcb.
    split; [reflexivity|].
    unfold count, history. simpl. rewrite calls_app, Hc. reflexivity.
Qed.

End Claims.

(** ** Concrete runs against the scripted server *)

Section Runs.
Import Demo.

(** A bridge run on the empty registry and an ephemeral run, both served
    well: get, create, execute, and create, execute, delete. *)
Lemma call_order_witness :
  let wb := server [reply 404 ""; reply 204 ""; reply 200 one] in
  let we := server [reply 204 ""; reply 200 one; reply 204 ""] in
  let name := "6ba7b810-9dad-11d1-80b4-00c04fd430c8" in
  (exists name',
      calls (history (ensureAndExecute (Some p1) None wb))
      = [OpGet "p1"; OpExecute name' None]
      \/ calls (history (ensureAndExecute (Some p1) None wb))
         = [OpGet "p1"; OpCreate (desired p1); OpExecute name' None]
      \/ calls (history (ensureAndExecute (Some p1) None wb))
         = [OpGet "p1"; OpUpdate (desired p1); OpExecute name' None])
  /\ calls (history (EphemeralScript_Execute (mkEphemeralScript (Some p1))
                       None we))
     = [OpCreate (Some (mkScript (Some name) (Some "return 1")
                          ScriptTypeGroovy None));
        OpExecute name None; OpDelete name].
Proof.
  cbv zeta. split.
  - destruct (@call_order demo (Some p1) (mkEphemeralScript None) None
                (server [reply 404 ""; reply 204 ""; reply 200 one]))
      as (_ & _ & _ & _ & _ & Hb & _).
    exact (proj2 (Hb p1 "p1" eq_refl eq_refl) _ _ eq_refl
             (or_introl eq_refl)).
  - destruct (@call_order demo None (mkEphemeralScript (Some p1)) None
                (server [reply 204 ""; reply 200 one; reply 204 ""]))
      as (_ & _ & _ & _ & _ & _ & He).
    exact (proj1 (He p1 eq_refl) _ eq_refl).
Defined.

(** A create answered 500 cuts both runs short: the bridge calls get and
    create and no execute, the ephemeral invoker calls create and neither
    execute nor delete. *)
Lemma calls_cut_short_by_failed_create :
  let rb := ensureAndExecute (Some p1) None
              (server [reply 404 ""; reply 500 ""]) in
  let re := EphemeralScript_Execute (mkEphemeralScript (Some p1)) None
              (server [reply 500 ""]) in
  calls (history rb) = [OpGet "p1"; OpCreate (desired p1)]
  /\ count is_execute (history rb) = 0
  /\ calls (history re)
     = [OpCreate (Some (mkScript
                          (Some "6ba7b810-9dad-11d1-80b4-00c04fd430c8")
                          (Some "return 1") ScriptTypeGroovy None))]
  /\ count is_execute (history re) = 0
  /\ count is_delete (history re) = 0.
Proof.
  cbv zeta. repeat split.
Qed.

(** A run of the bridge whose get is answered 404: create is called, then
    execute (the scenario of the empty registry). *)
Lemma create_iff_get_fails_witness :
  let w := server [reply 404 ""; reply 204 ""; reply 200 one] in
  let run := ensureAndExecute (Some p1) None w in
  outcome (GetScript nexus "p1" w) = Done (None, Some (scriptNotFound "p1"))
  /\ count is_create (history run) = 1
  /\ outcome run
     = Done (Some (mkExecuteScriptResponse (Some "p1") (Some "1")), None).
Proof.
  cbv zeta. split; [reflexivity|]. split; [|reflexivity].
  exact (proj1 (@create_iff_get_fails demo p1 "p1" None
                  (server [reply 404 ""; reply 204 ""; reply 200 one])
                  _ _ _ _ eq_refl eq_refl)).
Defined.

(** A get answered 403 is followed by a create all the same, and the run
    ends well: the permission error is not what the caller gets. *)
Lemma get_forbidden_then_create :
  let w := server [reply 403 ""; reply 204 ""; reply 200 one] in
  let run := ensureAndExecute (Some p1) None w in
  let forbidden :=
    errorString ("GET http://localhost:8081/service/rest/v1/script/p1"
                 ++ " returned a status code of 403") in
  outcome (GetScript nexus "p1" w) = Done (None, Some forbidden)
  /\ forbidden <> scriptNotFound "p1"
  /\ ~ (count is_create (history run) = 0
        /\ outcome run = Done (None, Some forbidden)).
Proof.
  cbv zeta. split; [reflexivity|]. split; [discriminate|].
  intros [H _]. vm_compute in H. discriminate.
Qed.

(** The remote body "return 2" differs from the desired "return 1": one
    update, then the execute. *)
Lemma drift_triggers_update_witness :
  let w := server [reply 200 (stored "return 2"); reply 204 "";
                   reply 200 one] in
  let run := ensureAndExecute (Some p1) None w in
  "return 2" <> "return 1"
  /\ count is_update (history run) = 1
  /\ calls (history run)
     = [OpGet "p1"; OpUpdate (desired p1); OpExecute "p1" None].
Proof.
  cbv zeta. split; [discriminate|]. split; [|reflexivity].
  refine (proj1 (proj2 (@drift_triggers_update demo p1
                          (mkScript (Some "p1") (Some "return 2")
                             (Some "groovy") nexus)
                          "p1" "return 2" "return 1" None
                          (server [reply 200 (stored "return 2");
                                   reply 204 ""; reply 200 one])
                          _ _ eq_refl eq_refl eq_refl eq_refl) _)).
  discriminate.
Defined.

(** The error body of the scenario: the error is boom. *)
Lemma execute_error_body_witness :
  exists res,
    outcome (ExecuteScript nexus "x" None (server [reply 400 boom]))
    = Done (res, Some (errorString "boom")).
Proof.
  destruct (proj1 (@execute_error_body demo
                     (mkNexus "http://localhost:8081" "admin" "admin123")
                     "x" None None (server [reply 400 boom]) (server [])
                     (mkResponse 400 boom None)
                     eq_refl eq_refl eq_refl eq_refl
                     ltac:(simpl; lia)) eq_refl)
    as (res & e & Hrun & -> & _).
  exists res. exact Hrun.
Defined.

(** An ephemeral run whose script raises and whose delete is answered 500:
    the delete is called once, its failure is not what the caller gets. *)
Lemma ephemeral_cleanup_witness :
  let w := server [reply 204 ""; reply 400 boom; reply 500 ""] in
  let run := EphemeralScript_Execute (mkEphemeralScript (Some p1)) None w in
  count is_delete (history run) = 1
  /\ outcome run
     = Done (Some (mkExecuteScriptResponse (Some "x") (Some "boom")),
             Some (errorString "boom")).
Proof.
  cbv zeta. split; [|reflexivity].
  exact (proj2 (proj2 (proj2
           (@ephemeral_cleanup demo (mkEphemeralScript (Some p1)) p1 None
              "6ba7b810-9dad-11d1-80b4-00c04fd430c8"
              (server [reply 204 ""; reply 400 boom; reply 500 ""])
              _ _ _ None _ eq_refl eq_refl eq_refl)))).
Defined.

(** The listing of the scenario: two pages, [a, b] with a token and [c]
    without, for assets and for components. *)
Lemma pages_traversed_witness :
  let w := server [reply 200 page1; reply 200 page2] in
  let w' := mkWorld [] ["a"; "b"; "c"] in
  (exists h,
      ListAssetsPages 2 nexus (Some (mkListAssetsInput (Some "my-repo") None))
        gatherAssets w = (Done None, w', h)
      /\ handledAssets h = flagged assetsPages)
  /\ (exists h,
        ListComponentsPages 2 nexus
          (Some (mkListComponentsInput (Some "my-repo") None))
          gatherComponents w = (Done None, w', h)
        /\ handledComponents h = flagged componentsPages).
Proof.
  cbv zeta. split.
  - destruct (proj1 (@pages_traversed demo) nexus gatherAssets
                (mkListAssetsInput (Some "my-repo") None)
                (server [reply 200 page1; reply 200 page2])
                (mkWorld [] ["a"; "b"; "c"]) assetsPages 2)
      as (h & Hrun & Hh & _).
    + simpl. do 4 eexists. split; [reflexivity|].
      split; [discriminate|]. split; [reflexivity|].
      do 4 eexists. split; [reflexivity|].
      split; [reflexivity|]. split; reflexivity.
    + simpl. lia.
    + exists h. split; assumption.
  - destruct (proj2 (@pages_traversed demo) nexus gatherComponents
                (mkListComponentsInput (Some "my-repo") None)
                (server [reply 200 page1; reply 200 page2])
                (mkWorld [] ["a"; "b"; "c"]) componentsPages 2)
      as (h & Hrun & Hh & _).
    + simpl. do 4 eexists. split; [reflexivity|].
      split; [discriminate|]. split; [reflexivity|].
      do 4 eexists. split; [reflexivity|].
      split; [reflexivity|]. split; reflexivity.
    + simpl. lia.
    + exists h. split; assumption.
Defined.

(** A callback that stops on the first page, which has a token: one fetch,
    no error; the second page is never asked for. *)
Lemma early_stop_witness :
  let w := server [reply 200 page1; reply 200 page2] in
  let run := ListAssetsPages 2 nexus
               (Some (mkListAssetsInput (Some "my-repo") None))
               stopAssets w in
  outcome run = Done None /\ count is_fetch (history run) = 1
  /\ world run = server [reply 200 page2].
Proof.
  cbv zeta.
  destruct (proj1 (@early_stop demo nexus
                     (Some (mkListAssetsInput (Some "my-repo") None))
                     stopAssets
                     (server [reply 200 page1; reply 200 page2])
                     _ _ _ 1 eq_refl) _ _
                  ltac:(discriminate) eq_refl) as [Hrun Hcount].
  split; [rewrite Hrun; reflexivity|]. split; [exact Hcount|].
  rewrite Hrun. reflexivity.
Defined.

(** A script without a name is turned down before anything is sent; p1,
    which has a name and a body, is sent. *)
Lemma create_rejects_absent_fields_witness :
  let s := mkScript None (Some "return 1") ScriptTypeGroovy None in
  let w := server [reply 204 ""] in
  CreateScript nexus (Some s) w
  = (Done (None, Some must_contain), w, [Called (OpCreate (Some s))])
  /\ List.length (sent (history (CreateScript nexus (Some p1) w))) = 1.
Proof.
  cbv zeta. split.
  - exact (proj1 (@create_rejects_absent_fields demo nexus
                    (mkScript None (Some "return 1") ScriptTypeGroovy None)
                    (server [reply 204 ""]))
             (or_introl eq_refl)).
  - rewrite (proj2 (@create_rejects_absent_fields demo nexus p1
                      (server [reply 204 ""]))
               _ _ _ _ eq_refl eq_refl eq_refl eq_refl eq_refl eq_refl).
    reflexivity.
Defined.

(** A script with the empty string for name and body goes to the server. *)
Lemma create_empty_name_reaches_server :
  let s := mkScript (Some "") (Some "") ScriptTypeGroovy None in
  let run := CreateScript nexus (Some s) (server [reply 204 ""]) in
  Name s = Some "" /\ Content s = Some ""
  /\ List.length (sent (history run)) = 1
  /\ outcome run <> Done (None, Some must_contain).
Proof.
  cbv zeta. repeat split. discriminate.
Qed.



(** The error body {}: the run panics. *)
Lemma execute_error_body_without_result_witness :
  outcome (ExecuteScript nexus "x" None (server [reply 500 "{}"])) = Panic
  /\ outcome (ExecuteScript nexus "x" None (server [reply 500 "null"]))
     = Panic.
Proof.
  split.
  - exact (proj1 (@execute_error_body_without_result demo
                    (mkNexus "http://localhost:8081" "admin" "admin123")
                    "x" None None (server [reply 500 "{}"]) (server [])
                    (mkResponse 500 "{}" None)
                    eq_refl eq_refl eq_refl eq_refl ltac:(simpl; lia))
             (or_introl eq_refl)).
  - exact (proj1 (@execute_error_body_without_result demo
                    (mkNexus "http://localhost:8081" "admin" "admin123")
                    "x" None None (server [reply 500 "null"]) (server [])
                    (mkResponse 500 "null" None)
                    eq_refl eq_refl eq_refl eq_refl ltac:(simpl; lia))
             (or_intror eq_refl)).
Defined.

End Runs.


(** * Further properties of the package

    What the rest of the code does, read off the functions themselves: the
    client, the script operations beside the bridge, the registry and the
    repository listing, single assets and components, the validation of an
    upload, and the blob stores that go through the bridge. *)

Section ClientFacts.
Context {rt : Runtime} {os : OS} {codecs : Codecs}.

(** X1. Do makes exactly one round trip with the request it is given and
    returns; the error is nil exactly when the server answered with a status
    code below 300 and the body was read without error; with a status code
    of 300 or more the body is nil and the error is not. *)
Theorem Do_error_iff (nx : Nexus) (req : Request)
  (statusMap : option (list (Z * string))) (resToErr : bool) (w : World) :
  let run := Do (Some nx) (Some req) statusMap resToErr w in
  exists body err,
    run = (Done (body, err), snd (client_Do req w), [Sent req])
    /\ (err = None <->
        exists resp, fst (client_Do req w) = inl resp
                     /\ (StatusCode resp < 300)%Z
                     /\ respReadErr resp = None)
    /\ (forall resp, fst (client_Do req w) = inl resp ->
          (300 <= StatusCode resp)%Z -> body = None /\ err <> None).
Proof.
  cbv zeta. unfold Do. cbv [bind ret deref roundTrip]. simpl.
  destruct (client_Do req w) as [[resp|e] w1]; simpl.
  - destruct (StatusCode resp >=? 300)%Z eqn:ES.
    + assert (HS : (300 <= StatusCode resp)%Z) by (apply Z.geb_le; exact ES).
      assert (Hno : forall err : option error,
                 err <> None ->
                 (err = None <->
                  exists resp0, inl resp = inl resp0 (B:=error)
                     /\ (StatusCode resp0 < 300)%Z
                     /\ respReadErr resp0 = None)).
      { intros err Hne. split; [intros; congruence|].
        intros (r0 & Hr & Hlt & _). inversion Hr; subst. lia. }
      destruct resToErr; [|destruct statusMap as [m|];
                           [destruct (lookup (StatusCode resp) m)|]];
        simpl; do 2 eexists; (split; [reflexivity|]);
        (split; [apply Hno; discriminate|]);
        (intros; split; [reflexivity|discriminate]).
    + assert (HS : (StatusCode resp < 300)%Z).
      { destruct (Z.ltb_spec (StatusCode resp) 300); [assumption|].
        apply Z.geb_le in H. congruence. }
      do 2 eexists. split; [reflexivity|]. split.
      * split.
        -- intros Hr. exists resp. auto.
        -- intros (r0 & Hr & _ & Hread). inversion Hr; subst. exact Hread.
      * intros r0 Hr Hge. inversion Hr; subst. lia.
  - do 2 eexists. split; [reflexivity|]. split.
    + split; [discriminate|]. intros (r0 & Hr & _). discriminate.
    + intros r0 Hr. discriminate.
Qed.

(** X2. The error Do makes of an answer with a status code of 300 or more:
    with resToErr the text is the body of the answer; otherwise it is the
    text the status map has for the code, passed to fmt.Errorf as a format;
    without such an entry (or without a map) it is the safety-belt text made
    of the method, the URL and the code. *)
Theorem Do_error_text (nx : Nexus) (req : Request)
  (statusMap : option (list (Z * string))) (resToErr : bool)
  (w w1 : World) (resp : Response) :
  client_Do req w = (inl resp, w1) ->
  (300 <= StatusCode resp)%Z ->
  outcome (Do (Some nx) (Some req) statusMap resToErr w)
  = Done (None,
          Some (errorString
                  (if resToErr then respBody resp
                   else match statusMap with
                        | Some m =>
                            match lookup (StatusCode resp) m with
                            | Some status => fmt_Sprintf0 status
                            | None =>
                                reqMethod req ++ " "
                                ++ url_String (reqURL req) (reqArgs req)
                                ++ " returned a status code of "
                                ++ itoa (StatusCode resp)
                            end
                        | None =>
                            reqMethod req ++ " "
                            ++ url_String (reqURL req) (reqArgs req)
                            ++ " returned a status code of "
                            ++ itoa (StatusCode resp)
                        end))).
Proof.
  intros HD HS. unfold Do. cbv [bind ret deref roundTrip outcome]. simpl.
  rewrite HD. simpl. apply Z.geb_le in HS. rewrite HS.
  destruct resToErr; [reflexivity|].
  destruct statusMap as [m|]; [|reflexivity].
  destruct (lookup (StatusCode resp) m); reflexivity.
Qed.

End ClientFacts.


Section ScriptFacts.
Context {rt : Runtime} {os : OS} {codecs : Codecs}.

Lemma bind_ret_l {A B} (a : A) (f : A -> M B) (w : World) :
  bind (ret a) f w = f a w.
Proof. unfold bind, ret. destruct (f a w) as [[o w1] h1]. reflexivity. Qed.

Local Arguments Z.eqb _ _ : simpl never.
Local Arguments Z.geb _ _ : simpl never.

(** X3. A create the server answers with a status code of 300 or more
    returns no script: for 500 the error says that a script of this name
    already exists and to use UpdateScript, whatever the server's reason
    was; for any other code it is the safety-belt text. One request was
    sent. *)
Theorem CreateScript_error_status (nx : Nexus) (s : Script)
  (name content payload : string) (w w1 : World) (resp : Response) :
  Name s = Some name -> Content s = Some content ->
  json_Marshal_Script s = inl payload ->
  url_Parse (createURL nx) = None ->
  http_NewRequest "POST" (url_String (createURL nx) None) = None ->
  client_Do (createRequest nx payload) w = (inl resp, w1) ->
  (300 <= StatusCode resp)%Z ->
  CreateScript (Some nx) (Some s) w
  = (Done (None,
           Some (errorString
                   (if (StatusCode resp =? 500)%Z
                    then fmt_Sprintf0
                           ("Script with name " ++ name
                            ++ " already exists, use UpdateScript instead")
                    else "POST " ++ url_String (createURL nx) None
                         ++ " returned a status code of "
                         ++ itoa (StatusCode resp)))),
     w1, [Called (OpCreate (Some s)); Sent (createRequest nx payload)]).
Proof.
  intros HN HC HM HU HR HD HS.
  rewrite (Z.eqb_sym (StatusCode resp) 500).
  unfold CreateScript, NewRequest, Do, createRequest, createURL in *.
  cbv [bind ret emit deref roundTrip]. simpl. rewrite HN, HC, HM. simpl.
  simpl in HU, HR, HD.
  rewrite HU, HR. simpl. rewrite HD. simpl.
  apply Z.geb_le in HS. rewrite HS. simpl.
  destruct (500 =? StatusCode resp)%Z; reflexivity.
Qed.

Lemma UpdateScript_bound n script w b w1 h1 :
  UpdateScript n script w = (Done (b, None), w1, h1) ->
  exists s name content nx,
    script = Some s /\ Name s = Some name /\ Content s = Some content
    /\ b = Some (with_client s n) /\ n = Some nx.
Proof.
  unfold UpdateScript, NewRequest, Do.
  cbv [bind ret emit deref panic lift roundTrip].
  repeat (break_match; simpl); intros H; inversion H; subst;
    try discriminate.
  all: do 4 eexists; repeat split; eauto.
Qed.

(** X4. The script CreateScript or UpdateScript returns without error is a
    copy of the name, body and type given, bound to the client that was
    called, which is not nil: its Execute is ExecuteScript of that client
    with the name, its Delete is DeleteScript with the name. *)
Theorem created_script_is_usable (n : option Nexus) (s : Script)
  (w w1 : World) (b : option Script) (h1 : list Event) :
  CreateScript n (Some s) w = (Done (b, None), w1, h1)
  \/ UpdateScript n (Some s) w = (Done (b, None), w1, h1) ->
  exists name nx,
    n = Some nx /\ Name s = Some name
    /\ b = Some (mkScript (Name s) (Content s) (Type_ s) n)
    /\ (forall args w', Script_Execute b args w' = ExecuteScript n name args w')
    /\ (forall w', Script_Delete b w' = DeleteScript n name w').
Proof.
  intros H.
  assert (Hok : exists s' name content nx,
             Some s = Some s' /\ Name s' = Some name
             /\ Content s' = Some content
             /\ b = Some (with_client s' n) /\ n = Some nx).
  { destruct H as [H|H];
      [eapply CreateScript_ok|eapply UpdateScript_bound]; eassumption. }
  destruct Hok as (s' & name & content & nx & Hs & HN & _ & -> & Hn).
  inversion Hs; subst s'. exists name, nx.
  split; [exact Hn|]. split; [exact HN|]. split; [reflexivity|].
  split; intros.
  - unfold Script_Execute, deref. rewrite bind_ret_l. simpl. rewrite HN.
    rewrite bind_ret_l. reflexivity.
  - unfold Script_Delete, deref. rewrite bind_ret_l. simpl. rewrite HN.
    rewrite bind_ret_l. reflexivity.
Qed.

(** X5. A GetScript that returns no error had a receiver that is not nil,
    sent the get request for the name and was answered with a status code
    below 300 and a body read without error; the script it returns is what
    that body decodes to, with the client set to the receiver. Its name is
    the one in the body, not the one asked for. *)
Theorem GetScript_returns_bound (n : option Nexus) (name : string)
  (w w1 : World) (res : option Script) (h1 : list Event) :
  GetScript n name w = (Done (res, None), w1, h1) ->
  exists nx resp s,
    n = Some nx
    /\ client_Do (mkRequest "GET"
                    (host nx ++ "/" ++ "service/rest/v1/script/" ++ name)
                    None None "application/json" (username nx, password nx))
         w = (inl resp, w1)
    /\ (StatusCode resp < 300)%Z /\ respReadErr resp = None
    /\ JSON.Unmarshal_Script (respBody resp) = (Some s, None)
    /\ res = Some (mkScript (Name s) (Content s) (Type_ s) n).
Proof.
  unfold GetScript, NewRequest, Do.
  cbv [bind ret emit deref panic lift roundTrip].
  repeat (break_match; simpl); intros H; inversion H; subst;
    try discriminate.
  all: do 3 eexists; split; [reflexivity|]; split; [eassumption|].
  all: split; [|split; [assumption|split; [eassumption|reflexivity]]].
  all: match goal with
       | E : (StatusCode ?r >=? 300)%Z = false |- _ =>
           destruct (Z.geb_spec (StatusCode r) 300); [discriminate|lia]
       end.
Qed.

(** X6. An execute the server answers with a status code below 300 returns
    what the body decodes to, result and decoding error, after one call and
    one request; nil arguments are sent as a nil payload. *)
Theorem ExecuteScript_success (n : Nexus) (name : string) (args : option Arg)
  (payload : option string) (w w1 : World) (resp : Response) :
  marshalScriptArgs args = (payload, None) ->
  url_Parse (executeURL n name) = None ->
  http_NewRequest "POST" (url_String (executeURL n name) None) = None ->
  client_Do (executeRequest n name payload) w = (inl resp, w1) ->
  (StatusCode resp < 300)%Z ->
  respReadErr resp = None ->
  ExecuteScript (Some n) name args w
  = (Done (JSON.Unmarshal_ExecuteScriptResponse (respBody resp)), w1,
     [Called (OpExecute name args); Sent (executeRequest n name payload)])
  /\ (args = None -> payload = None).
Proof.
  intros HM HU HR HD HS HE. split.
  - unfold ExecuteScript, NewRequest, Do. rewrite HM.
    cbv [bind ret emit deref panic roundTrip]. simpl.
    unfold executeRequest, executeURL in HU, HR, HD. simpl in HU, HR, HD.
    rewrite HU, HR. simpl. rewrite HD. simpl.
    assert (HS' : (StatusCode resp >=? 300)%Z = false).
    { destruct (StatusCode resp >=? 300)%Z eqn:E; [|reflexivity].
      apply Z.geb_le in E. lia. }
    rewrite HS'. simpl. rewrite HE. simpl.
    destruct (JSON.Unmarshal_ExecuteScriptResponse (respBody resp))
      as [r e]. reflexivity.
  - intros ->. simpl in HM. inversion HM. reflexivity.
Qed.

(** X7. Arguments encoding/json cannot marshal end ExecuteScript before the
    receiver is touched: the marshalling error is returned as it is, nothing
    is sent and the world is unchanged, even for a nil client. *)
Theorem ExecuteScript_marshal_failure (n : option Nexus) (name : string)
  (a : Arg) (e : error) (w : World) :
  json_Marshal_Arg a = inr e ->
  ExecuteScript n name (Some a) w
  = (Done (None, Some e), w, [Called (OpExecute name (Some a))]).
Proof.
  intros HM. unfold ExecuteScript, marshalScriptArgs. rewrite HM.
  reflexivity.
Qed.

(** X8. When the round trip of an execute fails, the text of the transport
    error is handed to the JSON decoder: if it is not JSON, the caller gets
    the decoder's syntax error and no result, and the transport error is
    lost. *)
Theorem ExecuteScript_transport_failure (n : Nexus) (name : string)
  (args : option Arg) (payload : option string) (w w1 : World) (e : error) :
  marshalScriptArgs args = (payload, None) ->
  url_Parse (executeURL n name) = None ->
  http_NewRequest "POST" (url_String (executeURL n name) None) = None ->
  client_Do (executeRequest n name payload) w = (inr e, w1) ->
  JSON.parse (Error e) = None ->
  outcome (ExecuteScript (Some n) name args w)
  = Done (None, Some (SyntaxError (json_syntax_msg (Error e)))).
Proof.
  intros HM HU HR HD HP.
  unfold ExecuteScript, NewRequest, Do. rewrite HM.
  cbv [bind ret emit deref panic roundTrip outcome]. simpl.
  unfold executeRequest, executeURL in HU, HR, HD. simpl in HU, HR, HD.
  rewrite HU, HR. simpl. rewrite HD. simpl.
  unfold JSON.Unmarshal_ExecuteScriptResponse, JSON.Unmarshal_struct.
  rewrite HP. reflexivity.
Qed.

End ScriptFacts.


Section BridgeFacts.
Context {rt : Runtime} {os : OS} {codecs : Codecs}.

Lemma GetScript_returns n name w :
  outcome (GetScript n name w) <> OutOfFuel.
Proof.
  unfold GetScript, NewRequest, Do.
  cbv [bind ret emit deref panic lift roundTrip outcome].
  repeat (break_match; simpl); discriminate.
Qed.

(** X9. The bridge with a script that has no body never updates and never
    executes: it panics, or it returns the error of CreateScript about name
    and content, with at most one request sent. *)
Theorem ensureAndExecute_without_content (s : Script) (args : option Arg)
  (w : World) :
  Content s = None ->
  let run := ensureAndExecute (Some s) args w in
  (outcome run = Panic \/ outcome run = Done (None, Some must_contain))
  /\ count is_update (history run) = 0
  /\ count is_execute (history run) = 0
  /\ List.length (sent (history run)) <= 1.
Proof.
  intros HC. cbv zeta.
  destruct (Name s) as [name|] eqn:HN.
  - destruct (GetScript_history (client s) name w) as [Hc Hn].
    destruct (GetScript (client s) name w)
      as [[[[script gerr]| |] w1] h1] eqn:HG;
      unfold history in Hc, Hn; simpl in Hc, Hn.
    + rewrite (@ensureAndExecute_after_get rt s name args w script gerr w1 h1
                 HN HG).
      destruct gerr as [ge|].
      * assert (HCr : CreateScript (client s) (desired s) w1
                      = (Done (None, Some must_contain), w1,
                         [Called (OpCreate (desired s))])).
        { unfold CreateScript, desired. cbv [bind ret emit deref]. simpl.
          rewrite HN, HC. reflexivity. }
        unfold bind. rewrite HCr. unfold outcome, history, count. simpl.
        rewrite !calls_app, !sent_app, !length_app, Hc. simpl.
        repeat split; auto. lia.
      * unfold compareAndExecute. cbv [bind ret deref panic].
        rewrite HC. unfold outcome, history, count.
        destruct script as [remote|]; simpl;
          [destruct (Content remote); simpl|];
          rewrite ?app_nil_r, ?Hc; simpl; repeat split; auto.
    + unfold ensureAndExecute. cbv [bind ret deref]. rewrite HN. simpl.
      rewrite HG. unfold outcome, history, count. simpl. rewrite Hc.
      repeat split; auto.
    + unfold ensureAndExecute. cbv [bind ret deref]. rewrite HN. simpl.
      rewrite HG. unfold outcome, history, count. simpl. rewrite Hc.
      repeat split; auto.
      exfalso. apply (GetScript_returns (client s) name w).
      rewrite HG. reflexivity.
  - unfold ensureAndExecute. cbv [bind ret deref panic]. rewrite HN.
    unfold outcome, history, count. simpl. repeat split; auto.
Qed.

Lemma GetScript_client n name w remote w1 h1 :
  GetScript n name w = (Done (Some remote, None), w1, h1) ->
  client remote = n.
Proof.
  unfold GetScript, NewRequest, Do.
  cbv [bind ret emit deref panic lift roundTrip].
  repeat (break_match; simpl); intros H; inversion H; subst;
    try discriminate; reflexivity.
Qed.

(** X10. When the get succeeds and the remote body is the desired one, the
    bridge is the get followed by ExecuteScript under the name the server's
    answer carries, which need not be the name asked for; an answer without
    a name panics after the get. *)
Theorem bridge_executes_remote_name (s remote : Script) (name c : string)
  (args : option Arg) (w w1 : World) (h1 : list Event) :
  Name s = Some name -> Content s = Some c ->
  GetScript (client s) name w = (Done (Some remote, None), w1, h1) ->
  Content remote = Some c ->
  ensureAndExecute (Some s) args w
  = match Name remote with
    | Some rname =>
        let ex := ExecuteScript (client s) rname args w1 in
        (outcome ex, world ex, (h1 ++ history ex)%list)
    | None => (Panic, w1, h1)
    end.
Proof.
  intros HN HC HG HR.
  rewrite (@ensureAndExecute_after_get rt s name args w (Some remote) None
             w1 h1 HN HG).
  rewrite (compareAndExecute_same s remote args w1 HR HC).
  pose proof (GetScript_client _ _ _ HG) as Hcl.
  unfold Script_Execute. cbv [bind ret deref panic]. simpl. rewrite Hcl.
  destruct (Name remote) as [rname|]; simpl.
  - destruct (ExecuteScript (client s) rname args w1) as [[o2 w2] h2].
    reflexivity.
  - unfold outcome, world, history. simpl. rewrite app_nil_r. reflexivity.
Qed.

(** X11. An ephemeral execution depends on the body of the script only: two
    scripts of the same body, whatever their name, type and client, give the
    same run. *)
Theorem ephemeral_ignores_name_and_type (n : option Nexus) (s1 s2 : Script)
  (args : option Arg) (w : World) :
  Content s1 = Content s2 ->
  bind (NewEphemeralScript n (Some s1))
    (fun e => EphemeralScript_Execute e args) w
  = bind (NewEphemeralScript n (Some s2))
      (fun e => EphemeralScript_Execute e args) w.
Proof.
  intros HC. unfold NewEphemeralScript, EphemeralScript_Execute.
  cbv [bind ret deref lift]. simpl. rewrite HC. reflexivity.
Qed.

Lemma bindScripts_run n xs w :
  (exists ys, bindScripts n xs w = (Done ys, w, [])
              /\ Forall (fun y => exists s,
                           y = Some (mkScript (Name s) (Content s) (Type_ s)
                                       n)) ys
              /\ ~ In None xs)
  \/ (bindScripts n xs w = (Panic, w, []) /\ In None xs).
Proof.
  induction xs as [|[s|] xs IH]; simpl.
  - left. exists []. repeat split; auto.
  - cbv [bind ret deref]. destruct IH as [(ys & -> & HF & Hn)|[-> Hi]].
    + left. eexists. split; [reflexivity|]. split.
      * constructor; [exists s; reflexivity|exact HF].
      * intros [H|H]; [discriminate|auto].
    + right. split; [reflexivity|auto].
  - right. split; [reflexivity|auto].
Qed.

(** X12. ListScripts never returns a nil response when it returns; when it
    returns no error, every script of the response is bound to the
    receiver. *)
Theorem ListScripts_response (n : option Nexus) (w : World)
  (res : option ListScriptsResponse) (err : option error) :
  outcome (ListScripts n w) = Done (res, err) ->
  exists r,
    res = Some r
    /\ (err = None ->
        Forall (fun x => exists s,
                  x = Some (mkScript (Name s) (Content s) (Type_ s) n))
          (Scripts r)).
Proof.
  unfold ListScripts, NewRequest, Do.
  cbv [bind ret emit deref panic lift roundTrip outcome].
  repeat (match goal with
          | |- context [bindScripts ?n ?xs ?w] =>
              destruct (bindScripts_run n xs w)
                as [(? & -> & ? & ?)|[-> ?]]
          | _ => break_match
          end; simpl);
    intros Hrun; inversion Hrun; subst; try discriminate;
    eexists; (split; [reflexivity|]); intros; try discriminate; auto.
Qed.

(** X13. When the server answers the registry listing with a status code
    below 300 and a body read without error, ListScripts panics exactly when
    the body decodes without error to a list that has a nil element (a JSON
    null): the loop that binds the client dereferences it. When the decoder
    reports an error, that error is returned with the list decoded so far,
    nil elements included, and the loop is not reached. *)
Theorem ListScripts_null_element (nx : Nexus) (w w1 : World)
  (resp : Response) :
  url_Parse (host nx ++ "/" ++ "service/rest/v1/script") = None ->
  http_NewRequest "GET"
    (url_String (host nx ++ "/" ++ "service/rest/v1/script") None) = None ->
  client_Do (mkRequest "GET" (host nx ++ "/" ++ "service/rest/v1/script")
               None None "application/json" (username nx, password nx)) w
  = (inl resp, w1) ->
  (StatusCode resp < 300)%Z -> respReadErr resp = None ->
  let decoded := JSONSlice.Unmarshal_Scripts (respBody resp) in
  (outcome (ListScripts (Some nx) w) = Panic
   <-> snd decoded = None /\ In None (fst decoded))
  /\ (forall e, snd decoded = Some e ->
        outcome (ListScripts (Some nx) w)
        = Done (Some (mkListScriptsResponse (fst decoded)), Some e)).
Proof.
  intros HU HR HD HS HE. cbv zeta.
  unfold ListScripts, NewRequest, Do.
  cbv [bind ret emit deref panic roundTrip outcome]. simpl.
  simpl in HU, HR, HD. rewrite HU, HR. simpl. rewrite HD. simpl.
  assert (HS' : (StatusCode resp >=? 300)%Z = false).
  { destruct (StatusCode resp >=? 300)%Z eqn:E; [|reflexivity].
    apply Z.geb_le in E. lia. }
  rewrite HS'. simpl. rewrite HE. simpl.
  destruct (JSONSlice.Unmarshal_Scripts (respBody resp)) as [xs [e|]];
    simpl.
  - split.
    + split; [discriminate|]. intros [Hn _]. discriminate.
    + intros e' He. inversion He; subst. reflexivity.
  - split; [|discriminate].
    destruct (bindScripts_run (Some nx) xs w1)
      as [(ys & -> & _ & Hn)|[-> Hi]]; simpl.
    + split; [discriminate|]. intros [_ Hi]. contradiction.
    + split; auto.
Qed.

Lemma decode_elems_shape {T} (zero : T) store type_ js :
  List.map (fun r => match r with None => true | Some _ => false end)
    (fst (JSONSlice.decode_elems zero store type_ js))
  = List.map (fun j => match j with JSON.JNull => true | _ => false end) js.
Proof.
  induction js as [|j js IH]; simpl; [reflexivity|].
  destruct (JSONSlice.decode_elem zero store type_ j) as [x e1] eqn:E.
  destruct (JSONSlice.decode_elems zero store type_ js) as [xs e2].
  simpl in *. rewrite IH. f_equal.
  unfold JSONSlice.decode_elem in E.
  destruct j; inversion E; try reflexivity.
  destruct (JSON.decode_members store members zero). inversion H0.
  reflexivity.
Qed.

(** X14. ListRepositories of a JSON list returns one entry per element, in
    order, nil exactly where the element is null, also when some element
    fails to decode. *)
Theorem ListRepositories_entries (nx : Nexus) (w w1 : World)
  (resp : Response) (js : list JSON.json) :
  url_Parse (host nx ++ "/" ++ "service/rest/v1/repositories") = None ->
  http_NewRequest "GET"
    (url_String (host nx ++ "/" ++ "service/rest/v1/repositories") None)
  = None ->
  client_Do (mkRequest "GET"
               (host nx ++ "/" ++ "service/rest/v1/repositories")
               None None "application/json" (username nx, password nx)) w
  = (inl resp, w1) ->
  (StatusCode resp < 300)%Z -> respReadErr resp = None ->
  JSON.parse (respBody resp) = Some (JSON.JArray js) ->
  exists rs err,
    outcome (ListRepositories (Some nx) w) = Done (rs, err)
    /\ List.length rs = List.length js
    /\ List.map (fun r => match r with None => true | Some _ => false end) rs
       = List.map (fun j => match j with JSON.JNull => true | _ => false end)
           js.
Proof.
  intros HU HR HD HS HE HP.
  unfold ListRepositories, NewRequest, Do.
  cbv [bind ret emit deref panic roundTrip outcome]. simpl.
  simpl in HU, HR, HD. rewrite HU, HR. simpl. rewrite HD. simpl.
  assert (HS' : (StatusCode resp >=? 300)%Z = false).
  { destruct (StatusCode resp >=? 300)%Z eqn:E; [|reflexivity].
    apply Z.geb_le in E. lia. }
  rewrite HS'. simpl. rewrite HE. simpl.
  unfold Unmarshal_Repositories, JSONSlice.Unmarshal_slice. rewrite HP.
  pose proof (decode_elems_shape (mkRepository None None None None)
                store_Repository "nexus.Repository" js) as Hshape.
  destruct (JSONSlice.decode_elems _ _ _ js) as [rs err]. simpl in Hshape.
  exists rs, err. split; [reflexivity|]. split; [|exact Hshape].
  apply (f_equal (@List.length bool)) in Hshape.
  rewrite !length_map in Hshape. exact Hshape.
Qed.

(** X15. ListRepositories of a client that is not nil always returns: unlike
    ListScripts it dereferences nothing of what the server sent. *)
Theorem ListRepositories_never_panics (nx : Nexus) (w : World) :
  exists rs err, outcome (ListRepositories (Some nx) w) = Done (rs, err).
Proof.
  unfold ListRepositories, NewRequest, Do.
  cbv [bind ret emit deref panic roundTrip outcome].
  repeat (break_match; simpl); do 2 eexists;
    try reflexivity; f_equal; apply surjective_pairing.
Qed.

End BridgeFacts.


Section ItemFacts.
Context {rt : Runtime} {os : OS} {codecs : Codecs}.

(** X16. The four operations on one asset or component turn down an input
    without an ID before the receiver is touched and before anything is
    sent, so also on a nil client; GetComponent's text names GetAsset. *)
Theorem ID_is_required (n : option Nexus) (w : World) :
  let input := Some (mkIDInput None) in
  GetAsset n input w
  = (Done (None, Some (errorString "Asset ID is required for GetAsset")),
     w, [])
  /\ DeleteAsset n input w
     = (Done (Some (errorString "Asset ID is required for DeleteAsset")),
        w, [])
  /\ GetComponent n input w
     = (Done (None,
              Some (errorString "Component ID is required for GetAsset")),
        w, [])
  /\ DeleteComponent n input w
     = (Done (Some (errorString
                      "Component ID is required for DeleteComponent")),
        w, []).
Proof. repeat split. Qed.

Lemma strip_app old rest : JSON.strip old (old ++ rest) = Some rest.
Proof.
  induction old as [|c old IH]; simpl; [reflexivity|].
  rewrite Ascii.eqb_refl. exact IH.
Qed.

Lemma cut_first_prefix old rest : cut_first old (old ++ rest) = rest.
Proof.
  pose proof (strip_app old rest) as H.
  destruct (old ++ rest) as [|c s]; simpl; rewrite H; reflexivity.
Qed.

(** X17. Download strips the host from the download URL and hands the rest
    to NewRequest, which puts the host and a slash in front again: for a
    download URL that is the host followed by rest, the request goes to
    host, slash, rest (two slashes when rest starts with one), and the
    result is Do's for that request. *)
Theorem Download_requests (a : Asset) (nx : Nexus) (rest : string)
  (w : World) :
  DownloadURL a = Some (host nx ++ rest) ->
  assetClient a = Some nx ->
  url_Parse (host nx ++ "/" ++ rest) = None ->
  http_NewRequest "GET" (url_String (host nx ++ "/" ++ rest) None) = None ->
  Asset_Download (Some a) w
  = Do (Some nx)
      (Some (mkRequest "GET" (host nx ++ "/" ++ rest) None None
               "application/json" (username nx, password nx)))
      None false w.
Proof.
  intros HD HC HU HR. unfold Asset_Download, NewRequest.
  cbv [bind ret deref]. rewrite HD, HC. simpl.
  rewrite cut_first_prefix. simpl in HU, HR. rewrite HU, HR. simpl.
  destruct (Do _ _ None false w) as [[o w1] h1]. reflexivity.
Qed.

Lemma bindAssets_run n xs w :
  (exists ys, bindAssets n xs w = (Done ys, w, [])
              /\ Forall (fun y => exists a, y = Some a /\ assetClient a = n)
                   ys)
  \/ bindAssets n xs w = (Panic, w, []).
Proof.
  induction xs as [|[a|] xs IH]; simpl.
  - left. exists []. split; auto.
  - cbv [bind ret deref]. destruct IH as [(ys & -> & HF)| -> ].
    + left. eexists. split; [reflexivity|].
      constructor; [eexists; split; reflexivity|exact HF].
    + right. reflexivity.
  - right. reflexivity.
Qed.

(** X18. Every asset ListAssets returns is non-nil and bound to the
    receiver, so that its Delete is DeleteAsset of the receiver with the
    asset's ID. *)
Theorem listed_assets_are_bound (n : option Nexus)
  (input : option ListAssetsInput) (w w1 : World) (r : ListAssetsResponse)
  (h1 : list Event) :
  ListAssets n input w = (Done (Some r, None), w1, h1) ->
  Forall (fun x => exists a, x = Some a /\ assetClient a = n) (larItems r)
  /\ (forall a w',
        In (Some a) (larItems r) ->
        Asset_Delete (Some a) w'
        = DeleteAsset n (Some (mkIDInput (assetID a))) w').
Proof.
  intros HL.
  assert (HF : Forall (fun x => exists a, x = Some a /\ assetClient a = n)
                 (larItems r)).
  { revert HL. unfold ListAssets, newListAssetsReq, NewRequest, Do.
    cbv [bind ret emit deref panic lift roundTrip].
    repeat (match goal with
            | |- context [bindAssets ?n ?i ?w] =>
                destruct (bindAssets_run n i w) as [(? & -> & ?)| -> ]
            | _ => break_match
            end; simpl);
      intros Hrun; inversion Hrun; subst; try discriminate; assumption. }
  split; [exact HF|].
  intros a w' Hin. rewrite Forall_forall in HF.
  destruct (HF _ Hin) as (a' & Ha & Hc). inversion Ha; subst a'.
  unfold Asset_Delete. cbv [deref]. rewrite bind_ret_l. rewrite Hc.
  reflexivity.
Qed.

Lemma bindComponents_run n xs w :
  (exists ys, bindComponents n xs w = (Done ys, w, [])
              /\ Forall (fun y => exists c,
                           y = Some c /\ compClient c = n
                           /\ Forall (fun x => exists a,
                                        x = Some a /\ assetClient a = n)
                                (compAssets c)) ys)
  \/ bindComponents n xs w = (Panic, w, []).
Proof.
  induction xs as [|[c|] xs IH]; simpl.
  - left. exists []. split; auto.
  - cbv [bind ret deref].
    destruct (bindAssets_run n (compAssets c) w) as [(as_ & -> & HA)| -> ];
      [|right; reflexivity].
    destruct IH as [(ys & -> & HF)| -> ].
    + left. eexists. split; [reflexivity|].
      constructor; [|exact HF]. eexists. repeat split. exact HA.
    + right. reflexivity.
  - right. reflexivity.
Qed.

(** X19. Every component ListComponents returns is non-nil and bound to the
    receiver, and so is every asset of every component. *)
Theorem listed_components_are_bound (n : option Nexus)
  (input : option ListComponentsInput) (w w1 : World)
  (r : ListComponentsResponse) (h1 : list Event) :
  ListComponents n input w = (Done (Some r, None), w1, h1) ->
  Forall (fun y => exists c,
            y = Some c /\ compClient c = n
            /\ Forall (fun x => exists a, x = Some a /\ assetClient a = n)
                 (compAssets c))
    (lcrItems r).
Proof.
  unfold ListComponents, newListComponentsReq, NewRequest, Do.
  cbv [bind ret emit deref panic lift roundTrip].
  repeat (match goal with
          | |- context [bindComponents ?n ?i ?w] =>
              destruct (bindComponents_run n i w) as [(? & -> & ?)| -> ]
          | _ => break_match
          end; simpl);
    intros Hrun; inversion Hrun; subst; try discriminate; assumption.
Qed.

(** X20. ListAssetsPages stops on the first error: an error of the listing
    is returned without the callback being called; an error the callback
    returns on a page that has a token is returned after that one fetch,
    whatever the callback says about going on. *)
Theorem traversal_stops_on_error (n : option Nexus)
  (input : option ListAssetsInput) (cb : AssetsCallback) (w w1 : World)
  (res : option ListAssetsResponse) (err : option error) (h1 : list Event)
  (fuel : nat) :
  ListAssets n input w = (Done (res, err), w1, h1) ->
  let run := ListAssetsPages (S fuel) n input cb w in
  (forall e, err = Some e ->
     run = (Done (Some e), w1, h1) /\ handledAssets (history run) = [])
  /\ (forall p p' cont e w2,
        res = Some p -> err = None -> larContinuationToken p <> None ->
        cb p false w1 = ((p', cont, Some e), w2) ->
        run = (Done (Some e), w2, (h1 ++ [HandledAssets p false])%list)
        /\ count is_fetch (history run) = 1).
Proof.
  intros HL. cbv zeta.
  destruct (ListAssets_history n input w) as (Hc & _ & Hh).
  rewrite HL in Hc, Hh. unfold history in Hc, Hh. simpl in Hc, Hh.
  split.
  - intros e ->. simpl. cbv [bind ret]. rewrite HL. simpl.
    rewrite app_nil_r. split; [reflexivity|exact Hh].
  - intros p p' cont e w2 -> -> Ht Hcb.
    erewrite ListAssetsPages_step by exact HL.
    destruct (larContinuationToken p) as [tok|]; [|congruence].
    rewrite Hcb. split; [destruct cont; reflexivity|].
    destruct cont; unfold count, history; simpl;
      rewrite calls_app, Hc; reflexivity.
Qed.

(** X21. The traversal has no bound of its own: against a server that always
    returns a token and a callback that always goes on, no number of steps
    ends it, and every step is one fetch and one call of the callback. *)
Theorem traversal_is_unbounded (n : option Nexus) (cb : AssetsCallback)
  (Inv : ListAssetsInput -> World -> Prop) :
  (forall input w, Inv input w ->
     exists p p' w1 h1 w2,
       ListAssets n (Some input) w = (Done (Some p, None), w1, h1)
       /\ larContinuationToken p <> None
       /\ cb p false w1 = ((p', true, None), w2)
       /\ Inv (mkListAssetsInput (laiRepository input)
                 (larContinuationToken p')) w2) ->
  forall fuel input w,
    Inv input w ->
    let run := ListAssetsPages fuel n (Some input) cb w in
    outcome run = OutOfFuel
    /\ List.length (handledAssets (history run)) = fuel
    /\ count is_fetch (history run) = fuel.
Proof.
  intros Hstep fuel. induction fuel as [|fuel IH]; intros input w HI.
  - cbv. auto.
  - cbv zeta. destruct (Hstep input w HI)
      as (p & p' & w1 & h1 & w2 & HL & Ht & Hcb & HI').
    erewrite ListAssetsPages_step by exact HL.
    destruct (ListAssets_history n (Some input) w) as (Hc & _ & Hh).
    rewrite HL in Hc, Hh. unfold history in Hc, Hh. simpl in Hc, Hh.
    destruct (larContinuationToken p) as [tok|]; [|congruence].
    rewrite Hcb. destruct (IH _ _ HI') as (Ho & Hl & Hf).
    unfold outcome, world, history, count in *. simpl.
    rewrite handledAssets_app, calls_app, Hh, Hc. simpl.
    rewrite Hl. simpl in Hf. rewrite Hf. auto.
Qed.

End ItemFacts.


Section UploadFacts.
Context {rt : Runtime} {os : OS} {codecs : Codecs}.

Lemma containsKey_spec dict k :
  containsKey dict k = true <-> exists v, In (k, v) dict.
Proof.
  induction dict as [|[k' v'] dict IH]; simpl.
  - split; [discriminate|intros [v []]].
  - destruct (String.eqb_spec k k') as [->|Hne].
    + split; [intros _; exists v'; auto|reflexivity].
    + rewrite IH. split.
      * intros [v Hv]. exists v. auto.
      * intros [v [Hv|Hv]]; [inversion Hv; congruence|exists v; exact Hv].
Qed.

(** X22. hasAllRequiredFields is true exactly when every required name is a
    key of the present map. *)
Theorem hasAllRequiredFields_spec (present : list (string * string))
  (required : list string) :
  hasAllRequiredFields present required = true
  <-> forall x, In x required -> exists v, In (x, v) present.
Proof.
  induction required as [|x required IH]; simpl.
  - split; [intros _ y []|reflexivity].
  - destruct (containsKey present x) eqn:E.
    + rewrite IH. apply containsKey_spec in E. split.
      * intros H y [<-|Hy]; auto.
      * intros H y Hy. apply H. auto.
    + split; [discriminate|]. intros H.
      assert (Hx : containsKey present x = true)
        by (apply containsKey_spec, H; auto).
      congruence.
Qed.

(** X23. UploadComponent turns down an input without assets, and an input
    with assets but without a component type, before the receiver is touched
    and before anything is sent. *)
Theorem upload_needs_assets_and_type (n : option Nexus)
  (i : UploadComponentInput) (w : World) :
  (uciAssets i = [] ->
     UploadComponent n (Some i) w = (Done (Some no_assets), w, []))
  /\ (uciAssets i <> [] -> ComponentType i = None ->
      UploadComponent n (Some i) w = (Done (Some no_type), w, [])).
Proof.
  split.
  - intros H. unfold UploadComponent, validateComponentFormat.
    cbv [bind ret deref]. rewrite H. reflexivity.
  - intros H HT. unfold UploadComponent, validateComponentFormat.
    cbv [bind ret deref]. rewrite HT.
    destruct (uciAssets i); [congruence|reflexivity].
Qed.

Lemma requiredComponentFields_optional fields w :
  Forall (fun x => exists fld, x = Some fld /\ fieldOptional fld = Some true)
    fields ->
  requiredComponentFields fields w = (Done [], w, []).
Proof.
  induction 1 as [|x fields (fld & -> & Ho) _ IH]; simpl; [reflexivity|].
  cbv [bind ret deref]. rewrite Ho. simpl. rewrite IH. reflexivity.
Qed.

(** X24. A format whose component fields are all optional still needs a
    component configuration: with none given, the validation fails with the
    error that lists the required component fields, and the list is
    empty. *)
Theorem optional_fields_still_need_config (n : option Nexus)
  (i : UploadComponentInput) (type_ : string) (f : Format) (w w1 : World)
  (h1 : list Event) :
  uciAssets i <> [] ->
  ComponentType i = Some type_ ->
  GetFormat n type_ w = (Done (Some f, None), w1, h1) ->
  ComponentFields f <> [] ->
  Forall (fun x => exists fld, x = Some fld /\ fieldOptional fld = Some true)
    (ComponentFields f) ->
  ComponentConfig i = None ->
  validateComponentFormat n (Some i) w
  = (Done (Some (requires_component type_ [])), w1, h1).
Proof.
  intros HA HT HG HF Hopt HC. unfold validateComponentFormat.
  cbv [bind ret deref].
  destruct (uciAssets i); [congruence|]. rewrite HT. cbv beta iota.
  rewrite HG. cbv beta iota.
  destruct (ComponentFields f); [congruence|]. cbv beta iota.
  rewrite (requiredComponentFields_optional w1 Hopt). rewrite HC. simpl.
  rewrite !app_nil_r. reflexivity.
Qed.

Lemma requiredComponentFields_run fields : forall w names w' h,
  requiredComponentFields fields w = (Done names, w', h) ->
  w' = w /\ h = []
  /\ forall fld name,
       In (Some fld) fields -> fieldOptional fld = Some false ->
       fieldName fld = Some name -> In name names.
Proof.
  induction fields as [|x fields IH]; intros w names w' h H; simpl in H.
  - inversion H; subst. repeat split; auto; intros ? ? [].

  - cbv [bind ret deref panic] in H.
    destruct x as [fld|]; [|discriminate].
    destruct (fieldOptional fld) as [[|]|] eqn:Ho; simpl in H;
      try discriminate.
    + destruct (requiredComponentFields fields w) as [[o w2] h2] eqn:E.
      simpl in H. inversion H; subst.
      destruct (IH _ _ _ _ E) as (-> & -> & Hin). repeat split; auto.
      intros fld' name [Heq|Hi] Hf Hn; [|eauto].
      inversion Heq; subst. congruence.
    + destruct (fieldName fld) as [nm|] eqn:Hn; [|discriminate].
      simpl in H.
      destruct (requiredComponentFields fields w) as [[[rest| |] w2] h2]
        eqn:E; inversion H; subst.
      destruct (IH _ _ _ _ E) as (-> & -> & Hin). repeat split; auto.
      intros fld' name [Heq|Hi] Hf Hn'.
      * inversion Heq; subst. left. congruence.
      * right. eauto.
Qed.

Lemma requiredAssetFields_run fields : forall w names w' h,
  requiredAssetFields fields w = (Done names, w', h) ->
  w' = w /\ h = []
  /\ forall fld name,
       In (Some fld) fields -> fieldOptional fld = Some false ->
       fieldName fld = Some name -> name <> "asset" -> In name names.
Proof.
  induction fields as [|x fields IH]; intros w names w' h H; simpl in H.
  - inversion H; subst. repeat split; auto; intros ? ? [].

  - cbv [bind ret deref panic] in H.
    destruct x as [fld|]; [|discriminate].
    destruct (fieldOptional fld) as [[|]|] eqn:Ho; simpl in H;
      try discriminate.
    + destruct (requiredAssetFields fields w) as [[o w2] h2] eqn:E.
      simpl in H. inversion H; subst.
      destruct (IH _ _ _ _ E) as (-> & -> & Hin). repeat split; auto.
      intros fld' name [Heq|Hi] Hf Hn; [|eauto].
      inversion Heq; subst. congruence.
    + destruct (fieldName fld) as [nm|] eqn:Hn; [|discriminate].
      simpl in H. destruct (String.eqb_spec nm "asset") as [->|Hne];
        simpl in H.
      * destruct (requiredAssetFields fields w) as [[o w2] h2] eqn:E.
        simpl in H. inversion H; subst.
        destruct (IH _ _ _ _ E) as (-> & -> & Hin). repeat split; auto.
        intros fld' name [Heq|Hi] Hf Hn' Hna; [|eauto].
        inversion Heq; subst. congruence.
      * destruct (requiredAssetFields fields w) as [[[rest| |] w2] h2]
          eqn:E; inversion H; subst.
        destruct (IH _ _ _ _ E) as (-> & -> & Hin). repeat split; auto.
        intros fld' name [Heq|Hi] Hf Hn' Hna.
        -- inversion Heq; subst. left. congruence.
        -- right. eauto.
Qed.

Lemma checkAssets_run type_ required assets : forall w w' h,
  checkAssets type_ required assets w = (Done None, w', h) ->
  w' = w /\ h = []
  /\ (required = []
      \/ forall a, In (Some a) assets ->
           exists config,
             AssetConfig a = Some config
             /\ hasAllRequiredFields config required = true).
Proof.
  induction assets as [|x assets IH]; intros w w' h H; simpl in H.
  - inversion H; subst. repeat split; auto; right; intros ? [].
  - destruct required as [|r required].
    + destruct (IH _ _ _ H) as (-> & -> & _). auto.
    + cbv [bind ret deref panic] in H.
      destruct x as [a|]; [|discriminate].
      destruct (AssetConfig a) as [config|] eqn:HC; cbv beta iota in H;
        [|discriminate].
      destruct (hasAllRequiredFields config (r :: required)) eqn:HH;
        cbv beta iota delta [negb] in H; [|discriminate].
      destruct (checkAssets type_ (r :: required) assets w)
        as [[o w2] h2] eqn:E. simpl in H. inversion H; subst.
      destruct (IH _ _ _ E) as (-> & -> & [Hr|Hall]); [discriminate|].
      repeat split; auto. right. intros a' [Heq|Hi]; [|auto].
      inversion Heq; subst. eauto.
Qed.

Lemma bind_inv {A B} (m : M A) (k : A -> M B) w b w1 h1 :
  bind m k w = (Done b, w1, h1) ->
  exists a w' h' h'',
    m w = (Done a, w', h') /\ k a w' = (Done b, w1, h'')
    /\ h1 = (h' ++ h'')%list.
Proof.
  unfold bind. intros H.
  destruct (m w) as [[[a| |] w'] h']; try discriminate.
  destruct (k a w') as [[o w2] h''] eqn:E. inversion H; subst.
  exists a, w', h', h''. auto.
Qed.

Lemma hasAllRequiredFields_keys config required name :
  hasAllRequiredFields config required = true ->
  In name required -> In name (List.map fst config).
Proof.
  induction required as [|x required IH]; simpl; [intros _ []|].
  destruct (containsKey config x) eqn:E; [|discriminate].
  intros Hh [<-|Hi]; [|auto].
  apply containsKey_spec in E. destruct E as [v Hv].
  apply (in_map fst) in Hv. exact Hv.
Qed.

(** X25. An upload that passes validateComponentFormat has a component type
    whose format was fetched, the name of every required component field of
    that format among the keys of its component configuration, and the name
    of every required asset field other than asset among the keys of the
    configuration of every asset. *)
Theorem validated_upload_has_required_fields (n : option Nexus)
  (i : UploadComponentInput) (w w1 : World) (h1 : list Event) :
  validateComponentFormat n (Some i) w = (Done None, w1, h1) ->
  exists type_ f,
    ComponentType i = Some type_
    /\ GetFormat n type_ w = (Done (Some f, None), w1, h1)
    /\ (forall fld name,
          In (Some fld) (ComponentFields f) ->
          fieldOptional fld = Some false -> fieldName fld = Some name ->
          exists config,
            ComponentConfig i = Some config /\ In name (List.map fst config))
    /\ (forall fld name a,
          In (Some fld) (AssetFields f) ->
          fieldOptional fld = Some false -> fieldName fld = Some name ->
          name <> "asset" -> In (Some a) (uciAssets i) ->
          exists config,
            AssetConfig a = Some config /\ In name (List.map fst config)).
Proof.
  intros H. unfold validateComponentFormat in H.
  apply bind_inv in H as (i' & w' & h' & h'' & Hd & H & ->).
  inversion Hd; subst i' w' h'. clear Hd. simpl.
  destruct (uciAssets i) as [|a0 assets] eqn:HA; [discriminate|].
  destruct (ComponentType i) as [type_|] eqn:HT; [|discriminate].
  apply bind_inv in H as ([format ge] & w2 & h2 & h3 & HG & H & ->).
  destruct ge as [e|]; [discriminate|].
  apply bind_inv in H as (f & w' & h' & h4 & Hd & H & ->).
  destruct format as [f'|]; [|discriminate].
  inversion Hd; subst f' w' h'. clear Hd.
  apply bind_inv in H as (err & w3 & h5 & h6 & HC & H & ->).
  exists type_, f. split; [reflexivity|].
  assert (Hcomp : w3 = w2 /\ h5 = [] /\ err = None
            /\ forall fld name,
                 In (Some fld) (ComponentFields f) ->
                 fieldOptional fld = Some false ->
                 fieldName fld = Some name ->
                 exists config,
                   ComponentConfig i = Some config
                   /\ In name (List.map fst config)).
  { destruct err as [e|]; [discriminate|].
    destruct (ComponentFields f) as [|c0 cs] eqn:HCF.
    - inversion HC; subst. repeat split; auto; intros ? ? [].
    - rewrite <- HCF in *.
      apply bind_inv in HC as (required & w4 & h7 & h8 & HR & HC & ->).
      destruct (requiredComponentFields_run _ _ HR) as (-> & -> & Hin).
      destruct (ComponentConfig i) as [config|]; [|discriminate].
      destruct (hasAllRequiredFields config required) eqn:HH;
        [|discriminate].
      inversion HC; subst. repeat split; auto.
      intros fld name Hi Ho Hn. exists config. split; [reflexivity|].
      eapply hasAllRequiredFields_keys; eauto. }
  destruct Hcomp as (-> & -> & -> & Hcomp).
  assert (Hasset : w1 = w2 /\ h6 = []
            /\ forall fld name a,
                 In (Some fld) (AssetFields f) ->
                 fieldOptional fld = Some false ->
                 fieldName fld = Some name -> name <> "asset" ->
                 In (Some a) (a0 :: assets) ->
                 exists config,
                   AssetConfig a = Some config
                   /\ In name (List.map fst config)).
  { destruct (AssetFields f) as [|f0 fs] eqn:HAF.
    - inversion H; subst. repeat split; auto; intros ? ? ? [].
    - rewrite <- HAF in *.
      apply bind_inv in H as (required & w4 & h7 & h8 & HR & H & ->).
      destruct (requiredAssetFields_run _ _ HR) as (-> & -> & Hin).
      destruct (checkAssets_run _ _ _ _ H) as (-> & -> & Hall).
      repeat split; auto.
      intros fld name a Hi Ho Hn Hna Ha.
      destruct Hall as [->|Hall].
      + exfalso. eapply Hin; eauto.
      + destruct (Hall a Ha) as (config & HCa & HH).
        exists config. split; [exact HCa|].
        eapply hasAllRequiredFields_keys; eauto. }
  destruct Hasset as (-> & -> & Hasset).
  rewrite !app_nil_r. simpl. repeat split; auto.
Qed.

End UploadFacts.


Section BlobStoreFacts.
Context {rt : Runtime} {os : OS} {codecs : Codecs}.

(** X26. DeleteBlobStore returns nil exactly when the bridge ran the
    deleting script without error and the script's result is any text other
    than not exists; the input itself is not looked at in that case. *)
Theorem DeleteBlobStore_succeeds_iff (n : option Nexus)
  (input : option DeleteBlobStoreInput) (w w1 : World) (h1 : list Event) :
  DeleteBlobStore n input w = (Done None, w1, h1)
  <-> exists r text,
        ensureAndExecute
          (Some (mkScript deleteBlobStoreScriptName deleteBlobStoreScript
                   ScriptTypeGroovy n))
          (Some (arg_DeleteBlobStoreInput input)) w
        = (Done (Some r, None), w1, h1)
        /\ Result r = Some text /\ text <> "not exists".
Proof.
  unfold DeleteBlobStore. split.
  - intros H.
    apply bind_inv in H as ([res err] & w2 & h2 & h3 & HB & H & ->).
    destruct err as [e|]; [discriminate|].
    cbv [bind ret deref panic] in H.
    destruct res as [r|]; [|discriminate].
    destruct (Result r) as [text|] eqn:HR; [|discriminate].
    destruct (String.eqb_spec text "not exists") as [->|Hne].
    + destruct input as [i|]; [|discriminate].
      destruct (dbsName i); discriminate.
    + inversion H; subst. rewrite app_nil_r in *.
      exists r, text. auto.
  - intros (r & text & HB & HR & Hne).
    erewrite bind_Done by exact HB.
    cbv [bind ret deref]. rewrite HR.
    destruct (String.eqb_spec text "not exists") as [->|_]; [congruence|].
    simpl. rewrite app_nil_r. reflexivity.
Qed.

Lemma findBlobStore_spec name stores : forall w,
  Forall (fun x => exists st cfg nm,
            x = Some st /\ Config st = Some cfg /\ cfgName cfg = Some nm)
    stores ->
  (exists pre st cfg post,
      stores = (pre ++ Some st :: post)%list
      /\ Config st = Some cfg /\ cfgName cfg = Some name
      /\ (forall st' cfg', In (Some st') pre -> Config st' = Some cfg' ->
            cfgName cfg' <> Some name)
      /\ findBlobStore name stores w = (Done (Some st, None), w, []))
  \/ ((forall st' cfg', In (Some st') stores -> Config st' = Some cfg' ->
         cfgName cfg' <> Some name)
      /\ findBlobStore name stores w
         = (Done (None,
                  Some (errorString
                          ("Blobstore " ++ name ++ " does not exist"))),
            w, [])).
Proof.
  intros w. induction 1 as [|x stores (st & cfg & nm & -> & HC & HN) _ IH].
  - right. split; [intros ? ? []|reflexivity].
  - simpl. cbv [bind ret deref]. rewrite HC, HN.
    destruct (String.eqb_spec nm name) as [->|Hne].
    + left. exists [], st, cfg, stores. simpl. repeat split; auto.
    + destruct IH as [(pre & st1 & cfg1 & post & -> & HC1 & HN1 & Hpre & HF)
                     |(Hall & HF)].
      * left. exists (Some st :: pre), st1, cfg1, post.
        rewrite HF. simpl. repeat split; auto.
        intros st' cfg' [Heq|Hi] HC'; [|eauto].
        inversion Heq; subst. congruence.
      * right. rewrite HF. simpl. split; [|reflexivity].
        intros st' cfg' [Heq|Hi] HC'; [|eauto].
        inversion Heq; subst. congruence.
Qed.

(** X27. GetBlobStore of a listing whose stores all have a configuration
    with a name returns the first store of the list with the name asked for,
    or, when there is none, the error that the blob store does not exist,
    in the world and with the history of the listing. *)
Theorem GetBlobStore_first_of_name (n : option Nexus) (name : string)
  (stores : list (option BlobStore)) (w w1 : World) (h1 : list Event) :
  ListBlobStores n w = (Done (stores, None), w1, h1) ->
  Forall (fun x => exists st cfg nm,
            x = Some st /\ Config st = Some cfg /\ cfgName cfg = Some nm)
    stores ->
  (exists pre st cfg post,
      stores = (pre ++ Some st :: post)%list
      /\ Config st = Some cfg /\ cfgName cfg = Some name
      /\ (forall st' cfg', In (Some st') pre -> Config st' = Some cfg' ->
            cfgName cfg' <> Some name)
      /\ GetBlobStore n name w = (Done (Some st, None), w1, h1))
  \/ ((forall st' cfg', In (Some st') stores -> Config st' = Some cfg' ->
         cfgName cfg' <> Some name)
      /\ GetBlobStore n name w
         = (Done (None,
                  Some (errorString
                          ("Blobstore " ++ name ++ " does not exist"))),
            w1, h1)).
Proof.
  intros HL Hwf. unfold GetBlobStore. erewrite bind_Done by exact HL.
  cbv beta iota.
  destruct (findBlobStore_spec name w1 Hwf)
    as [(pre & st & cfg & post & -> & HC & HN & Hpre & HF)|(Hall & HF)].
  - left. exists pre, st, cfg, post. rewrite HF. simpl.
    rewrite app_nil_r. repeat split; auto.
  - right. rewrite HF. simpl. rewrite app_nil_r. split; auto.
Qed.

(** X28. CreateBlobStore after the bridge: when the creating script answers
    exists, the error says the blob store already exists and nothing more is
    sent; for any other answer the result is GetBlobStore's for the name of
    the input, run in the world the bridge left. *)
Theorem CreateBlobStore_after_bridge (n : option Nexus)
  (i : CreateBlobStoreInput) (name text : string)
  (r : ExecuteScriptResponse) (w w1 : World) (h1 : list Event) :
  ensureAndExecute
    (Some (mkScript createBlobStoreScriptName createBlobStoreScript
             ScriptTypeGroovy n))
    (Some (arg_CreateBlobStoreInput (Some i))) w
  = (Done (Some r, None), w1, h1) ->
  Result r = Some text ->
  cbsName i = Some name ->
  (text = "exists" ->
     CreateBlobStore n (Some i) w
     = (Done (None,
              Some (errorString ("Blobstore " ++ name ++ " already exists"))),
        w1, h1))
  /\ (text <> "exists" ->
      CreateBlobStore n (Some i) w
      = (outcome (GetBlobStore n name w1), world (GetBlobStore n name w1),
         (h1 ++ history (GetBlobStore n name w1))%list)).
Proof.
  intros HB HR HN. unfold CreateBlobStore.
  erewrite bind_Done by exact HB. cbv [bind ret deref]. rewrite HR.
  split; intros Ht.
  - subst text. simpl. rewrite HN. simpl. rewrite app_nil_r. reflexivity.
  - destruct (String.eqb_spec text "exists") as [->|_]; [congruence|].
    simpl. rewrite HN.
    destruct (GetBlobStore n name w1) as [[o w2] h2]. reflexivity.
Qed.

(** X29. New always returns the client it built from its three arguments,
    never nil, with at most one request sent; the error is nil exactly when
    that request was sent and answered with status code 200. *)
Theorem New_returns_the_client (host_ username_ password_ : string)
  (w : World) :
  exists err,
    outcome (New host_ username_ password_ w)
    = Done (Some (mkNexus host_ username_ password_), err)
    /\ List.length (sent (history (New host_ username_ password_ w))) <= 1
    /\ (err = None
        <-> exists req resp,
              sent (history (New host_ username_ password_ w)) = [req]
              /\ fst (client_Do req w) = inl resp
              /\ StatusCode resp = 200%Z).
Proof.
  unfold New, Status, NewRequest, roundTrip.
  cbv [bind ret deref]. simpl.
  destruct (url_Parse _) as [e|].
  { simpl. eexists. split; [reflexivity|]. split; [lia|].
    split; [discriminate|]. intros (req & resp & Hs & _). discriminate. }
  destruct (http_NewRequest _ _) as [e|].
  { simpl. eexists. split; [reflexivity|]. split; [lia|].
    split; [discriminate|]. intros (req & resp & Hs & _). discriminate. }
  simpl.
  match goal with
  | |- context [client_Do ?q w] =>
      destruct (client_Do q w) as [[resp|e] w2] eqn:ED
  end; simpl.
  - destruct (Z.eqb_spec (StatusCode resp) 200) as [H200|H200]; simpl.
    + eexists. split; [reflexivity|]. split; [lia|].
      split; [|reflexivity]. intros _. do 2 eexists.
      split; [reflexivity|]. rewrite ED. simpl. auto.
    + eexists. split; [reflexivity|]. split; [lia|].
      split; [discriminate|]. intros (req & resp' & Hs & HD & Hc).
      inversion Hs; subst. rewrite ED in HD. simpl in HD.
      inversion HD; subst. congruence.
  - eexists. split; [reflexivity|]. split; [lia|].
    split; [discriminate|]. intros (req & resp' & Hs & HD & Hc).
    inversion Hs; subst. rewrite ED in HD. discriminate.
Qed.

(** X30. Status is stricter than Do: an answer with a status code other than
    200 is an error of invalid credentials for Status, while Do takes the
    same answer without error when the code is below 300. *)
Theorem Status_is_stricter_than_Do (nx : Nexus) (req : Request)
  (resp : Response) (w : World) :
  NewRequest (Some nx) "GET" "service/rest/v1/status" None None "" w
  = (Done (Some req, None), w, []) ->
  fst (client_Do req w) = inl resp ->
  StatusCode resp <> 200%Z ->
  outcome (Status (Some nx) w) = Done (Some invalid_credentials)
  /\ ((StatusCode resp < 300)%Z -> respReadErr resp = None ->
      outcome (Do (Some nx) (Some req) None false w)
      = Done (Some (respBody resp), None)).
Proof.
  intros HN HD Hc. split.
  - unfold Status. erewrite bind_Done by exact HN.
    unfold roundTrip. cbv [bind ret deref].
    destruct (client_Do req w) as [r w2]. simpl in HD. subst r. simpl.
    destruct (Z.eqb_spec (StatusCode resp) 200); [contradiction|].
    reflexivity.
  - intros Hlt Hr. unfold Do, roundTrip. cbv [bind ret deref].
    destruct (client_Do req w) as [r w2]. simpl in HD. subst r. simpl.
    destruct (Z.geb_spec (StatusCode resp) 300); [lia|].
    simpl. rewrite Hr. reflexivity.
Qed.

End BlobStoreFacts.


(** ** Further runs against the scripted server *)

Section FurtherRuns.
Import Demo Demo2.


(** A get of p1 answered 404: the text of the status map is the error. *)
Lemma Do_error_text_witness :
  outcome (Do nexus
             (Some (mkRequest "GET"
                      "http://localhost:8081/service/rest/v1/script/p1"
                      None None "application/json" ("admin", "admin123")))
             (Some [(404%Z, "Script p1 does not exist")]) false
             (server [reply 404 ""]))
  = Done (None, Some (errorString "Script p1 does not exist")).
Proof.
  exact (@Do_error_text demo
           (mkNexus "http://localhost:8081" "admin" "admin123")
           (mkRequest "GET"
              "http://localhost:8081/service/rest/v1/script/p1"
              None None "application/json" ("admin", "admin123"))
           (Some [(404%Z, "Script p1 does not exist")]) false
           (server [reply 404 ""]) (server []) (mkResponse 404 "" None)
           eq_refl ltac:(simpl; lia)).
Defined.

(** A create of p1 answered 500: the script is said to exist already. *)
Lemma CreateScript_error_status_witness :
  outcome (CreateScript nexus (Some p1) (server [reply 500 ""]))
  = Done (None,
          Some (errorString
                  "Script with name p1 already exists, use UpdateScript instead")).
Proof.
  exact (f_equal outcome
           (@CreateScript_error_status demo
              (mkNexus "http://localhost:8081" "admin" "admin123")
              p1 "p1" "return 1" _ (server [reply 500 ""]) (server [])
              (mkResponse 500 "" None)
              eq_refl eq_refl eq_refl eq_refl eq_refl eq_refl
              ltac:(simpl; lia))).
Defined.

(** The script a create of p1 returns executes and deletes p1. *)
Lemma created_script_is_usable_witness :
  exists name nx,
    nexus = Some nx /\ Name p1 = Some name
    /\ Some p1 = Some (mkScript (Name p1) (Content p1) (Type_ p1) nexus)
    /\ (forall args w',
          Script_Execute (Some p1) args w' = ExecuteScript nexus name args w')
    /\ (forall w', Script_Delete (Some p1) w' = DeleteScript nexus name w').
Proof.
  exact (@created_script_is_usable demo nexus p1 (server [reply 204 ""])
           _ _ _ (or_introl eq_refl)).
Defined.

(** A get of p1 answered with the stored script: p1, bound to the client. *)
Lemma GetScript_returns_bound_witness :
  let w := server [reply 200 (stored "return 1")] in
  exists nx resp s,
    nexus = Some nx
    /\ client_Do (mkRequest "GET"
                    (host nx ++ "/" ++ "service/rest/v1/script/" ++ "p1")
                    None None "application/json" (username nx, password nx))
         w = (inl resp, server [])
    /\ (StatusCode resp < 300)%Z /\ respReadErr resp = None
    /\ JSON.Unmarshal_Script (respBody resp) = (Some s, None)
    /\ Some p1 = Some (mkScript (Name s) (Content s) (Type_ s) nexus).
Proof.
  exact (@GetScript_returns_bound demo nexus "p1"
           (server [reply 200 (stored "return 1")]) _ _ _ eq_refl).
Defined.

(** An execute of p1 answered 200: the decoded answer, no payload sent. *)
Lemma ExecuteScript_success_witness :
  outcome (ExecuteScript nexus "p1" None (server [reply 200 one]))
  = Done (Some (mkExecuteScriptResponse (Some "p1") (Some "1")), None).
Proof.
  exact (f_equal outcome
           (proj1 (@ExecuteScript_success demo
                     (mkNexus "http://localhost:8081" "admin" "admin123")
                     "p1" None None (server [reply 200 one]) (server [])
                     (mkResponse 200 one None)
                     eq_refl eq_refl eq_refl eq_refl ltac:(simpl; lia)
                     eq_refl))).
Defined.

(** Arguments that cannot be marshalled: the error comes back, the server
    is not asked. *)
Lemma ExecuteScript_marshal_failure_witness :
  @ExecuteScript picky nexus "p1" (Some true) (server [reply 200 one])
  = (Done (None, Some (externalError "json: unsupported type: chan int")),
     server [reply 200 one], [Called (@OpExecute picky "p1" (Some true))]).
Proof.
  exact (@ExecuteScript_marshal_failure picky nexus "p1" true _
           (server [reply 200 one]) eq_refl).
Defined.

(** No server: the text of the transport error is not JSON. *)
Lemma ExecuteScript_transport_failure_witness :
  outcome (ExecuteScript nexus "p1" None (server []))
  = Done (None,
          Some (SyntaxError
                  "invalid character looking for beginning of value")).
Proof.
  exact (@ExecuteScript_transport_failure demo
           (mkNexus "http://localhost:8081" "admin" "admin123")
           "p1" None None (server []) (server [])
           (externalError "connection refused")
           eq_refl eq_refl eq_refl eq_refl eq_refl).
Defined.

(** A local script without a body, absent on the server: no execute. *)
Lemma ensureAndExecute_without_content_witness :
  let s := mkScript (Some "p1") None ScriptTypeGroovy nexus in
  let run := ensureAndExecute (Some s) None (server [reply 404 ""]) in
  outcome run = Done (None, Some must_contain)
  /\ count is_execute (history run) = 0.
Proof.
  cbv zeta. split; [reflexivity|].
  exact (proj1 (proj2 (proj2
           (@ensureAndExecute_without_content demo
              (mkScript (Some "p1") None ScriptTypeGroovy nexus) None
              (server [reply 404 ""]) eq_refl)))).
Defined.

(** The server answers the get of p1 with a script called other: other is
    what is executed. *)
Lemma bridge_executes_remote_name_witness :
  let w := server [reply 200 (held (Some "other") (Some "return 1"));
                   reply 200 one] in
  calls (history (ensureAndExecute (Some p1) None w))
  = [OpGet "p1"; OpExecute "other" None].
Proof.
  cbv zeta.
  rewrite (@bridge_executes_remote_name demo p1
             (mkScript (Some "other") (Some "return 1") (Some "groovy")
                nexus)
             "p1" "return 1" None
             (server [reply 200 (held (Some "other") (Some "return 1"));
                      reply 200 one])
             _ _ eq_refl eq_refl eq_refl eq_refl).
  reflexivity.
Defined.

(** Two scripts of the same body, one with neither name nor type. *)
Lemma ephemeral_ignores_name_and_type_witness :
  let w := server [reply 204 ""; reply 200 one; reply 204 ""] in
  bind (NewEphemeralScript nexus (Some p1))
    (fun e => EphemeralScript_Execute e None) w
  = bind (NewEphemeralScript nexus
            (Some (mkScript None (Some "return 1") None None)))
      (fun e => EphemeralScript_Execute e None) w.
Proof.
  exact (@ephemeral_ignores_name_and_type demo nexus p1
           (mkScript None (Some "return 1") None None) None
           (server [reply 204 ""; reply 200 one; reply 204 ""]) eq_refl).
Defined.

(** A registry that holds p1. *)
Lemma ListScripts_response_witness :
  exists r,
    Some (mkListScriptsResponse [Some p1]) = Some r
    /\ (None = None (A:=error) ->
        Forall (fun x => exists s,
                  x = Some (mkScript (Name s) (Content s) (Type_ s) nexus))
          (Scripts r)).
Proof.
  exact (@ListScripts_response demo nexus
           (server [reply 200 ("[" ++ stored "return 1" ++ "]")])
           _ _ eq_refl).
Defined.

(** A registry answer with a null element panics; with a null and a
    number it returns the decoder's error and both elements. *)
Lemma ListScripts_null_element_witness :
  outcome (ListScripts nexus (server [reply 200 "[null]"])) = Panic
  /\ outcome (ListScripts nexus (server [reply 200 "[null,5]"]))
     = Done (Some (mkListScriptsResponse
                     [None; Some (mkScript None None None None)]),
             Some (UnmarshalTypeError "number" "nexus.Script" "" "")).
Proof.
  split.
  - apply (proj2 (proj1 (@ListScripts_null_element demo
                           (mkNexus "http://localhost:8081" "admin"
                              "admin123")
                           (server [reply 200 "[null]"]) (server [])
                           (mkResponse 200 "[null]" None)
                           eq_refl eq_refl eq_refl ltac:(simpl; lia)
                           eq_refl))).
    split; [reflexivity|left; reflexivity].
  - exact (proj2 (@ListScripts_null_element demo
                    (mkNexus "http://localhost:8081" "admin" "admin123")
                    (server [reply 200 "[null,5]"]) (server [])
                    (mkResponse 200 "[null,5]" None)
                    eq_refl eq_refl eq_refl ltac:(simpl; lia) eq_refl)
             _ eq_refl).
Defined.

(** Two repositories listed, the second one null. *)
Lemma ListRepositories_entries_witness :
  let w := server [reply 200
                     (jq "[{'name':'maven-central','format':'maven2'},null]")]
  in
  exists rs err,
    outcome (ListRepositories nexus w) = Done (rs, err)
    /\ List.length rs = 2
    /\ List.map (fun r => match r with None => true | Some _ => false end) rs
       = [false; true].
Proof.
  exact (@ListRepositories_entries demo
           (mkNexus "http://localhost:8081" "admin" "admin123")
           (server [reply 200
                      (jq "[{'name':'maven-central','format':'maven2'},null]")])
           (server [])
           (mkResponse 200
              (jq "[{'name':'maven-central','format':'maven2'},null]") None)
           _ eq_refl eq_refl eq_refl ltac:(simpl; lia) eq_refl eq_refl).
Defined.

(** The download of an asset of the raw repository: the path after the
    host keeps its slash, the request adds one. *)
Lemma Download_requests_witness :
  let a := mkAsset (Some "http://localhost:8081/repository/raw/a.txt") None
             (Some "a") None None None nexus in
  let run := Asset_Download (Some a) (server [reply 200 "data"]) in
  outcome run = Done (Some "data", None)
  /\ List.map reqURL (sent (history run))
     = ["http://localhost:8081//repository/raw/a.txt"].
Proof.
  cbv zeta.
  rewrite (@Download_requests demo
             (mkAsset (Some "http://localhost:8081/repository/raw/a.txt")
                None (Some "a") None None None nexus)
             (mkNexus "http://localhost:8081" "admin" "admin123")
             "/repository/raw/a.txt" (server [reply 200 "data"])
             eq_refl eq_refl eq_refl eq_refl).
  split; reflexivity.
Defined.

(** The last page of the scenario: its asset is bound to the client. *)
Lemma listed_assets_are_bound_witness :
  Forall (fun x => exists a, x = Some a /\ assetClient a = nexus)
    [demoAsset "c"]
  /\ (forall a w',
        In (Some a) [demoAsset "c"] ->
        Asset_Delete (Some a) w'
        = DeleteAsset nexus (Some (mkIDInput (assetID a))) w').
Proof.
  exact (@listed_assets_are_bound demo nexus
           (Some (mkListAssetsInput (Some "my-repo") None))
           (server [reply 200 page2]) _
           (mkListAssetsResponse [demoAsset "c"] None) _ eq_refl).
Defined.

(** The last page of the scenario, as components. *)
Lemma listed_components_are_bound_witness :
  Forall (fun y => exists c,
            y = Some c /\ compClient c = nexus
            /\ Forall (fun x => exists a, x = Some a /\ assetClient a = nexus)
                 (compAssets c))
    [demoComponent "c"].
Proof.
  exact (@listed_components_are_bound demo nexus
           (Some (mkListComponentsInput (Some "my-repo") None))
           (server [reply 200 page2]) _
           (mkListComponentsResponse [demoComponent "c"] None) _ eq_refl).
Defined.

(** A listing of a repository that does not exist: the callback is not
    called. *)
Lemma traversal_stops_on_error_witness :
  let run := ListAssetsPages 1 nexus
               (Some (mkListAssetsInput (Some "my-repo") None))
               gatherAssets (server [reply 404 ""]) in
  outcome run
  = Done (Some (errorString "Repository my-repo does not exist"))
  /\ handledAssets (history run) = [].
Proof.
  cbv zeta.
  destruct (proj1 (@traversal_stops_on_error demo nexus
                     (Some (mkListAssetsInput (Some "my-repo") None))
                     gatherAssets (server [reply 404 ""])
                     _ _ _ _ 0 eq_refl) _ eq_refl) as [Hrun Hh].
  split; [rewrite Hrun; reflexivity|exact Hh].
Defined.

(** Uploading to the raw format without a component configuration. *)
Lemma optional_fields_still_need_config_witness :
  validateComponentFormat nexus (Some (rawUpload None))
    (server [reply 200 rawFormat])
  = (Done (Some (errorString
                   "raw requires the following component fields: []")),
     server [],
     [Sent (mkRequest "GET"
              "http://localhost:8081/service/rest/v1/formats/raw/upload-specs"
              None None "application/json" ("admin", "admin123"))]).
Proof.
  refine (@optional_fields_still_need_config demo demo_os demo_codecs nexus
            (rawUpload None) "raw" _ (server [reply 200 rawFormat]) _ _
            _ eq_refl eq_refl _ _ eq_refl).
  - discriminate.
  - simpl. discriminate.
  - simpl. repeat constructor. eexists. split; reflexivity.
Defined.

(** An upload to the raw format that passes: the file has a filename. *)
Lemma validated_upload_has_required_fields_witness :
  let i := rawUpload (Some [("directory", "/")]) in
  let w := server [reply 200 rawFormat] in
  exists type_ f,
    ComponentType i = Some type_
    /\ GetFormat nexus type_ w
       = (Done (Some f, None), server [],
          [Sent (mkRequest "GET"
                   "http://localhost:8081/service/rest/v1/formats/raw/upload-specs"
                   None None "application/json" ("admin", "admin123"))])
    /\ (forall fld name,
          In (Some fld) (ComponentFields f) ->
          fieldOptional fld = Some false -> fieldName fld = Some name ->
          exists config,
            ComponentConfig i = Some config /\ In name (List.map fst config))
    /\ (forall fld name a,
          In (Some fld) (AssetFields f) ->
          fieldOptional fld = Some false -> fieldName fld = Some name ->
          name <> "asset" -> In (Some a) (uciAssets i) ->
          exists config,
            AssetConfig a = Some config /\ In name (List.map fst config)).
Proof.
  exact (@validated_upload_has_required_fields demo demo_os demo_codecs
           nexus (rawUpload (Some [("directory", "/")]))
           (server [reply 200 rawFormat]) _ _ eq_refl).
Defined.

(** The listing script is absent, is created and returns two stores: the
    store called backup is found behind the one called default. *)
Lemma GetBlobStore_first_of_name_witness :
  let w := server [reply 404 ""; reply 204 "";
                   reply 200 (ran "nexus3-go-list-blobstores" twoStores)] in
  let stores := [demoStore "default" "File"; demoStore "backup" "S3"] in
  let w1 := world (ListBlobStores nexus w) in
  let h1 := history (ListBlobStores nexus w) in
  (exists pre st cfg post,
      stores = (pre ++ Some st :: post)%list
      /\ Config st = Some cfg /\ cfgName cfg = Some "backup"
      /\ (forall st' cfg', In (Some st') pre -> Config st' = Some cfg' ->
            cfgName cfg' <> Some "backup")
      /\ GetBlobStore nexus "backup" w = (Done (Some st, None), w1, h1))
  \/ ((forall st' cfg', In (Some st') stores -> Config st' = Some cfg' ->
         cfgName cfg' <> Some "backup")
      /\ GetBlobStore nexus "backup" w
         = (Done (None,
                  Some (errorString
                          ("Blobstore " ++ "backup" ++ " does not exist"))),
            w1, h1)).
Proof.
  refine (@GetBlobStore_first_of_name demo demo_os demo_codecs nexus
            "backup" [demoStore "default" "File"; demoStore "backup" "S3"]
            (server [reply 404 ""; reply 204 "";
                     reply 200 (ran "nexus3-go-list-blobstores"
                                  twoStores)])
            _ _ eq_refl _).
  repeat constructor; do 3 eexists; repeat split.
Defined.

(** The creating script answers exists: no store is looked up. *)
Lemma CreateBlobStore_after_bridge_witness :
  let i := mkCreateBlobStoreInput (Some "default") BlobStoreTypeFile
             (Some "/data") None in
  let run := CreateBlobStore nexus (Some i)
               (server [reply 404 ""; reply 204 "";
                        reply 200 (ran "nexus3-go-create-blobstore"
                                     "exists")]) in
  outcome run
  = Done (None, Some (errorString "Blobstore default already exists"))
  /\ List.length (sent (history run)) = 3.
Proof.
  cbv zeta.
  rewrite (proj1 (@CreateBlobStore_after_bridge demo demo_os demo_codecs
                    nexus
                    (mkCreateBlobStoreInput (Some "default")
                       BlobStoreTypeFile (Some "/data") None)
                    "default" "exists" _
                    (server [reply 404 ""; reply 204 "";
                             reply 200 (ran "nexus3-go-create-blobstore"
                                          "exists")])
                    _ _ eq_refl eq_refl eq_refl) eq_refl).
  split; reflexivity.
Defined.

(** An answer of 204 to the status request: Do would take it, Status does
    not. *)
Lemma Status_is_stricter_than_Do_witness :
  let req := mkRequest "GET" "http://localhost:8081/service/rest/v1/status"
               None None "application/json" ("admin", "admin123") in
  let w := server [reply 204 ""] in
  outcome (Status nexus w) = Done (Some invalid_credentials)
  /\ outcome (Do nexus (Some req) None false w) = Done (Some "", None).
Proof.
  cbv zeta.
  destruct (@Status_is_stricter_than_Do demo
              (mkNexus "http://localhost:8081" "admin" "admin123")
              (mkRequest "GET" "http://localhost:8081/service/rest/v1/status"
                 None None "application/json" ("admin", "admin123"))
              (mkResponse 204 "" None) (server [reply 204 ""])
              eq_refl eq_refl ltac:(simpl; lia)) as [H1 H2].
  split; [exact H1|]. exact (H2 ltac:(simpl; lia) eq_refl).
Defined.

End FurtherRuns.

Section EndlessRun.

(** The endless server and a callback that always goes on: five steps of the
    traversal are five fetches and five calls, and it has not returned. *)
Lemma traversal_is_unbounded_witness :
  let run := @ListAssetsPages Loop.looping 5 Demo.nexus
               (Some (mkListAssetsInput (Some "my-repo") None))
               Loop.goOn 0 in
  outcome run = OutOfFuel
  /\ List.length (handledAssets (history run)) = 5
  /\ count is_fetch (history run) = 5.
Proof.
  refine (@traversal_is_unbounded Loop.looping Demo.nexus Loop.goOn
            (fun input _ => laiRepository input = Some "my-repo") _
            5 (mkListAssetsInput (Some "my-repo") None) 0 eq_refl).
  intros [repo tok] w HI. simpl in HI. subst repo.
  do 5 eexists. split; [reflexivity|].
  split; [discriminate|]. split; reflexivity.
Defined.

End EndlessRun.
